(** * bam-rag: the ingestion core, embedded in Rocq

    A shallow embedding of the Go packages [internal/markdown],
    [pkg/models], [internal/processor], [internal/scraper],
    [internal/storage], [internal/elasticsearch], [internal/llm],
    [internal/embeddings], [internal/ingestion] and [internal/pipeline]
    of mfenderov/bam-rag, with the properties of the design document proved
    (or refuted) on it.

    Go strings are byte strings: they are modelled by [string], whose
    characters are the 256 byte values. *)

From Stdlib Require Import ZArith Lia Bool Ascii.
From stdpp Require Import base option gmap strings list pretty sorting.

Local Open Scope nat_scope.

(* String concatenation unfolds on a constructor, like list append. *)
Arguments String.append !s1 s2 : simpl nomatch.

(* ================================================================== *)
(** * Byte strings *)
(* ================================================================== *)

Module Str.

Abbreviation len := String.length.

Lemma app_nil_r (s : string) : s +:+ "" = s.
Proof. induction s as [|c s IH]; simpl; [reflexivity | now rewrite IH]. Qed.

Lemma app_assoc (a b c : string) : (a +:+ b) +:+ c = a +:+ b +:+ c.
Proof. induction a as [|x a IH]; simpl; [reflexivity | now rewrite IH]. Qed.

Lemma len_app (a b : string) : len (a +:+ b) = len a + len b.
Proof. induction a as [|x a IH]; simpl; [reflexivity | now rewrite IH]. Qed.

Lemma app_eq_nil (a b : string) : a +:+ b = "" -> a = "" /\ b = "".
Proof. destruct a; simpl; [auto | discriminate]. Qed.

Lemma len_0 (s : string) : len s = 0 -> s = "".
Proof. destruct s; simpl; [reflexivity | discriminate]. Qed.

(** [s[:n]] and [s[n:]] *)
Fixpoint take (n : nat) (s : string) : string :=
  match n, s with
  | S n', String c s' => String c (take n' s')
  | _, _ => ""
  end.

Fixpoint drop (n : nat) (s : string) : string :=
  match n, s with
  | S n', String _ s' => drop n' s'
  | _, _ => s
  end.

Lemma take_drop (n : nat) (s : string) : take n s +:+ drop n s = s.
Proof.
  revert s; induction n as [|n IH]; intros [|c s]; simpl; try reflexivity.
  now rewrite IH.
Qed.

Lemma take_app (a b : string) : take (len a) (a +:+ b) = a.
Proof. induction a as [|c a IH]; simpl; [now destruct b | now rewrite IH]. Qed.

Lemma drop_app (a b : string) : drop (len a) (a +:+ b) = b.
Proof. induction a as [|c a IH]; simpl; [reflexivity | exact IH]. Qed.

Lemma len_take (n : nat) (s : string) : n <= len s -> len (take n s) = n.
Proof.
  revert s; induction n as [|n IH]; intros [|c s]; simpl; intros H;
    try reflexivity; try lia.
  rewrite IH; lia.
Qed.

Lemma len_drop (n : nat) (s : string) : len (drop n s) = len s - n.
Proof.
  revert s; induction n as [|n IH]; intros [|c s]; simpl; try reflexivity.
  apply IH.
Qed.

Lemma app_inv_len (a b c d : string) :
  a +:+ b = c +:+ d -> len a = len c -> a = c /\ b = d.
Proof.
  revert c; induction a as [|x a IH]; intros [|y c]; simpl; intros H L;
    try discriminate.
  - auto.
  - injection H as -> H. injection L as L.
    destruct (IH _ H L) as [-> ->]. auto.
Qed.

(** Two decompositions of one string: one of the two left parts is a prefix
    of the other. *)
Lemma app_eq_app (a b c d : string) :
  a +:+ b = c +:+ d ->
  (exists m, c = a +:+ m /\ b = m +:+ d) \/ (exists m, a = c +:+ m /\ d = m +:+ b).
Proof.
  revert c; induction a as [|x a IH]; intros c H; simpl in *.
  - left. exists c. auto.
  - destruct c as [|y c]; simpl in *.
    + right. exists (String x a). auto.
    + injection H as -> H. destruct (IH _ H) as [[m [-> ->]]|[m [-> ->]]].
      * left. exists m. auto.
      * right. exists m. auto.
Qed.

Definition rev (s : string) : string := String.rev s.

Lemma rev_app_spec (a b : string) :
  String.rev_app a b = String.rev_app a "" +:+ b.
Proof.
  revert b; induction a as [|c a IH]; intros b; simpl; [reflexivity|].
  rewrite IH, (IH (String c "")), app_assoc. reflexivity.
Qed.

Lemma rev_cons (c : ascii) (s : string) : rev (String c s) = rev s +:+ String c "".
Proof. unfold rev, String.rev. simpl. apply rev_app_spec. Qed.

Lemma rev_app (a b : string) : rev (a +:+ b) = rev b +:+ rev a.
Proof.
  induction a as [|c a IH]; simpl.
  - now rewrite app_nil_r.
  - rewrite !rev_cons, IH, app_assoc. reflexivity.
Qed.

Lemma rev_rev (s : string) : rev (rev s) = s.
Proof.
  induction s as [|c s IH]; [reflexivity|].
  rewrite rev_cons, rev_app, IH. reflexivity.
Qed.

(** Every character of the string satisfies [p]. *)
Fixpoint all (p : ascii -> bool) (s : string) : bool :=
  match s with
  | "" => true
  | String c s' => p c && all p s'
  end.

Lemma all_app (p : ascii -> bool) (a b : string) :
  all p (a +:+ b) = all p a && all p b.
Proof. induction a as [|c a IH]; simpl; [reflexivity | now rewrite IH, andb_assoc]. Qed.

Fixpoint map (f : ascii -> ascii) (s : string) : string :=
  match s with
  | "" => ""
  | String c s' => String (f c) (map f s')
  end.

End Str.

(* ================================================================== *)
(** * Library functions outside the repository *)
(* ================================================================== *)

(** Go errors carry a message. *)
Definition error := string.

(** A node of the tree built by [golang.org/x/net/html]. *)
Inductive NodeType := ErrorNode | TextNode | DocumentNode | ElementNode
                      | CommentNode | DoctypeNode.

#[local] Set Warnings "-register-all".
Inductive Node := MkNode (type : NodeType) (data : string) (children : list Node).

(** The manifest of a crawl run ([storage.ScrapeMetadata]). *)
Module Meta.
Record ScrapeMetadata := {
  SourceURL : string;
  Timestamp : string;
  PageCount : nat;
  Pages : list string
}.
End Meta.
Abbreviation ScrapeMetadata := Meta.ScrapeMetadata.

(** What the program takes from libraries whose result is a pure function
    of the argument but is table- or grammar-driven: the Unicode case
    mapping applied by [strings.ToLower] to a string that is not pure ASCII,
    the HTML parser, the HTML-to-Markdown converter, the URL parser, the
    rendering of a time and the JSON text of a manifest. Every result below
    holds for all instances. *)
Class Libs := {
  unicodeLower : string -> string;
  html_Parse : string -> Node + error;
  htmltomarkdown_ConvertString : string -> string + error;
  (** [net/url]: the host of a URL that parses *)
  url_Parse : string -> string + error;
  (** [time.Time.Format]: layout, then nanoseconds since the epoch *)
  time_Format : string -> Z -> string;
  (** [encoding/json] on a manifest *)
  json_MarshalIndent : ScrapeMetadata -> string;
  json_Unmarshal : string -> ScrapeMetadata + error
}.

(* ================================================================== *)
(** * Package strings *)
(* ================================================================== *)

Module GoStrings.
Import Str.

(** [len(s) >= len(prefix) && s[:len(prefix)] == prefix] *)
Definition HasPrefix (s prefix : string) : bool :=
  (len prefix <=? len s) && String.eqb (take (len prefix) s) prefix.

(** [len(s) >= len(suffix) && s[len(s)-len(suffix):] == suffix] *)
Definition HasSuffix (s suffix : string) : bool :=
  (len suffix <=? len s) && String.eqb (drop (len s - len suffix) s) suffix.

(** Index of the first instance of [substr] in [s]; [None] stands for -1. *)
Fixpoint Index (s substr : string) : option nat :=
  if HasPrefix s substr then Some 0
  else match s with
       | "" => None
       | String _ s' => S <$> Index s' substr
       end.

Definition Contains (s substr : string) : bool :=
  match Index s substr with Some _ => true | None => false end.

(** [strings.Replace(s, old, new, 1)]: the first instance of [old] is
    replaced; without an instance the string is returned unchanged. *)
Definition ReplaceFirst (s old new : string) : string :=
  match Index s old with
  | None => s
  | Some j => take j s +:+ new +:+ drop (j + len old) s
  end.

Definition TrimSuffix (s suffix : string) : string :=
  if HasSuffix s suffix then take (len s - len suffix) s else s.

Definition TrimPrefix (s prefix : string) : string :=
  if HasPrefix s prefix then drop (len prefix) s else s.

(** ** ToLower *)

Definition isASCII (s : string) : bool :=
  all (fun c => nat_of_ascii c <? 128) s.

Definition lowerByte (c : ascii) : ascii :=
  let n := nat_of_ascii c in
  if (65 <=? n) && (n <=? 90) then ascii_of_nat (n + 32) else c.

(** ASCII strings are mapped byte by byte; any other string goes through
    the Unicode tables. *)
Definition ToLower `{Libs} (s : string) : string :=
  if isASCII s then map lowerByte s else unicodeLower s.

(** ** TrimSpace

    [unicode.IsSpace] holds of 25 code points. In UTF-8 six of them are the
    single bytes below and the others are the two- and three-byte sequences
    recognised by [stripSpace]; a byte that starts no such sequence decodes
    to a rune that is not a space. *)

Definition asciiSpace (c : ascii) : bool :=
  match nat_of_ascii c with
  | 9 | 10 | 11 | 12 | 13 | 32 => true
  | _ => false
  end.

Definition byte (c : ascii) (n : nat) : bool := nat_of_ascii c =? n.

(** The number of bytes of the white-space rune that [s] starts with; 0 when
    it starts with none. *)
Definition spaceWidth (s : string) : nat :=
  match s with
  | String c rest =>
      if asciiSpace c then 1
      else match rest with
           | String d rest' =>
               if byte c 194 && (byte d 133 || byte d 160)
               then 2                                     (* U+0085, U+00A0 *)
               else match rest' with
                    | String e _ =>
                        if byte c 225 && byte d 154 && byte e 128
                        then 3                            (* U+1680 *)
                        else if byte c 226 && byte d 128 &&
                                ((128 <=? nat_of_ascii e) && (nat_of_ascii e <=? 138)
                                 || byte e 168 || byte e 169 || byte e 175)
                        then 3        (* U+2000..U+200A, U+2028, U+2029, U+202F *)
                        else if byte c 226 && byte d 129 && byte e 159
                        then 3                            (* U+205F *)
                        else if byte c 227 && byte d 128 && byte e 128
                        then 3                            (* U+3000 *)
                        else 0
                    | "" => 0
                    end
           | "" => 0
           end
  | "" => 0
  end.

(** The rest of [s] after one leading white-space rune, if there is one. *)
Definition stripSpace (s : string) : option string :=
  match spaceWidth s with
  | 0 => None
  | w => Some (drop w s)
  end.

Lemma spaceWidth_le (s : string) : spaceWidth s <= len s.
Proof.
  destruct s as [|c [|d [|e rest]]]; simpl; try lia;
    repeat match goal with
           | |- context [if ?b then _ else _] => destruct b
           end; lia.
Qed.

Lemma stripSpace_shorter (s t : string) : stripSpace s = Some t -> len t < len s.
Proof.
  unfold stripSpace. pose proof (spaceWidth_le s) as Hle.
  destruct (spaceWidth s) as [|w] eqn:E; [discriminate|].
  intros [= <-]. change (len (drop (S w) s) < len s). rewrite len_drop. lia.
Qed.

Fixpoint trimLeftFuel (fuel : nat) (s : string) : string :=
  match fuel with
  | 0 => s
  | S fuel' =>
      match stripSpace s with
      | Some rest => trimLeftFuel fuel' rest
      | None => s
      end
  end.

(** [strings.TrimLeftFunc(s, unicode.IsSpace)]; at most [len s] runes can be
    removed. *)
Definition TrimLeftSpace (s : string) : string := trimLeftFuel (len s) s.

(** The rest of [s] before one trailing white-space rune: the last one, two
    or three bytes are such a rune ([utf8.DecodeLastRuneInString] looks back
    for a start byte and accepts the rune when it ends the string). *)
Definition stripSpaceEnd (s : string) : option string :=
  let n := len s in
  if (1 <=? n) && (spaceWidth (drop (n - 1) s) =? 1) then Some (take (n - 1) s)
  else if (2 <=? n) && (spaceWidth (drop (n - 2) s) =? 2) then Some (take (n - 2) s)
  else if (3 <=? n) && (spaceWidth (drop (n - 3) s) =? 3) then Some (take (n - 3) s)
  else None.

Fixpoint trimRightFuel (fuel : nat) (s : string) : string :=
  match fuel with
  | 0 => s
  | S fuel' =>
      match stripSpaceEnd s with
      | Some rest => trimRightFuel fuel' rest
      | None => s
      end
  end.

Definition TrimRightSpace (s : string) : string := trimRightFuel (len s) s.

Definition TrimSpace (s : string) : string := TrimRightSpace (TrimLeftSpace s).

(** [strings.Split(s, sep)] for a one-byte separator. *)
Fixpoint splitByte (sep : ascii) (cur : string) (s : string) : list string :=
  match s with
  | "" => [rev cur]
  | String c s' =>
      if Ascii.eqb c sep then rev cur :: splitByte sep "" s'
      else splitByte sep (String c cur) s'
  end.

Definition Split (s : string) (sep : ascii) : list string := splitByte sep "" s.

(** ** What these functions compute *)

Lemma HasPrefix_spec (s p : string) :
  HasPrefix s p = true <-> exists t, s = p +:+ t.
Proof.
  unfold HasPrefix. rewrite andb_true_iff, Nat.leb_le, String.eqb_eq. split.
  - intros [_ H]. exists (drop (len p) s).
    rewrite <- (take_drop (len p) s) at 1. now rewrite H.
  - intros [t ->]. rewrite len_app, take_app. split; [lia | reflexivity].
Qed.

Lemma HasSuffix_spec (s p : string) :
  HasSuffix s p = true <-> exists t, s = t +:+ p.
Proof.
  unfold HasSuffix. rewrite andb_true_iff, Nat.leb_le, String.eqb_eq. split.
  - intros [_ H]. exists (take (len s - len p) s).
    rewrite <- (take_drop (len s - len p) s) at 1. now rewrite H.
  - intros [t ->]. rewrite len_app. split; [lia|].
    replace (len t + len p - len p) with (len t) by lia. apply drop_app.
Qed.

(** [sub] occurs in [s] at offset [len pre], and nowhere before. *)
Definition FirstAt (s sub pre post : string) : Prop :=
  s = pre +:+ sub +:+ post /\
  forall pre' post', s = pre' +:+ sub +:+ post' -> len pre <= len pre'.

Lemma Index_Some (s sub : string) (j : nat) :
  Index s sub = Some j ->
  exists pre post, FirstAt s sub pre post /\ len pre = j.
Proof.
  revert j; induction s as [|c s IH]; intros j; simpl.
  - destruct (HasPrefix "" sub) eqn:E; [|discriminate].
    intros [= <-]. apply HasPrefix_spec in E as [t E].
    exists "", t. split; [split|]; simpl; [exact E | lia | reflexivity].
  - destruct (HasPrefix (String c s) sub) eqn:E.
    + intros [= <-]. apply HasPrefix_spec in E as [t E].
      exists "", t. split; [split|]; simpl; [exact E | lia | reflexivity].
    + destruct (Index s sub) as [k|] eqn:Ek; [|discriminate].
      intros [= <-]. destruct (IH k eq_refl) as (pre & post & [Hs Hmin] & Hlen).
      exists (String c pre), post. split; [split|]; simpl.
      * now rewrite Hs.
      * intros [|c' pre'] post' H'; simpl in H'.
        -- exfalso. assert (HasPrefix (String c s) sub = true) as E'
             by (apply HasPrefix_spec; exists post'; exact H').
           congruence.
        -- injection H' as _ H'. apply Hmin in H'. simpl. lia.
      * now rewrite Hlen.
Qed.

Lemma Index_None (s sub : string) :
  Index s sub = None -> forall pre post, s <> pre +:+ sub +:+ post.
Proof.
  induction s as [|c s IH]; simpl.
  - destruct (HasPrefix "" sub) eqn:E; [discriminate|]. intros _ pre post H.
    symmetry in H. apply app_eq_nil in H as [-> H]. simpl in H.
    assert (HasPrefix "" sub = true) as E'
      by (apply HasPrefix_spec; exists post; now rewrite H).
    congruence.
  - destruct (HasPrefix (String c s) sub) eqn:E; [discriminate|].
    destruct (Index s sub) eqn:Ek; [discriminate|]. intros _ [|c' pre] post H.
    + assert (HasPrefix (String c s) sub = true) as E'
        by (apply HasPrefix_spec; exists post; exact H).
      congruence.
    + simpl in H. injection H as _ H. exact (IH eq_refl _ _ H).
Qed.

Lemma Contains_spec (s sub : string) :
  Contains s sub = true <-> exists pre post, s = pre +:+ sub +:+ post.
Proof.
  unfold Contains. destruct (Index s sub) as [j|] eqn:E; split; try reflexivity.
  - intros _. destruct (Index_Some _ _ _ E) as (pre & post & [H _] & _). eauto.
  - discriminate.
  - intros (pre & post & H). exfalso. exact (Index_None _ _ E _ _ H).
Qed.

(** With an instance of [old], the first one is replaced. *)
Lemma ReplaceFirst_spec (s old new : string) :
  Contains s old = true ->
  exists pre post, FirstAt s old pre post /\
                   ReplaceFirst s old new = pre +:+ new +:+ post.
Proof.
  unfold Contains, ReplaceFirst. destruct (Index s old) as [j|] eqn:E;
    [intros _|discriminate].
  destruct (Index_Some _ _ _ E) as (pre & post & [Hs Hmin] & Hlen).
  exists pre, post. split; [split; assumption|]. subst j. rewrite Hs.
  rewrite take_app. f_equal. f_equal.
  rewrite <- len_app, <- app_assoc. apply drop_app.
Qed.

Lemma ReplaceFirst_absent (s old new : string) :
  Contains s old = false -> ReplaceFirst s old new = s.
Proof.
  unfold Contains, ReplaceFirst. now destruct (Index s old).
Qed.

Lemma TrimSuffix_spec (s suffix : string) :
  (exists t, s = t +:+ suffix /\ TrimSuffix s suffix = t) \/
  (HasSuffix s suffix = false /\ TrimSuffix s suffix = s).
Proof.
  unfold TrimSuffix. destruct (HasSuffix s suffix) eqn:E; [left|right; auto].
  apply HasSuffix_spec in E as [t ->]. exists t. split; [reflexivity|].
  rewrite len_app. replace (len t + len suffix - len suffix) with (len t) by lia.
  apply take_app.
Qed.

(** The fuel of [TrimLeftSpace] is enough: the result starts with no
    white-space rune. *)
Lemma trimLeftFuel_done (fuel : nat) (s : string) :
  len s <= fuel -> stripSpace (trimLeftFuel fuel s) = None.
Proof.
  revert s; induction fuel as [|fuel IH]; intros s Hs; simpl.
  - assert (s = "") as -> by (apply len_0; lia). reflexivity.
  - destruct (stripSpace s) as [rest|] eqn:E; [|exact E].
    apply IH. apply stripSpace_shorter in E. lia.
Qed.

Lemma TrimLeftSpace_done (s : string) : stripSpace (TrimLeftSpace s) = None.
Proof. apply trimLeftFuel_done. lia. Qed.

Lemma stripSpaceEnd_shorter (s t : string) :
  stripSpaceEnd s = Some t -> len t < len s.
Proof.
  unfold stripSpaceEnd.
  repeat match goal with
         | |- context [if ?b then _ else _] => destruct b eqn:?
         end; try discriminate; intros [= <-];
    match goal with
    | H : _ && _ = true |- _ =>
        apply andb_true_iff in H as [H _]; apply Nat.leb_le in H
    end; rewrite len_take; lia.
Qed.

Lemma trimRightFuel_done (fuel : nat) (s : string) :
  len s <= fuel -> stripSpaceEnd (trimRightFuel fuel s) = None.
Proof.
  revert s; induction fuel as [|fuel IH]; intros s Hs; simpl.
  - assert (s = "") as -> by (apply len_0; lia). reflexivity.
  - destruct (stripSpaceEnd s) as [rest|] eqn:E; [|exact E].
    apply IH. apply stripSpaceEnd_shorter in E. lia.
Qed.

Lemma TrimRightSpace_done (s : string) : stripSpaceEnd (TrimRightSpace s) = None.
Proof. apply trimRightFuel_done. lia. Qed.

End GoStrings.

(* ================================================================== *)
(** * Package regexp *)
(* ================================================================== *)

(** The three expressions of [hasMarkdownPatterns] use character classes,
    concatenation, bounded and unbounded repetition and the anchor [^].
    The expression is decided by Brzozowski derivatives; [Matches] is the
    usual meaning of an expression and the matcher is proved against it.

    Go matches runes, not bytes. An ASCII byte always decodes to itself
    and a byte above 127 always belongs to (or is, when malformed) a rune
    above 127; every class below either names ASCII bytes or excludes
    ASCII bytes, so matching bytes finds a match exactly when matching
    runes does. *)

Module Regexp.
Import Str.

Inductive re :=
| Void
| Eps
| Class (p : ascii -> bool)
| Seq (r1 r2 : re)
| Alt (r1 r2 : re)
| Star (r : re).

Inductive Matches : re -> string -> Prop :=
| MEps : Matches Eps ""
| MClass p c : p c = true -> Matches (Class p) (String c "")
| MSeq r1 r2 s1 s2 :
    Matches r1 s1 -> Matches r2 s2 -> Matches (Seq r1 r2) (s1 +:+ s2)
| MAltL r1 r2 s : Matches r1 s -> Matches (Alt r1 r2) s
| MAltR r1 r2 s : Matches r2 s -> Matches (Alt r1 r2) s
| MStar0 r : Matches (Star r) ""
| MStarS r s1 s2 :
    Matches r s1 -> Matches (Star r) s2 -> Matches (Star r) (s1 +:+ s2).

#[local] Hint Constructors Matches : core.

Fixpoint nullable (r : re) : bool :=
  match r with
  | Void => false
  | Eps => true
  | Class _ => false
  | Seq r1 r2 => nullable r1 && nullable r2
  | Alt r1 r2 => nullable r1 || nullable r2
  | Star _ => true
  end.

Fixpoint deriv (c : ascii) (r : re) : re :=
  match r with
  | Void | Eps => Void
  | Class p => if p c then Eps else Void
  | Seq r1 r2 =>
      if nullable r1 then Alt (Seq (deriv c r1) r2) (deriv c r2)
      else Seq (deriv c r1) r2
  | Alt r1 r2 => Alt (deriv c r1) (deriv c r2)
  | Star r1 => Seq (deriv c r1) (Star r1)
  end.

(** Some prefix of [s] matches [r]. *)
Fixpoint matchPrefix (r : re) (s : string) : bool :=
  nullable r ||
  match s with
  | "" => false
  | String c s' => matchPrefix (deriv c r) s'
  end.

(** Some substring of [s] matches [r]. *)
Fixpoint find (r : re) (s : string) : bool :=
  matchPrefix r s ||
  match s with
  | "" => false
  | String _ s' => find r s'
  end.

Definition newline : ascii := "010"%char.

(** Some substring of [s] that starts a line matches [r]: the flag [(?m)]
    lets [^] match at the start of the text and after each newline. *)
Fixpoint findAtLineStart (atStart : bool) (r : re) (s : string) : bool :=
  (atStart && matchPrefix r s) ||
  match s with
  | "" => false
  | String c s' => findAtLineStart (Ascii.eqb c newline) r s'
  end.

(** ** Derived forms *)

Definition Plus (r : re) : re := Seq r (Star r).

(** [r{0,n}] *)
Fixpoint UpTo (n : nat) (r : re) : re :=
  match n with
  | 0 => Eps
  | S n' => Alt Eps (Seq r (UpTo n' r))
  end.

(** [r{n}] followed by [k] *)
Fixpoint Times (n : nat) (r k : re) : re :=
  match n with
  | 0 => k
  | S n' => Seq r (Times n' r k)
  end.

(** [r{min,max}] *)
Definition Repeat (min max : nat) (r : re) : re :=
  Times min r (UpTo (max - min) r).

Definition Lit (c : ascii) : re := Class (Ascii.eqb c).

(** A compiled expression: where [^] anchors it, and the rest. *)
Inductive Anchor := Unanchored | TextStart | LineStart.

Record Regexp := MustCompile { anchor : Anchor; body : re }.

Definition MatchString (rx : Regexp) (s : string) : bool :=
  match anchor rx with
  | Unanchored => find (body rx) s
  | TextStart => matchPrefix (body rx) s
  | LineStart => findAtLineStart true (body rx) s
  end.

(** ** The matcher against the meaning *)

Lemma nullable_spec (r : re) : nullable r = true <-> Matches r "".
Proof.
  split.
  - induction r; simpl; intros H; try discriminate; auto.
    + apply andb_true_iff in H as [H1 H2]. change "" with ("" +:+ ""). auto.
    + apply orb_true_iff in H as [H|H]; auto.
  - intros H. remember "" as s eqn:Es. induction H; simpl; try discriminate; auto.
    + apply app_eq_nil in Es as [-> ->]. rewrite IHMatches1, IHMatches2; auto.
    + rewrite IHMatches; auto.
    + rewrite IHMatches; auto using orb_true_r.
Qed.

Lemma Matches_Seq_cons (r1 r2 : re) (c : ascii) (s : string) :
  Matches (Seq r1 r2) (String c s) ->
  (exists s1 s2, s = s1 +:+ s2 /\ Matches r1 (String c s1) /\ Matches r2 s2) \/
  (Matches r1 "" /\ Matches r2 (String c s)).
Proof.
  intros H. inversion H as [| |? ? s1 s2 H1 H2 Er Es| | | |]; subst.
  destruct s1 as [|c1 s1]; simpl in Es.
  - right. subst. auto.
  - left. injection Es as -> <-. eauto.
Qed.

Lemma Matches_Star_cons (r : re) (c : ascii) (s : string) :
  Matches (Star r) (String c s) ->
  exists s1 s2, s = s1 +:+ s2 /\ Matches r (String c s1) /\ Matches (Star r) s2.
Proof.
  intros H. remember (Star r) as r' eqn:Er. remember (String c s) as s' eqn:Es.
  revert s Es. induction H; intros s0 Es; try discriminate.
  injection Er as ->. destruct s1 as [|c1 s1]; simpl in Es.
  - apply IHMatches2; auto.
  - injection Es as -> <-. eauto.
Qed.

Lemma deriv_spec (r : re) (c : ascii) (s : string) :
  Matches (deriv c r) s <-> Matches r (String c s).
Proof.
  revert s; induction r as [| |p|r1 IH1 r2 IH2|r1 IH1 r2 IH2|r IH]; intros s; simpl.
  - split; intros H; inversion H.
  - split; intros H; inversion H.
  - destruct (p c) eqn:E; split; intros H; inversion H; subst; auto; congruence.
  - destruct (nullable r1) eqn:N; split; intros H.
    + inversion H as [| | |? ? ? H'|? ? ? H'| |]; subst.
      * inversion H' as [| |? ? s1 s2 H1 H2| | | |]; subst.
        apply IH1 in H1. change (Matches (Seq r1 r2) (String c s1 +:+ s2)). auto.
      * apply IH2 in H'. apply nullable_spec in N.
        change (Matches (Seq r1 r2) ("" +:+ String c s)). auto.
    + apply Matches_Seq_cons in H as [(s1 & s2 & -> & H1 & H2)|[H1 H2]].
      * apply MAltL. apply MSeq; [apply IH1|]; auto.
      * apply MAltR. apply IH2; auto.
    + inversion H as [| |? ? s1 s2 H1 H2| | | |]; subst.
      apply IH1 in H1. change (Matches (Seq r1 r2) (String c s1 +:+ s2)). auto.
    + apply Matches_Seq_cons in H as [(s1 & s2 & -> & H1 & H2)|[H1 H2]].
      * apply MSeq; [apply IH1|]; auto.
      * apply nullable_spec in H1. congruence.
  - split; intros H; inversion H; subst;
      ((apply MAltL; apply IH1; assumption) || (apply MAltR; apply IH2; assumption)).
  - split; intros H.
    + inversion H as [| |? ? s1 s2 H1 H2| | | |]; subst.
      apply IH in H1. change (Matches (Star r) (String c s1 +:+ s2)). auto.
    + apply Matches_Star_cons in H as (s1 & s2 & -> & H1 & H2).
      apply MSeq; [apply IH|]; auto.
Qed.

Lemma matchPrefix_spec (r : re) (s : string) :
  matchPrefix r s = true <-> exists w t, s = w +:+ t /\ Matches r w.
Proof.
  revert r; induction s as [|c s IH]; intros r; simpl.
  - rewrite orb_false_r, nullable_spec. split.
    + intros H. exists "", "". auto.
    + intros (w & t & E & H). symmetry in E. apply app_eq_nil in E as [-> _]. auto.
  - rewrite orb_true_iff, nullable_spec, IH. split.
    + intros [H|(w & t & -> & H)].
      * exists "", (String c s). auto.
      * exists (String c w), t. split; [reflexivity|]. now apply deriv_spec.
    + intros ([|c' w] & t & E & H); [left; assumption|right].
      simpl in E. injection E as <- ->. exists w, t. split; [reflexivity|].
      now apply deriv_spec.
Qed.

Lemma find_spec (r : re) (s : string) :
  find r s = true <->
  exists pre w post, s = pre +:+ w +:+ post /\ Matches r w.
Proof.
  induction s as [|c s IH].
  - cbn [find]. rewrite orb_false_r, matchPrefix_spec. split.
    + intros (w & t & E & H). exists "", w, t. auto.
    + intros (pre & w & post & E & H). symmetry in E.
      apply app_eq_nil in E as [-> E]. exists w, post. auto.
  - cbn [find]. rewrite orb_true_iff, matchPrefix_spec, IH. split.
    + intros [(w & t & E & H)|(pre & w & post & -> & H)].
      * exists "", w, t. auto.
      * exists (String c pre), w, post. auto.
    + intros ([|c' pre] & w & post & E & H); simpl in E.
      * left. eauto.
      * right. injection E as <- ->. eauto.
Qed.

(** [pre] ends a line: what follows it starts one. *)
Definition EndsLine (pre : string) : Prop :=
  pre = "" \/ exists p, pre = p +:+ String newline "".

Lemma findAtLineStart_gen (b : bool) (r : re) (s : string) :
  findAtLineStart b r s = true <->
  exists pre w post, s = pre +:+ w +:+ post /\ Matches r w /\
    ((pre = "" /\ b = true) \/ exists p, pre = p +:+ String newline "").
Proof.
  revert b; induction s as [|c s IH]; intros b; cbn [findAtLineStart].
  - rewrite orb_false_r, andb_true_iff, matchPrefix_spec. split.
    + intros [-> (w & t & E & H)]. exists "", w, t. auto.
    + intros (pre & w & post & E & H & Hp). symmetry in E.
      apply app_eq_nil in E as [-> E]. destruct Hp as [[_ ->]|[p Hp]].
      * split; [reflexivity|]. exists w, post. auto.
      * symmetry in Hp. apply app_eq_nil in Hp as [_ Hp]. discriminate.
  - rewrite orb_true_iff, andb_true_iff, matchPrefix_spec, IH. split.
    + intros [[-> (w & t & E & H)]|(pre & w & post & -> & H & Hp)].
      * exists "", w, t. auto.
      * exists (String c pre), w, post. split; [reflexivity|]. split; [assumption|].
        right. destruct Hp as [[-> Hc]|[p ->]].
        -- apply Ascii.eqb_eq in Hc as ->. exists "". reflexivity.
        -- exists (String c p). reflexivity.
    + intros ([|c' pre] & w & post & E & H & Hp); simpl in E.
      * left. destruct Hp as [[_ ->]|[p Hp]].
        -- split; [reflexivity|]. eauto.
        -- symmetry in Hp. apply app_eq_nil in Hp as [_ Hp]. discriminate.
      * right. injection E as <- ->. exists pre, w, post.
        split; [reflexivity|]. split; [assumption|].
        destruct Hp as [[Hp _]|[p Hp]]; [discriminate|].
        destruct p as [|c1 p]; simpl in Hp.
        -- injection Hp as -> ->. left. split; [reflexivity|]. apply Ascii.eqb_refl.
        -- injection Hp as _ ->. right. eauto.
Qed.

Lemma findAtLineStart_spec (r : re) (s : string) :
  findAtLineStart true r s = true <->
  exists pre w post, s = pre +:+ w +:+ post /\ Matches r w /\ EndsLine pre.
Proof.
  rewrite findAtLineStart_gen. unfold EndsLine.
  split; intros (pre & w & post & E & H & Hp); exists pre, w, post;
    (split; [assumption|]); (split; [assumption|]); destruct Hp as [Hp|Hp]; auto.
  left. tauto.
Qed.

End Regexp.

(* ================================================================== *)
(** * Package markdown (internal/markdown/detector.go) *)
(* ================================================================== *)

Module Markdown.
Import Str GoStrings Regexp.

(** The class [\s] of Go's regexp syntax: [[\t\n\f\r ]]. *)
Definition perlSpace (c : ascii) : bool :=
  match nat_of_ascii c with
  | 9 | 10 | 12 | 13 | 32 => true
  | _ => false
  end.

(** [\S] *)
Definition notSpace (c : ascii) : bool := negb (perlSpace c).

(** [.] without the flag [s]: any character but a newline. *)
Definition dot (c : ascii) : bool := negb (Ascii.eqb c newline).

(** [[\-\*]] *)
Definition bullet (c : ascii) : bool := Ascii.eqb c "-" || Ascii.eqb c "*".

(** [^#{1,6}\s+\S] *)
Definition headerRe : Regexp :=
  MustCompile TextStart
    (Seq (Repeat 1 6 (Lit "#")) (Seq (Plus (Class perlSpace)) (Class notSpace))).

(** [(?m)^[\-\*]\s+\S] *)
Definition listRe : Regexp :=
  MustCompile LineStart
    (Seq (Class bullet) (Seq (Plus (Class perlSpace)) (Class notSpace))).

(** [\[.+?\]\(.+?\)]; a lazy [+?] matches the same strings as [+]. *)
Definition linkRe : Regexp :=
  MustCompile Unanchored
    (Seq (Lit "[") (Seq (Plus (Class dot)) (Seq (Lit "]")
      (Seq (Lit "(") (Seq (Plus (Class dot)) (Lit ")")))))).

Section Detector.
Context `{Libs}.

Definition IsMarkdownContentType (contentType : string) : bool :=
  let ct := ToLower contentType in
  HasPrefix ct "text/markdown" || HasPrefix ct "text/x-markdown".

Definition IsMarkdownURL (url : string) : bool :=
  let lower := ToLower url in
  HasSuffix lower ".md" || HasSuffix lower ".markdown".

Definition looksLikeHTML (content : string) : bool :=
  let lower := ToLower content in
  HasPrefix lower "<!doctype" || HasPrefix lower "<html" ||
  HasPrefix lower "<head" || HasPrefix lower "<body".

Definition hasMarkdownPatterns (content : string) : bool :=
  if MatchString headerRe content then true
  else if MatchString listRe content then true
  else if MatchString linkRe content then true
  else false.

Definition IsMarkdownContent (content : string) : bool :=
  if String.eqb content "" then false
  else
    let trimmed := TrimSpace content in
    if looksLikeHTML trimmed then false
    else hasMarkdownPatterns trimmed.

Definition MarkdownURLVariants (url : string) : list string :=
  if Contains url "github.com" && Contains url "/blob/" then
    let raw := ReplaceFirst url "github.com" "raw.githubusercontent.com" in
    let raw := ReplaceFirst raw "/blob/" "/" in
    [raw]
  else if IsMarkdownURL url then []
  else
    let cleanURL := TrimSuffix url "/" in
    [cleanURL +:+ ".md"].

Definition Detect (url contentType content : string) : bool :=
  if IsMarkdownContentType contentType then true
  else if IsMarkdownURL url then true
  else IsMarkdownContent content.

End Detector.
End Markdown.

(** An instance of the libraries for running the program on ASCII inputs:
    the identity stands for the Unicode case mapping (never reached on an
    ASCII string), the parser returns an empty document, the converter
    returns its input, a URL parses when it has a scheme, its host being
    what lies between [://] and the next slash, a time is rendered as its
    number of nanoseconds, and no page text parses as a manifest. *)
Definition plainHost (url : string) : string + error :=
  match GoStrings.Index url "://" with
  | None => inr "missing protocol scheme"
  | Some i =>
      let rest := Str.drop (i + 3) url in
      match GoStrings.Index rest "/" with
      | None => inl rest
      | Some j => inl (Str.take j rest)
      end
  end.

Definition plainLibs : Libs := {|
  unicodeLower := fun s => s;
  html_Parse := fun _ => inl (MkNode DocumentNode "" []);
  htmltomarkdown_ConvertString := fun s => inl s;
  url_Parse := plainHost;
  time_Format := fun _ t => pretty t;
  json_MarshalIndent := fun m =>
    String.concat "," (Meta.SourceURL m :: Meta.Timestamp m :: Meta.Pages m);
  json_Unmarshal := fun _ => inr "invalid character"
|}.

Module MarkdownTests.
Import Markdown.
#[local] Existing Instance plainLibs.

Definition nl : string := String Regexp.newline "".

(** The cases of detector_test.go. *)
Example ct_markdown_charset :
  IsMarkdownContentType "text/markdown; charset=utf-8" = true.
Proof. reflexivity. Qed.

Example ct_html : IsMarkdownContentType "text/html" = false.
Proof. reflexivity. Qed.

Example url_md : IsMarkdownURL "https://example.com/README.md" = true.
Proof. reflexivity. Qed.

Example url_md_in_path : IsMarkdownURL "https://example.com/md/page" = false.
Proof. reflexivity. Qed.

Example content_h1 :
  IsMarkdownContent ("# Hello World" +:+ nl +:+ nl +:+ "Some content here.") = true.
Proof. reflexivity. Qed.

Example content_doctype :
  IsMarkdownContent "<!DOCTYPE html><html><body>Content</body></html>" = false.
Proof. reflexivity. Qed.

Example content_plain :
  IsMarkdownContent "Just some plain text without any markdown." = false.
Proof. reflexivity. Qed.

Example content_list :
  IsMarkdownContent ("- Item 1" +:+ nl +:+ "- Item 2") = true.
Proof. reflexivity. Qed.

Example content_link :
  IsMarkdownContent ("[Link text](https://example.com)" +:+ nl +:+ "More content.")
  = true.
Proof. reflexivity. Qed.

Example variants_plain :
  MarkdownURLVariants "https://example.com/docs/intro/"
  = ["https://example.com/docs/intro.md"].
Proof. reflexivity. Qed.

Example variants_blob :
  MarkdownURLVariants "https://github.com/user/repo/blob/main/README.md"
  = ["https://raw.githubusercontent.com/user/repo/main/README.md"].
Proof. reflexivity. Qed.

Example variants_non_blob :
  MarkdownURLVariants "https://github.com/user/repo"
  = ["https://github.com/user/repo.md"].
Proof. reflexivity. Qed.

Example variants_md : MarkdownURLVariants "https://example.com/README.md" = [].
Proof. reflexivity. Qed.

Example detect_html :
  Detect "https://example.com/page.html" "text/html"
         "<html><body>Content</body></html>" = false.
Proof. reflexivity. Qed.

Example trim_unicode :
  GoStrings.TrimSpace (String "194" (String "160" (" # x " +:+ nl))) = "# x".
Proof. reflexivity. Qed.

End MarkdownTests.

(* ================================================================== *)
(** * What the three expressions match *)
(* ================================================================== *)

Module RegexpFacts.
Import Str Regexp.

(** [k] copies of [c] *)
Fixpoint rep (k : nat) (c : ascii) : string :=
  match k with
  | 0 => ""
  | S k' => String c (rep k' c)
  end.

Lemma Matches_Class (p : ascii -> bool) (w : string) :
  Matches (Class p) w <-> exists c, w = String c "" /\ p c = true.
Proof.
  split.
  - intros H. inversion H; subst. eauto.
  - intros (c & -> & H). now constructor.
Qed.

Lemma Matches_Lit (c : ascii) (w : string) :
  Matches (Lit c) w <-> w = String c "".
Proof.
  unfold Lit. rewrite Matches_Class. split.
  - intros (c' & -> & E). apply Ascii.eqb_eq in E. now subst.
  - intros ->. exists c. split; [reflexivity | apply Ascii.eqb_refl].
Qed.

Lemma Matches_Seq (a b : re) (w : string) :
  Matches (Seq a b) w <->
  exists w1 w2, w = w1 +:+ w2 /\ Matches a w1 /\ Matches b w2.
Proof.
  split.
  - intros H. inversion H; subst. eauto.
  - intros (w1 & w2 & -> & H1 & H2). now constructor.
Qed.

Lemma Matches_Alt (a b : re) (w : string) :
  Matches (Alt a b) w <-> Matches a w \/ Matches b w.
Proof.
  split.
  - intros H. inversion H; subst; auto.
  - intros [H|H]; [now apply MAltL | now apply MAltR].
Qed.

Lemma Matches_Eps (w : string) : Matches Eps w <-> w = "".
Proof.
  split.
  - intros H. now inversion H.
  - intros ->. constructor.
Qed.

Lemma Matches_StarClass (p : ascii -> bool) (w : string) :
  Matches (Star (Class p)) w <-> all p w = true.
Proof.
  split.
  - intros H. remember (Star (Class p)) as r eqn:Er.
    induction H; try discriminate; [reflexivity|].
    injection Er as ->. rewrite all_app, IHMatches2 by reflexivity.
    apply Matches_Class in H as (c & -> & Hc). simpl. now rewrite Hc.
  - induction w as [|c w IH]; simpl; intros H; [constructor|].
    apply andb_true_iff in H as [Hc Hw].
    change (Matches (Star (Class p)) (String c "" +:+ w)).
    constructor; [now constructor | auto].
Qed.

Lemma Matches_PlusClass (p : ascii -> bool) (w : string) :
  Matches (Plus (Class p)) w <-> w <> "" /\ all p w = true.
Proof.
  unfold Plus. rewrite Matches_Seq. split.
  - intros (w1 & w2 & -> & H1 & H2). apply Matches_Class in H1 as (c & -> & Hc).
    apply Matches_StarClass in H2. simpl. rewrite Hc, H2. split; [discriminate|reflexivity].
  - intros [Hne H]. destruct w as [|c w]; [congruence|]. simpl in H.
    apply andb_true_iff in H as [Hc Hw]. exists (String c ""), w.
    split; [reflexivity|]. split; [now constructor | now apply Matches_StarClass].
Qed.

Lemma Matches_UpToLit (n : nat) (c : ascii) (w : string) :
  Matches (UpTo n (Lit c)) w <-> exists k, k <= n /\ w = rep k c.
Proof.
  revert w; induction n as [|n IH]; intros w; simpl.
  - rewrite Matches_Eps. split.
    + intros ->. exists 0. auto.
    + intros (k & Hk & ->). now replace k with 0 by lia.
  - rewrite Matches_Alt, Matches_Eps, Matches_Seq. split.
    + intros [->|(w1 & w2 & -> & H1 & H2)].
      * exists 0. split; [lia | reflexivity].
      * apply Matches_Lit in H1 as ->. apply IH in H2 as (k & Hk & ->).
        exists (S k). split; [lia | reflexivity].
    + intros ([|k] & Hk & ->); [left; reflexivity|right].
      exists (String c ""), (rep k c). split; [reflexivity|].
      split; [now apply Matches_Lit|]. apply IH. exists k. split; [lia|reflexivity].
Qed.

Lemma Matches_TimesLit (n : nat) (c : ascii) (r : re) (w : string) :
  Matches (Times n (Lit c) r) w <-> exists w', w = rep n c +:+ w' /\ Matches r w'.
Proof.
  revert w; induction n as [|n IH]; intros w; simpl.
  - split; [intros Hm; eauto | intros (w' & -> & Hm); exact Hm].
  - rewrite Matches_Seq. split.
    + intros (w1 & w2 & -> & H1 & H2). apply Matches_Lit in H1 as ->.
      apply IH in H2 as (w' & -> & H2). exists w'. auto.
    + intros (w' & -> & Hm). exists (String c ""), (rep n c +:+ w').
      split; [reflexivity|]. split; [now apply Matches_Lit|]. apply IH. eauto.
Qed.

Lemma rep_add (a b : nat) (c : ascii) : rep (a + b) c = rep a c +:+ rep b c.
Proof. induction a as [|a IH]; simpl; [reflexivity | now rewrite IH]. Qed.

Lemma Matches_RepeatLit (min max : nat) (c : ascii) (w : string) :
  min <= max ->
  (Matches (Repeat min max (Lit c)) w <-> exists k, min <= k <= max /\ w = rep k c).
Proof.
  intros Hle. unfold Repeat. rewrite Matches_TimesLit. split.
  - intros (w' & -> & Hm). apply Matches_UpToLit in Hm as (k & Hk & ->).
    exists (min + k). split; [lia | now rewrite rep_add].
  - intros (k & Hk & ->). exists (rep (k - min) c). split.
    + rewrite <- rep_add. f_equal. lia.
    + apply Matches_UpToLit. exists (k - min). split; [lia | reflexivity].
Qed.

End RegexpFacts.

(* ================================================================== *)
(** * The classifier, declaratively *)
(* ================================================================== *)

Module MarkdownSpec.
Import Str GoStrings Regexp RegexpFacts Markdown.

(** One or more characters of [\s]. *)
Definition SpaceRun (ws : string) : Prop := ws <> "" /\ all perlSpace ws = true.

(** [s] starts with one to six [#], then white space, then a character
    that is not white space. *)
Definition HeadingAtStart (s : string) : Prop :=
  exists k ws c rest,
    1 <= k <= 6 /\ SpaceRun ws /\ perlSpace c = false /\
    s = rep k "#" +:+ ws +:+ String c rest.

(** Some line of [s] starts with a heading marker. *)
Definition HeadingLine (s : string) : Prop :=
  exists pre t, EndsLine pre /\ s = pre +:+ t /\ HeadingAtStart t.

(** Some line of [s] starts with [-] or [*], then white space, then a
    character that is not white space. *)
Definition BulletLine (s : string) : Prop :=
  exists pre m ws c rest,
    EndsLine pre /\ (m = "-"%char \/ m = "*"%char) /\ SpaceRun ws /\
    perlSpace c = false /\
    s = pre +:+ String m (ws +:+ String c rest).

(** [s] contains [[text](target)] with both parts non-empty and on one line. *)
Definition Link (s : string) : Prop :=
  exists pre text target rest,
    text <> "" /\ all dot text = true /\ target <> "" /\ all dot target = true /\
    s = pre +:+ "[" +:+ text +:+ "](" +:+ target +:+ ")" +:+ rest.

Lemma Matches_spaces_then_text (w : string) :
  Matches (Seq (Plus (Class perlSpace)) (Class notSpace)) w <->
  exists ws c, SpaceRun ws /\ perlSpace c = false /\ w = ws +:+ String c "".
Proof.
  rewrite Matches_Seq. split.
  - intros (w1 & w2 & -> & H1 & H2). apply Matches_PlusClass in H1.
    apply Matches_Class in H2 as (c & -> & Hc). exists w1, c.
    unfold notSpace in Hc. apply negb_true_iff in Hc. auto.
  - intros (ws & c & Hws & Hc & ->). exists ws, (String c "").
    split; [reflexivity|]. split; [now apply Matches_PlusClass|].
    apply Matches_Class. exists c. unfold notSpace. now rewrite Hc.
Qed.

Lemma headerRe_spec (s : string) :
  MatchString headerRe s = true <-> HeadingAtStart s.
Proof.
  unfold MatchString, headerRe, HeadingAtStart; simpl anchor; simpl body.
  rewrite matchPrefix_spec. split.
  - intros (w & t & -> & Hm). apply Matches_Seq in Hm as (w1 & w2 & -> & H1 & H2).
    apply Matches_RepeatLit in H1 as (k & Hk & ->); [|lia].
    apply Matches_spaces_then_text in H2 as (ws & c & Hws & Hc & ->).
    exists k, ws, c, t. repeat (split; [assumption|]).
    now rewrite !app_assoc.
  - intros (k & ws & c & rest & Hk & Hws & Hc & ->).
    exists (rep k "#" +:+ ws +:+ String c ""), rest. split.
    + now rewrite !app_assoc.
    + apply Matches_Seq. exists (rep k "#"), (ws +:+ String c "").
      split; [reflexivity|]. split.
      * apply Matches_RepeatLit; [lia|]. eauto.
      * apply Matches_spaces_then_text. eauto.
Qed.

Lemma bullet_spec (m : ascii) : bullet m = true <-> m = "-"%char \/ m = "*"%char.
Proof.
  unfold bullet. rewrite orb_true_iff, !Ascii.eqb_eq. reflexivity.
Qed.

Lemma listRe_spec (s : string) :
  MatchString listRe s = true <-> BulletLine s.
Proof.
  unfold MatchString, listRe, BulletLine; simpl anchor; simpl body.
  rewrite findAtLineStart_spec. split.
  - intros (pre & w & post & -> & Hm & Hpre).
    apply Matches_Seq in Hm as (w1 & w2 & -> & H1 & H2).
    apply Matches_Class in H1 as (m & -> & Hm). apply bullet_spec in Hm.
    apply Matches_spaces_then_text in H2 as (ws & c & Hws & Hc & ->).
    exists pre, m, ws, c, post. repeat (split; [assumption|]).
    simpl. now rewrite !app_assoc.
  - intros (pre & m & ws & c & rest & Hpre & Hm & Hws & Hc & ->).
    exists pre, (String m (ws +:+ String c "")), rest. split; [|split; [|assumption]].
    + simpl. now rewrite !app_assoc.
    + apply Matches_Seq. exists (String m ""), (ws +:+ String c "").
      split; [reflexivity|]. split.
      * apply Matches_Class. exists m. split; [reflexivity | now apply bullet_spec].
      * apply Matches_spaces_then_text. eauto.
Qed.

Lemma linkRe_spec (s : string) :
  MatchString linkRe s = true <-> Link s.
Proof.
  unfold MatchString, linkRe, Link; simpl anchor; simpl body.
  rewrite find_spec. split.
  - intros (pre & w & post & -> & Hm).
    apply Matches_Seq in Hm as (w1 & w2 & -> & H1 & Hm). apply Matches_Lit in H1 as ->.
    apply Matches_Seq in Hm as (text & w3 & -> & H2 & Hm).
    apply Matches_PlusClass in H2 as [Hne Hall].
    apply Matches_Seq in Hm as (w4 & w5 & -> & H3 & Hm). apply Matches_Lit in H3 as ->.
    apply Matches_Seq in Hm as (w6 & w7 & -> & H4 & Hm). apply Matches_Lit in H4 as ->.
    apply Matches_Seq in Hm as (target & w8 & -> & H5 & H6).
    apply Matches_Lit in H6 as ->. apply Matches_PlusClass in H5 as [Hne' Hall'].
    exists pre, text, target, post. repeat (split; [assumption|]).
    simpl. now rewrite !app_assoc; simpl; rewrite !app_assoc.
  - intros (pre & text & target & rest & Hne & Hall & Hne' & Hall' & ->).
    exists pre, ("[" +:+ text +:+ "](" +:+ target +:+ ")"), rest. split.
    + simpl. now rewrite !app_assoc; simpl; rewrite !app_assoc.
    + apply Matches_Seq. exists "[", (text +:+ "](" +:+ target +:+ ")").
      split; [reflexivity|]. split; [now apply Matches_Lit|].
      apply Matches_Seq. exists text, ("](" +:+ target +:+ ")").
      split; [reflexivity|]. split; [now apply Matches_PlusClass|].
      apply Matches_Seq. exists "]", ("(" +:+ target +:+ ")").
      split; [reflexivity|]. split; [now apply Matches_Lit|].
      apply Matches_Seq. exists "(", (target +:+ ")").
      split; [reflexivity|]. split; [now apply Matches_Lit|].
      apply Matches_Seq. exists target, ")".
      split; [reflexivity|]. split; [now apply Matches_PlusClass | now apply Matches_Lit].
Qed.

Lemma hasMarkdownPatterns_spec `{Libs} (s : string) :
  hasMarkdownPatterns s = true <-> HeadingAtStart s \/ BulletLine s \/ Link s.
Proof.
  unfold hasMarkdownPatterns.
  rewrite <- headerRe_spec, <- listRe_spec, <- linkRe_spec.
  destruct (MatchString headerRe s), (MatchString listRe s),
    (MatchString linkRe s); intuition discriminate.
Qed.

Section Classifier.
Context `{Libs}.

(** The lowercased content type starts with a Markdown media type. *)
Definition MarkdownMediaType (ct : string) : Prop :=
  exists t, ToLower ct = "text/markdown" +:+ t \/
            ToLower ct = "text/x-markdown" +:+ t.

(** The lowercased URL ends in [.md] or [.markdown]. *)
Definition MarkdownSuffix (u : string) : Prop :=
  exists t, ToLower u = t +:+ ".md" \/ ToLower u = t +:+ ".markdown".

(** The lowercased text starts with a doctype or an html, head or body tag. *)
Definition HTMLLookalike (s : string) : Prop :=
  exists t, ToLower s = "<!doctype" +:+ t \/ ToLower s = "<html" +:+ t \/
            ToLower s = "<head" +:+ t \/ ToLower s = "<body" +:+ t.

Lemma IsMarkdownContentType_spec (ct : string) :
  IsMarkdownContentType ct = true <-> MarkdownMediaType ct.
Proof.
  unfold IsMarkdownContentType, MarkdownMediaType.
  rewrite orb_true_iff, !HasPrefix_spec. split.
  - intros [[t E]|[t E]]; exists t; auto.
  - intros [t [E|E]]; [left|right]; eauto.
Qed.

Lemma IsMarkdownURL_spec (u : string) :
  IsMarkdownURL u = true <-> MarkdownSuffix u.
Proof.
  unfold IsMarkdownURL, MarkdownSuffix.
  rewrite orb_true_iff, !HasSuffix_spec. split.
  - intros [[t E]|[t E]]; exists t; auto.
  - intros [t [E|E]]; [left|right]; eauto.
Qed.

Lemma looksLikeHTML_spec (s : string) :
  looksLikeHTML s = true <-> HTMLLookalike s.
Proof.
  unfold looksLikeHTML, HTMLLookalike.
  rewrite !orb_true_iff, !HasPrefix_spec. split.
  - intros [[[[t E]|[t E]]|[t E]]|[t E]]; exists t; auto.
  - intros [t [E|[E|[E|E]]]]; eauto.
Qed.

(** The structural step (c) on a body: a pattern in the trimmed body, which
    must not look like an HTML document. *)
Definition StructurallyMarkdown (body : string) : Prop :=
  let trimmed := TrimSpace body in
  (HeadingAtStart trimmed \/ BulletLine trimmed \/ Link trimmed) /\
  ~ HTMLLookalike trimmed.

(** The classification of the design document, step (c) reading "a heading
    line" as a heading on any line of the body. *)
Definition StatedMarkdown (url contentType body : string) : Prop :=
  let trimmed := TrimSpace body in
  MarkdownMediaType contentType \/
  MarkdownSuffix url \/
  ((HeadingLine trimmed \/ BulletLine trimmed \/ Link trimmed) /\
   ~ HTMLLookalike trimmed).

(** The classification the code computes: the heading has to open the
    trimmed body. *)
Definition ClassifiedMarkdown (url contentType body : string) : Prop :=
  MarkdownMediaType contentType \/
  MarkdownSuffix url \/
  StructurallyMarkdown body.

Lemma IsMarkdownContent_spec (body : string) :
  IsMarkdownContent body = true <-> StructurallyMarkdown body.
Proof.
  unfold IsMarkdownContent, StructurallyMarkdown.
  destruct (String.eqb_spec body "") as [->|Hne].
  - split; [discriminate|]. intros [Hp _].
    apply hasMarkdownPatterns_spec in Hp. discriminate.
  - cbv zeta. rewrite <- hasMarkdownPatterns_spec, <- looksLikeHTML_spec.
    destruct (looksLikeHTML (TrimSpace body)); split.
    + discriminate.
    + intros [_ Hn]. now contradiction Hn.
    + intros E. split; [exact E | discriminate].
    + intros [E _]. exact E.
Qed.

End Classifier.

(** C1, as stated, fails: a body whose heading is not on its first line is
    Markdown by the stated rule and is not classified as Markdown. *)
Lemma Detect_heading_on_later_line :
  let url := "https://example.com/page" in
  let contentType := "text/plain" in
  let body := "intro" +:+ String newline "# Title" in
  ~ (@Detect plainLibs url contentType body = true <->
     @StatedMarkdown plainLibs url contentType body).
Proof.
  intros url contentType body [_ Hclaim].
  assert (@Detect plainLibs url contentType body = false) as Hcode by reflexivity.
  rewrite Hclaim in Hcode; [discriminate|].
  right. right. change (TrimSpace body) with body. split.
  - left. exists ("intro" +:+ String newline ""), "# Title". split; [|split].
    + right. exists "intro". reflexivity.
    + reflexivity.
    + exists 1, " ", "T"%char, "itle".
      repeat split; [lia | lia | discriminate].
  - intros [t [E|[E|[E|E]]]]; discriminate E.
Qed.

(** C1 (amended): [Detect] is a total function that answers [true] exactly
    when the content type has a Markdown media-type prefix, or the
    lowercased URL has a Markdown suffix, or the trimmed body opens with a
    heading marker or contains a bullet-list line or a link and does not
    look like an HTML document. The first two steps win whatever the body
    is, so the HTML check overrides the structural step only. *)
Theorem Detect_classifies `{Libs} (url contentType body : string) :
  (Detect url contentType body = true <-> ClassifiedMarkdown url contentType body)
  /\ (MarkdownMediaType contentType -> forall body', Detect url contentType body' = true)
  /\ (MarkdownSuffix url -> forall ct' body', Detect url ct' body' = true)
  /\ (Detect url contentType body = false <->
      ~ MarkdownMediaType contentType /\ ~ MarkdownSuffix url /\
      ~ StructurallyMarkdown body).
Proof.
  unfold ClassifiedMarkdown, Detect.
  rewrite <- IsMarkdownContentType_spec, <- IsMarkdownURL_spec,
    <- IsMarkdownContent_spec.
  split; [|split; [|split]].
  - destruct (IsMarkdownContentType contentType); [tauto|].
    destruct (IsMarkdownURL url); [tauto|].
    destruct (IsMarkdownContent body); intuition discriminate.
  - intros E body'. now rewrite E.
  - intros E ct' body'. unfold Detect. rewrite E.
    now destruct (IsMarkdownContentType ct').
  - destruct (IsMarkdownContentType contentType); [intuition discriminate|].
    destruct (IsMarkdownURL url); [intuition discriminate|].
    destruct (IsMarkdownContent body); intuition discriminate.
Qed.

End MarkdownSpec.

(* ================================================================== *)
(** * The candidate Markdown URLs *)
(* ================================================================== *)

Module VariantsSpec.
Import Str GoStrings Markdown MarkdownSpec.

Definition Occurs (sub s : string) : Prop := exists a b, s = a +:+ sub +:+ b.

(** A GitHub "blob" URL, as the code recognises it. *)
Definition GitHubBlob (url : string) : Prop :=
  Occurs "github.com" url /\ Occurs "/blob/" url.

(** [H : word = m +:+ m'] for a fixed word: enumerate the cuts. *)
Ltac split_word H m :=
  let rec go :=
    destruct m as [|? m]; simpl in H;
    [ subst | first [ discriminate H | injection H as ? H; subst; go ] ]
  in go.

(** No instance of [/blob/] overlaps an instance of [github.com]: replacing
    the latter keeps the former. *)
Lemma blob_survives (pre post new : string) :
  Occurs "/blob/" (pre +:+ "github.com" +:+ post) ->
  Occurs "/blob/" (pre +:+ new +:+ post).
Proof.
  intros (a & b & E).
  apply app_eq_app in E as [(m & -> & E)|(m & -> & E)].
  - (* the instance starts at or after the start of [github.com] *)
    apply app_eq_app in E as [(m' & -> & ->)|(m' & E1 & E2)].
    + exists (pre +:+ new +:+ m'), b. now rewrite !app_assoc.
    + (* inside it: a suffix of [github.com] would start with [/] *)
      split_word E1 m; simpl in E2; try discriminate E2.
      exists (pre +:+ new), b. rewrite <- E2, !app_assoc. reflexivity.
  - (* the instance starts before [github.com] *)
    apply app_eq_app in E as [(m' & -> & ->)|(m' & E1 & E2)].
    + exists a, (m' +:+ new +:+ post). now rewrite !app_assoc.
    + (* and runs into it: a suffix of [/blob/] would start with [g] *)
      split_word E1 m; simpl in E2; try discriminate E2.
      exists a, (new +:+ post). now rewrite !app_assoc.
Qed.

Lemma Contains_Occurs (s sub : string) : Contains s sub = true <-> Occurs sub s.
Proof. apply Contains_spec. Qed.

Lemma GitHubBlob_spec (url : string) :
  Contains url "github.com" && Contains url "/blob/" = true <-> GitHubBlob url.
Proof.
  unfold GitHubBlob. now rewrite andb_true_iff, !Contains_Occurs.
Qed.

(** [url] without one trailing slash. *)
Definition WithoutTrailingSlash (url clean : string) : Prop :=
  url = clean +:+ "/" \/ (HasSuffix url "/" = false /\ clean = url).

(** The candidate the stated rule names for a blob URL, written after its
    words: the host, which lies between [://] and the next slash, becomes
    [raw.githubusercontent.com], and the first [/blob/] of what follows the
    host becomes a slash. *)
Definition StatedRawURL (url : string) : option string :=
  match Index url "://" with
  | None => None
  | Some i =>
      let rest := drop (i + 3) url in
      let path := match Index rest "/" with
                  | Some j => drop j rest
                  | None => ""
                  end in
      Some (take (i + 3) url +:+ "raw.githubusercontent.com"
              +:+ ReplaceFirst path "/blob/" "/")
  end.

(** C3, as stated, fails: a URL that has [github.com] in its query and
    [/blob/] in its path counts as a blob URL, and its candidate keeps the
    host of the URL; what is replaced is the first [github.com] of the
    text. *)
Lemma MarkdownURLVariants_host_kept :
  let url := "https://example.com/blob/a?ref=github.com" in
  GitHubBlob url /\
  StatedRawURL url = Some "https://raw.githubusercontent.com/a?ref=github.com" /\
  @MarkdownURLVariants plainLibs url
  = ["https://example.com/a?ref=raw.githubusercontent.com"] /\
  plainHost "https://example.com/a?ref=raw.githubusercontent.com" = inl "example.com" /\
  ~ (exists v, StatedRawURL url = Some v /\ @MarkdownURLVariants plainLibs url = [v]).
Proof.
  cbv zeta. split; [apply GitHubBlob_spec; reflexivity|].
  split; [reflexivity|]. split; [reflexivity|]. split; [reflexivity|].
  intros (v & Hv & Hcode).
  assert (v = "https://raw.githubusercontent.com/a?ref=github.com") as ->
    by (injection Hv as <-; reflexivity).
  discriminate Hcode.
Qed.

(** C3: on a GitHub blob URL the only candidate is the URL with the first
    [github.com] replaced by [raw.githubusercontent.com] and then the first
    [/blob/] replaced by [/]; on any other URL that already has a Markdown
    suffix there is no candidate; on every other URL the only candidate is
    the URL without its trailing slash, followed by [.md]. *)
Theorem MarkdownURLVariants_cases `{Libs} (url : string) :
  (GitHubBlob url /\
   exists pre post pre' post',
     FirstAt url "github.com" pre post /\
     FirstAt (pre +:+ "raw.githubusercontent.com" +:+ post) "/blob/" pre' post' /\
     MarkdownURLVariants url = [pre' +:+ "/" +:+ post'])
  \/ (~ GitHubBlob url /\ MarkdownSuffix url /\ MarkdownURLVariants url = [])
  \/ (~ GitHubBlob url /\ ~ MarkdownSuffix url /\
      exists clean, WithoutTrailingSlash url clean /\
                    MarkdownURLVariants url = [clean +:+ ".md"]).
Proof.
  unfold MarkdownURLVariants.
  destruct (Contains url "github.com" && Contains url "/blob/") eqn:G.
  - left. apply GitHubBlob_spec in G. split; [exact G|].
    destruct G as [Hg Hb]. apply Contains_Occurs in Hg.
    destruct (ReplaceFirst_spec url "github.com" "raw.githubusercontent.com" Hg)
      as (pre & post & Hfirst & ->).
    assert (Occurs "/blob/" (pre +:+ "raw.githubusercontent.com" +:+ post)) as Hb'.
    { apply blob_survives. destruct Hfirst as [<- _]. exact Hb. }
    apply Contains_Occurs in Hb'.
    destruct (ReplaceFirst_spec _ "/blob/" "/" Hb') as (pre' & post' & Hfirst' & ->).
    exists pre, post, pre', post'. auto.
  - right. assert (~ GitHubBlob url) as NG.
    { intros HG. apply GitHubBlob_spec in HG. congruence. }
    destruct (IsMarkdownURL url) eqn:M.
    + left. apply IsMarkdownURL_spec in M. auto.
    + right. split; [exact NG|]. split.
      * intros HM. apply IsMarkdownURL_spec in HM. congruence.
      * exists (TrimSuffix url "/"). split; [|reflexivity].
        destruct (TrimSuffix_spec url "/") as [(t & -> & ->)|[E ->]];
          [left|right]; auto.
Qed.

End VariantsSpec.

(* ================================================================== *)
(** * crypto/sha256 and encoding/hex *)
(* ================================================================== *)

(** SHA-256 (FIPS 180-4) on byte strings; 32-bit words are integers with
    the wrap-around written out. *)
Module SHA256.
Local Open Scope Z_scope.

Definition word (x : Z) : Z := x mod 2 ^ 32.
Definition add (a b : Z) : Z := word (a + b).
Definition rotr (n x : Z) : Z :=
  Z.lor (Z.shiftr x n) (word (Z.shiftl x (32 - n))).
Definition shr (n x : Z) : Z := Z.shiftr x n.
Definition not32 (x : Z) : Z := Z.lxor x 0xffffffff.

Definition Ch (x y z : Z) : Z := Z.lxor (Z.land x y) (Z.land (not32 x) z).
Definition Maj (x y z : Z) : Z :=
  Z.lxor (Z.lxor (Z.land x y) (Z.land x z)) (Z.land y z).
Definition Sigma0 (x : Z) : Z := Z.lxor (Z.lxor (rotr 2 x) (rotr 13 x)) (rotr 22 x).
Definition Sigma1 (x : Z) : Z := Z.lxor (Z.lxor (rotr 6 x) (rotr 11 x)) (rotr 25 x).
Definition sigma0 (x : Z) : Z := Z.lxor (Z.lxor (rotr 7 x) (rotr 18 x)) (shr 3 x).
Definition sigma1 (x : Z) : Z := Z.lxor (Z.lxor (rotr 17 x) (rotr 19 x)) (shr 10 x).

(** The round constants and the initial state are fractional parts of
    roots of the first primes: 32 bits of the cube root of each of the
    first 64 primes, and of the square root of each of the first 8. *)
Definition primes : list Z :=
  [2; 3; 5; 7; 11; 13; 17; 19; 23; 29; 31; 37; 41; 43; 47; 53; 59; 61; 67; 71;
   73; 79; 83; 89; 97; 101; 103; 107; 109; 113; 127; 131; 137; 139; 149; 151;
   157; 163; 167; 173; 179; 181; 191; 193; 197; 199; 211; 223; 227; 229; 233;
   239; 241; 251; 257; 263; 269; 271; 277; 281; 283; 293; 307; 311].

(** The integer cube root of a number below 2^108, bit by bit. *)
Definition cbrt (n : Z) : Z :=
  fold_left (fun r i => let r' := r + 2 ^ Z.of_nat i in
                        if r' * r' * r' <=? n then r' else r)
            (List.rev (seq 0 36)) 0.

Definition K : list Z :=
  Eval vm_compute in List.map (fun p => word (cbrt (p * 2 ^ 96))) primes.

Definition rootWord (i : nat) : Z := word (Z.sqrt (nth i primes 0 * 2 ^ 64)).

(** The eight words of the hash state. *)
Record state := State { ha : Z; hb : Z; hc : Z; hd : Z; he : Z; hf : Z; hg : Z; hh : Z }.

Definition init : state :=
  Eval vm_compute in
    State (rootWord 0) (rootWord 1) (rootWord 2) (rootWord 3)
          (rootWord 4) (rootWord 5) (rootWord 6) (rootWord 7).

(** Message bytes, then [0x80], zeros up to 56 modulo 64, and the length in
    bits as eight big-endian bytes. *)
Definition bigEndian (n : nat) (x : Z) : list Z :=
  List.map (fun i => Z.shiftr x (8 * Z.of_nat i) mod 256) (List.rev (seq 0 n)).

Definition pad (msg : list Z) : list Z :=
  let l := Z.of_nat (length msg) in
  let zeros := Z.to_nat ((55 - l) mod 64) in
  msg ++ [0x80] ++ repeat 0 zeros ++ bigEndian 8 (8 * l).

Fixpoint words (bs : list Z) : list Z :=
  match bs with
  | b3 :: b2 :: b1 :: b0 :: rest =>
      (((b3 * 256 + b2) * 256 + b1) * 256 + b0) :: words rest
  | _ => []
  end.

(** The message schedule: [n] more words after those of [w]. *)
Fixpoint schedule (n : nat) (w : list Z) : list Z :=
  match n with
  | O => w
  | S n' =>
      let t := length w in
      let at_ i := nth (t - i) w 0 in
      schedule n' (w ++ [add (add (sigma1 (at_ 2%nat)) (at_ 7%nat))
                             (add (sigma0 (at_ 15%nat)) (at_ 16%nat))])
  end.

Definition round (s : state) (kw : Z * Z) : state :=
  let '(k, w) := kw in
  let t1 := add (add (add (hh s) (Sigma1 (he s))) (add (Ch (he s) (hf s) (hg s)) k)) w in
  let t2 := add (Sigma0 (ha s)) (Maj (ha s) (hb s) (hc s)) in
  State (add t1 t2) (ha s) (hb s) (hc s) (add (hd s) t1) (he s) (hf s) (hg s).

Definition block (s : state) (w16 : list Z) : state :=
  let r := fold_left round (combine K (schedule 48 w16)) s in
  State (add (ha s) (ha r)) (add (hb s) (hb r)) (add (hc s) (hc r))
        (add (hd s) (hd r)) (add (he s) (he r)) (add (hf s) (hf r))
        (add (hg s) (hg r)) (add (hh s) (hh r)).

(** The state after [n] blocks of sixteen words. *)
Fixpoint blocks (n : nat) (s : state) (ws : list Z) : state :=
  match n with
  | O => s
  | S n' => blocks n' (block s (firstn 16 ws)) (skipn 16 ws)
  end.

Definition digest (s : state) : list Z :=
  bigEndian 4 (ha s) ++ bigEndian 4 (hb s) ++ bigEndian 4 (hc s) ++
  bigEndian 4 (hd s) ++ bigEndian 4 (he s) ++ bigEndian 4 (hf s) ++
  bigEndian 4 (hg s) ++ bigEndian 4 (hh s).

Definition bytesOf (s : string) : list Z :=
  List.map (fun c => Z.of_N (N_of_ascii c)) (String.list_ascii_of_string s).

(** [sha256.Sum256([]byte(s))] *)
Definition Sum256 (s : string) : list Z :=
  let ws := words (pad (bytesOf s)) in
  digest (blocks (length ws / 16) init ws).

Lemma Sum256_length (s : string) : length (Sum256 s) = 32%nat.
Proof. reflexivity. Qed.

End SHA256.

Module Hex.
Local Open Scope Z_scope.

Definition digit (x : Z) : ascii :=
  match x with
  | 0 => "0" | 1 => "1" | 2 => "2" | 3 => "3" | 4 => "4" | 5 => "5" | 6 => "6"
  | 7 => "7" | 8 => "8" | 9 => "9" | 10 => "a" | 11 => "b" | 12 => "c"
  | 13 => "d" | 14 => "e" | _ => "f"
  end%char.

(** [hex.EncodeToString] *)
Fixpoint EncodeToString (bs : list Z) : string :=
  match bs with
  | [] => ""
  | b :: rest => String (digit (b / 16)) (String (digit (b mod 16)) (EncodeToString rest))
  end.

Definition isHexDigit (c : ascii) : bool :=
  let n := nat_of_ascii c in
  ((48 <=? n) && (n <=? 57) || (97 <=? n) && (n <=? 102))%nat.

Lemma digit_hex (x : Z) : isHexDigit (digit x) = true.
Proof.
  unfold digit. destruct x as [|p|p]; try reflexivity.
  do 4 (destruct p as [p|p|]; try reflexivity).
Qed.

Lemma EncodeToString_length (bs : list Z) :
  String.length (EncodeToString bs) = (2 * length bs)%nat.
Proof. induction bs as [|b bs IH]; simpl; [reflexivity | rewrite IH; lia]. Qed.

Lemma EncodeToString_hex (bs : list Z) :
  Str.all isHexDigit (EncodeToString bs) = true.
Proof.
  induction bs as [|b bs IH]; simpl; [reflexivity|].
  now rewrite !digit_hex, IH.
Qed.

End Hex.

Module SHA256Tests.
Import SHA256 Hex.

(** FIPS 180-4 test vectors. *)
Example empty :
  EncodeToString (Sum256 "")
  = "e3b0c44298fc1c149afbf4c8996fb92427ae41e4649b934ca495991b7852b855".
Proof. vm_compute. reflexivity. Qed.

Example abc :
  EncodeToString (Sum256 "abc")
  = "ba7816bf8f01cfea414140de5dae2223b00361a396177a9cb410ff61f20015ad".
Proof. vm_compute. reflexivity. Qed.

Example two_blocks :
  EncodeToString
    (Sum256 "abcdbcdecdefdefgefghfghighijhijkijkljklmklmnlmnomnopnopq")
  = "248d6a61d20638b8e5c026930c3e6039a33ce45964ff2167f6ecedd419db06c1".
Proof. vm_compute. reflexivity. Qed.

End SHA256Tests.

(* ================================================================== *)
(** * Package models (pkg/models/document.go) *)
(* ================================================================== *)

Module Models.

(** A [time.Time], in nanoseconds since the epoch. *)
Definition Time := Z.

(** A [float32], by its IEEE 754 bit pattern. *)
Definition float32 := N.

Record Document := {
  ID : string;
  URL : string;
  Title : string;
  Content : string;
  ContentType : string;
  ScrapedAt : Time;
  Tags : list string;
  Summary : string;
  Embedding : list float32
}.

(** The first 16 characters of the hexadecimal SHA-256 hash of the URL. *)
Definition GenerateDocumentID (url : string) : string :=
  Str.take 16 (Hex.EncodeToString (SHA256.Sum256 url)).

Lemma GenerateDocumentID_length (url : string) :
  String.length (GenerateDocumentID url) = 16.
Proof.
  unfold GenerateDocumentID. apply Str.len_take.
  rewrite Hex.EncodeToString_length, SHA256.Sum256_length. lia.
Qed.

Lemma take_all (p : ascii -> bool) (n : nat) (s : string) :
  Str.all p s = true -> Str.all p (Str.take n s) = true.
Proof.
  revert s; induction n as [|n IH]; intros [|c s]; simpl; auto.
  intros E. apply andb_true_iff in E as [-> E]. simpl. auto.
Qed.

Lemma GenerateDocumentID_hex (url : string) :
  Str.all Hex.isHexDigit (GenerateDocumentID url) = true.
Proof. apply take_all, Hex.EncodeToString_hex. Qed.

(** The cases of document_test.go, with the values [sha256sum] gives. *)
Example id_docs : GenerateDocumentID "https://example.com/docs" = "de106e607d0e7111".
Proof. vm_compute. reflexivity. Qed.

Example id_distinct :
  GenerateDocumentID "https://example.com/a" <> GenerateDocumentID "https://example.com/b".
Proof. vm_compute. discriminate. Qed.

End Models.

(* ================================================================== *)
(** * Package path *)
(* ================================================================== *)

Module GoPath.
Import Str.

Definition slash : ascii := "/"%char.

(** The elements of a cleaned path, innermost first: empty elements and
    [.] are dropped, [..] removes the element before it, is dropped at the
    root and is kept at the head of a relative path. *)
Fixpoint cleanElems (rooted : bool) (stack elems : list string) : list string :=
  match elems with
  | [] => stack
  | e :: es =>
      if String.eqb e "" || String.eqb e "." then cleanElems rooted stack es
      else if String.eqb e ".." then
        match stack with
        | top :: below =>
            if String.eqb top ".." then cleanElems rooted (".." :: stack) es
            else cleanElems rooted below es
        | [] => cleanElems rooted (if rooted then [] else [".."]) es
        end
      else cleanElems rooted (e :: stack) es
  end.

Definition Clean (path : string) : string :=
  if String.eqb path "" then "."
  else
    let rooted := GoStrings.HasPrefix path "/" in
    let elems := List.rev (cleanElems rooted [] (GoStrings.Split path slash)) in
    let out := (if rooted then "/" else "") +:+ String.concat "/" elems in
    if String.eqb out "" then "." else out.

(** The buffer [Join] builds before cleaning it. *)
Fixpoint joinBuf (buf : string) (elems : list string) : string :=
  match elems with
  | [] => buf
  | e :: es =>
      if (0 <? len buf) || negb (String.eqb e "")
      then joinBuf ((if 0 <? len buf then buf +:+ "/" else buf) +:+ e) es
      else joinBuf buf es
  end.

Definition Join (elems : list string) : string :=
  if forallb (fun e => String.eqb e "") elems then ""
  else Clean (joinBuf "" elems).

Fixpoint dropSlashes (s : string) : string :=
  match s with
  | String c s' => if Ascii.eqb c slash then dropSlashes s' else s
  | "" => ""
  end.

Fixpoint upToSlash (s : string) : string :=
  match s with
  | String c s' => if Ascii.eqb c slash then "" else String c (upToSlash s')
  | "" => ""
  end.

Definition Base (path : string) : string :=
  if String.eqb path "" then "."
  else
    let stripped := dropSlashes (rev path) in
    if String.eqb stripped "" then "/"
    else rev (upToSlash stripped).

Example join_pages :
  Join ["scrapes/example.com/2024-12-04T17-30-00-test123"; "pages"; "abc123.md"]
  = "scrapes/example.com/2024-12-04T17-30-00-test123/pages/abc123.md".
Proof. reflexivity. Qed.

Example join_empty_host : Join ["scrapes//t-1"; "metadata.json"] = "scrapes/t-1/metadata.json".
Proof. reflexivity. Qed.

Example clean_dots : Clean "/a/./b/../../c/" = "/c".
Proof. reflexivity. Qed.

Example clean_up : Clean "a/../../b" = "../b".
Proof. reflexivity. Qed.

Example base_file : Base "scrapes/h/t/pages/abc123.md" = "abc123.md".
Proof. reflexivity. Qed.

End GoPath.

(* ================================================================== *)
(** * Package processor (internal/processor/processor.go) *)
(* ================================================================== *)

Module Processor.
Section Processor.
Context `{Libs}.

Definition Convert (htmlContent : string) : string + error :=
  if String.eqb htmlContent "" then inl ""
  else
    match htmltomarkdown_ConvertString htmlContent with
    | inr err => inr err
    | inl markdown => inl (GoStrings.TrimSpace markdown)
    end.

Definition nodeData (n : Node) : string :=
  match n with MkNode _ data _ => data end.

(** The walk of [findTitle]: it does not descend into a [title] element,
    and it goes on to the siblings after one, so a later [title] with a
    child replaces the value found so far. *)
Fixpoint findTitle (n : Node) (title : string) : string :=
  match n with
  | MkNode type data children =>
      match type with
      | ElementNode =>
          if String.eqb data "title" then
            match children with
            | first :: _ => nodeData first
            | [] => title
            end
          else
            (fix siblings (cs : list Node) (t : string) : string :=
               match cs with
               | [] => t
               | c :: cs' => siblings cs' (findTitle c t)
               end) children title
      | _ =>
          (fix siblings (cs : list Node) (t : string) : string :=
             match cs with
             | [] => t
             | c :: cs' => siblings cs' (findTitle c t)
             end) children title
      end
  end.

Definition ExtractTitle (htmlContent : string) : string :=
  match html_Parse htmlContent with
  | inr _ => ""
  | inl doc => GoStrings.TrimSpace (findTitle doc "")
  end.

End Processor.
End Processor.

(* ================================================================== *)
(** * The services around the process *)
(* ================================================================== *)

(** The object store, the search index, the model runner, the web and the
    crawling library are outside the repository. The program reaches them
    by calls; a call happens at a tick of a logical clock, it is recorded in
    a trace, and whether it fails and what it answers is the environment's
    choice, made per service and per tick. The store and the index keep what was written
    to them: a successful write is visible to later reads. *)

Module Sys.
Export Models.

(** What the store holds under a name: bytes, or a manifest. A manifest
    written by [PutMetadata] is read back by [GetMetadata] as written:
    JSON encoding followed by decoding is the identity on manifests. *)
Inductive Object :=
| Bytes (data : string)
| Manifest (meta : ScrapeMetadata).

(** The body of a search request. *)
Inductive SearchBody :=
| MultiMatch (query : string) (fields : list string) (size : Z)
| RRF (query : string) (fields : list string)
      (knnField : string) (queryVector : list float32) (k numCandidates : Z)
      (size : Z).

Record HTTPResponse := {
  StatusCode : Z;
  Body : string;
  HeaderContentType : string
}.

(** The two prompts of [EnrichDocument], by what is substituted in their
    fixed text. *)
Inductive Prompt :=
| TagsPrompt (title content : string)
| SummaryPrompt (title content : string).

(** The callbacks the crawling library makes into the handlers that
    [Scrape] registers. *)
Inductive Callback :=
| OnRequest (url : string)
| OnResponse (url : string) (response : HTTPResponse).

Inductive Call :=
| PutObject (name : string) (object : Object)
| GetObject (name : string)
| ListObjects (prefix : string)
| IndicesExists
| IndicesCreate
| Index (id : string) (doc : Document)
| IndicesRefresh
| Search (body : SearchBody)
| Get (id : string)
| HTTPGet (url : string)
| ChatCompletions (prompt : Prompt)
| Embeddings (text : string).

Record Event := {
  at_tick : nat;
  call : Call;
  failure : option error
}.

Inductive Level := Debug | Info | Warn | Error.

Record World := {
  now : nat;
  bucket : gmap string Object;
  indexExists : bool;
  index : gmap string Document;
  trace : list Event;
  logs : list (Level * string)
}.

Record Env := {
  (** the context is done from this tick on *)
  deadline : option nat;
  (** [time.Now()] *)
  wallClock : nat -> Time;
  (** the failure of a call made at a tick, if it fails, per service: the
      object store, the search index, the chat model, the embedding model
      and the web *)
  storageFault : nat -> option error;
  indexFault : nat -> option error;
  chatFault : nat -> option error;
  embedFault : nat -> option error;
  httpFault : nat -> option error;
  (** the callbacks made for a visit started at a tick, and its error *)
  colly : string -> nat -> list Callback * option error;
  (** the answers of calls that do not fail *)
  httpResponse : nat -> string -> HTTPResponse;
  completion : nat -> Prompt -> string;
  embedding : nat -> string -> list float32;
  hits : nat -> SearchBody -> gmap string Document -> list Document
}.

(** ** Computations in the world *)

Definition M (A : Type) : Type := World -> A * World.

Definition ret {A : Type} (a : A) : M A := fun w => (a, w).

Definition bind {A B : Type} (m : M A) (k : A -> M B) : M B :=
  fun w => let (a, w') := m w in k a w'.

Declare Scope world_scope.
Delimit Scope world_scope with world.
Bind Scope world_scope with M.

Notation "x <- m ;; k" := (bind m (fun x => k))
  (at level 100, m at next level, right associativity) : world_scope.
Notation "m ;; k" := (bind m (fun _ => k))
  (at level 100, right associativity) : world_scope.

Local Open Scope world_scope.

Definition slog (level : Level) (msg : string) : M unit := fun w =>
  (tt, {| now := now w; bucket := bucket w; indexExists := indexExists w;
          index := index w; trace := trace w;
          logs := logs w ++ [(level, msg)] |}).

Definition setBucket (b : gmap string Object) : M unit := fun w =>
  (tt, {| now := now w; bucket := b; indexExists := indexExists w;
          index := index w; trace := trace w; logs := logs w |}).

Definition setIndex (exists_ : bool) (i : gmap string Document) : M unit := fun w =>
  (tt, {| now := now w; bucket := bucket w; indexExists := exists_;
          index := i; trace := trace w; logs := logs w |}).

Definition getWorld : M World := fun w => (w, w).

Section Calls.
Context (env : Env).

(** [ctx.Err()] *)
Definition ctxErrAt (t : nat) : option error :=
  match deadline env with
  | Some d => if d <=? t then Some "context canceled" else None
  | None => None
  end.

Definition ctxErr : M (option error) := fun w => (ctxErrAt (now w), w).

(** [time.Now()] *)
Definition timeNow : M Time := fun w => (wallClock env (now w), w).

(** Time passes. *)
Definition tick : M unit := fun w =>
  (tt, {| now := S (now w); bucket := bucket w; indexExists := indexExists w;
          index := index w; trace := trace w; logs := logs w |}).

(** The service a call goes to. *)
Definition faultOf (c : Call) : nat -> option error :=
  match c with
  | PutObject _ _ | GetObject _ | ListObjects _ => storageFault env
  | IndicesExists | IndicesCreate | Index _ _ | IndicesRefresh | Search _
  | Get _ =>
      indexFault env
  | HTTPGet _ => httpFault env
  | ChatCompletions _ => chatFault env
  | Embeddings _ => embedFault env
  end.

(** A call out of the process: the tick it is made at and its failure. *)
Definition perform (c : Call) : M (nat * option error) := fun w =>
  let t := now w in
  ((t, faultOf c t),
   {| now := S t; bucket := bucket w; indexExists := indexExists w;
      index := index w;
      trace := trace w ++ [{| at_tick := t; call := c; failure := faultOf c t |}];
      logs := logs w |}).

End Calls.
End Sys.

(* ================================================================== *)
(** * Package storage (internal/storage) *)
(* ================================================================== *)

Module Storage.
Import Sys GoStrings.
Local Open Scope world_scope.

Section Client.
Context `{Libs} (env : Env).

Definition PutMarkdown (prefix filename content : string) : M (option error) :=
  let objectName := GoPath.Join [prefix; "pages"; filename] in
  r <- perform env (PutObject objectName (Bytes content)) ;;
  match r.2 with
  | Some err => ret (Some ("failed to put markdown: " +:+ err))
  | None =>
      w <- getWorld ;;
      setBucket (<[objectName := Bytes content]> (bucket w)) ;;
      ret None
  end.

Definition PutMetadata (prefix : string) (meta : ScrapeMetadata) : M (option error) :=
  let objectName := GoPath.Join [prefix; "metadata.json"] in
  r <- perform env (PutObject objectName (Manifest meta)) ;;
  match r.2 with
  | Some err => ret (Some ("failed to put metadata: " +:+ err))
  | None =>
      w <- getWorld ;;
      setBucket (<[objectName := Manifest meta]> (bucket w)) ;;
      ret None
  end.

(** The store lists names in byte order. *)
Definition objectNames (b : gmap string Object) : list string :=
  merge_sort String.le (List.map fst (map_to_list b)).

Definition ListMarkdownFiles (prefix : string) : M (list string + error) :=
  let pagesPrefix := GoPath.Join [prefix; "pages"] +:+ "/" in
  r <- perform env (ListObjects pagesPrefix) ;;
  match r.2 with
  | Some err => ret (inr ("failed to list objects: " +:+ err))
  | None =>
      w <- getWorld ;;
      let keys := List.filter (fun key => HasPrefix key pagesPrefix)
                              (objectNames (bucket w)) in
      ret (inl (List.map GoPath.Base
                  (List.filter (fun key => HasSuffix key ".md") keys)))
  end.

Definition GetMarkdown (prefix filename : string) : M (string + error) :=
  let objectName := GoPath.Join [prefix; "pages"; filename] in
  r <- perform env (GetObject objectName) ;;
  match r.2 with
  | Some err => ret (inr ("failed to get markdown: " +:+ err))
  | None =>
      w <- getWorld ;;
      match bucket w !! objectName with
      | None => ret (inr "failed to read markdown: The specified key does not exist.")
      | Some (Bytes data) => ret (inl data)
      | Some (Manifest meta) => ret (inl (json_MarshalIndent meta))
      end
  end.

Definition GetMetadata (prefix : string) : M (ScrapeMetadata + error) :=
  let objectName := GoPath.Join [prefix; "metadata.json"] in
  r <- perform env (GetObject objectName) ;;
  match r.2 with
  | Some err => ret (inr ("failed to get metadata: " +:+ err))
  | None =>
      w <- getWorld ;;
      match bucket w !! objectName with
      | None => ret (inr "failed to read metadata: The specified key does not exist.")
      | Some (Manifest meta) => ret (inl meta)
      | Some (Bytes data) =>
          match json_Unmarshal data with
          | inl meta => ret (inl meta)
          | inr err => ret (inr ("failed to unmarshal metadata: " +:+ err))
          end
      end
  end.

End Client.
End Storage.

(* ================================================================== *)
(** * Package elasticsearch (internal/elasticsearch) *)
(* ================================================================== *)

Module Elasticsearch.
Import Sys.
Local Open Scope world_scope.

(** A Go [int]: 64 bits, two's complement. *)
Definition int (z : Z) : Z := ((z + 2 ^ 63) mod 2 ^ 64 - 2 ^ 63)%Z.

Section Client.
Context (env : Env).

Definition CreateIndex : M (option error) :=
  r <- perform env IndicesExists ;;
  match r.2 with
  | Some err => ret (Some ("failed to check index: " +:+ err))
  | None =>
      w <- getWorld ;;
      if indexExists w then ret None
      else
        r' <- perform env IndicesCreate ;;
        match r'.2 with
        | Some err => ret (Some ("failed to create index: " +:+ err))
        | None => setIndex true (index w) ;; ret None
        end
  end.

(** The document is written under its id: an entry with that id is
    replaced. The index keeps documents as values: the JSON text the client
    sends and reads is not part of the model, so nothing here says how a
    document survives its encoding. *)
Definition IndexDocument (doc : Document) : M (option error) :=
  r <- perform env (Index (ID doc) doc) ;;
  match r.2 with
  | Some err => ret (Some ("failed to index document: " +:+ err))
  | None =>
      w <- getWorld ;;
      setIndex true (<[ID doc := doc]> (index w)) ;;
      ret None
  end.

Definition Refresh : M (option error) :=
  r <- perform env IndicesRefresh ;;
  ret r.2.

Definition Search (query : string) (limit : Z) : M (list Document + error) :=
  let searchQuery := MultiMatch query ["content"; "title"; "tags^2"; "summary"] limit in
  r <- perform env (Sys.Search searchQuery) ;;
  match r.2 with
  | Some err => ret (inr ("search failed: " +:+ err))
  | None =>
      w <- getWorld ;;
      ret (inl (hits env r.1 searchQuery (index w)))
  end.

(** [queryEmbedding] is [None] for a nil slice. *)
Definition HybridSearch (query : string) (queryEmbedding : option (list float32))
    (limit : Z) : M (list Document + error) :=
  match queryEmbedding with
  | None => Search query limit
  | Some vector =>
      let searchQuery :=
        RRF query ["content"; "title"] "embedding" vector limit (int (limit * 2)) limit in
      r <- perform env (Sys.Search searchQuery) ;;
      match r.2 with
      | Some err => ret (inr ("hybrid search failed: " +:+ err))
      | None =>
          w <- getWorld ;;
          ret (inl (hits env r.1 searchQuery (index w)))
      end
  end.

(** [None] for a document that is not found. *)
Definition GetDocument (id : string) : M (option Document + error) :=
  r <- perform env (Sys.Get id) ;;
  match r.2 with
  | Some err => ret (inr ("get failed: " +:+ err))
  | None =>
      w <- getWorld ;;
      ret (inl (index w !! id))
  end.

End Client.
End Elasticsearch.

(* ================================================================== *)
(** * Packages llm and embeddings (internal/llm, internal/embeddings) *)
(* ================================================================== *)

Module LLM.
Import Sys GoStrings.
Local Open Scope world_scope.

Record EnrichmentResult := {
  Tags : list string;
  Summary : string
}.

Definition MaxContentForEnrichment : nat := 20000.

Section Client.
Context (env : Env).

Definition Complete (prompt : Prompt) : M (string + error) :=
  r <- perform env (ChatCompletions prompt) ;;
  match r.2 with
  | Some err => ret (inr ("request failed: " +:+ err))
  | None => ret (inl (TrimSpace (completion env r.1 prompt)))
  end.

Definition parseTags (tagsResp : string) : list string :=
  List.filter (fun tag => negb (String.eqb tag ""))
              (List.map TrimSpace (Split tagsResp ","%char)).

Definition EnrichDocument (title content : string) : M (EnrichmentResult + error) :=
  let content :=
    if MaxContentForEnrichment <? String.length content
    then Str.take MaxContentForEnrichment content else content in
  slog Debug "generating tags" ;;
  tagsResp <- Complete (TagsPrompt title content) ;;
  match tagsResp with
  | inr err => ret (inr ("failed to generate tags: " +:+ err))
  | inl tagsResp =>
      slog Debug "generating summary" ;;
      summaryResp <- Complete (SummaryPrompt title content) ;;
      match summaryResp with
      | inr err => ret (inr ("failed to generate summary: " +:+ err))
      | inl summaryResp =>
          ret (inl {| Tags := parseTags tagsResp; Summary := summaryResp |})
      end
  end.

End Client.
End LLM.

Module Embeddings.
Import Sys.
Local Open Scope world_scope.

Definition MaxInputChars : nat := 20000.

Section Client.
Context (env : Env).

Definition Embed (text : string) : M (list float32 + error) :=
  let text :=
    if MaxInputChars <? String.length text then Str.take MaxInputChars text else text in
  slog Debug "generating embedding" ;;
  r <- perform env (Sys.Embeddings text) ;;
  match r.2 with
  | Some err => ret (inr ("request failed: " +:+ err))
  | None => ret (inl (embedding env r.1 text))
  end.

End Client.
End Embeddings.

(* ================================================================== *)
(** * Package scraper (internal/scraper) *)
(* ================================================================== *)

(** The crawling library decides which requests are made and in which
    order its callbacks run; that is the environment's sequence of
    callbacks. What [Scrape] registers is modelled: the handler of a
    request, which looks at the context, and the handler of a response,
    which builds a document. The handler of links only asks the library to
    visit a URL and changes nothing here. Callbacks run one after the
    other: the handlers append to [docs] under a mutex. *)

Module Scraper.
Import Sys GoStrings Markdown.
Local Open Scope world_scope.

Record Config := {
  Delay : Z;
  MaxDepth : Z;
  FollowLinks : bool;
  UserAgent : string;
  Timeout : Z;
  TryMarkdownFirst : bool
}.

Record ScrapeResult := {
  Prefix : string;
  PageCount : nat;
  SourceURL : string
}.

(** What the handlers share: the documents and the flag [cancelled]. *)
Record Collected := {
  docs : list Document;
  cancelled : bool
}.

(** [30 * time.Second], in nanoseconds. *)
Definition defaultTimeout : Z := 30 * 1000000000.

(** The configuration a new scraper keeps: a zero timeout and an empty user
    agent are replaced by defaults. The HTTP client of the scraper gets the
    same timeout. *)
Definition New (config : Config) : Config :=
  let config :=
    if (Timeout config =? 0)%Z then
      {| Delay := Delay config; MaxDepth := MaxDepth config;
         FollowLinks := FollowLinks config; UserAgent := UserAgent config;
         Timeout := defaultTimeout; TryMarkdownFirst := TryMarkdownFirst config |}
    else config in
  if String.eqb (UserAgent config) "" then
    {| Delay := Delay config; MaxDepth := MaxDepth config;
       FollowLinks := FollowLinks config; UserAgent := "BAM-RAG/1.0";
       Timeout := Timeout config; TryMarkdownFirst := TryMarkdownFirst config |}
  else config.

Section Scraper.
Context `{Libs} (env : Env) (config : Config).

Definition tryFetchMarkdown (url : string) : M (option (string * string)) :=
  r <- perform env (HTTPGet url) ;;
  match r.2 with
  | Some _ => ret None
  | None =>
      let resp := httpResponse env r.1 url in
      if negb (StatusCode resp =? 200)%Z then ret None
      else
        let content := Body resp in
        let contentType := HeaderContentType resp in
        if Detect url contentType content then ret (Some (content, contentType))
        else ret None
  end.

Fixpoint tryVariants (variants : list string) : M (option (string * string)) :=
  match variants with
  | [] => ret None
  | variantURL :: rest =>
      e <- ctxErr env ;;
      match e with
      | Some _ => ret None
      | None =>
          r <- tryFetchMarkdown variantURL ;;
          match r with
          | Some found => ret (Some found)
          | None => tryVariants rest
          end
      end
  end.

Definition tryMarkdownVariants (pageURL : string) : M (option (string * string)) :=
  tryVariants (MarkdownURLVariants pageURL).

Definition onRequest (url : string) (st : Collected) : M Collected :=
  e <- ctxErr env ;;
  match e with
  | Some _ =>
      slog Debug "scrape cancelled" ;;
      ret {| docs := docs st; cancelled := true |}
  | None => ret st
  end.

Definition onResponse (url : string) (r : HTTPResponse) (st : Collected) : M Collected :=
  if (400 <=? StatusCode r)%Z then
    slog Debug "skipping page with error status" ;;
    ret st
  else
    let pageURL := url in
    slog Debug "scraped page" ;;
    variant <- (if TryMarkdownFirst config then tryMarkdownVariants pageURL
                else ret None) ;;
    found <- match variant with
             | Some (mdContent, mdContentType) =>
                 slog Debug "using markdown variant" ;;
                 ret (mdContent, mdContentType)
             | None => ret (Body r, HeaderContentType r)
             end ;;
    scrapedAt <- timeNow env ;;
    let doc := {| ID := ""; URL := pageURL; Title := ""; Content := found.1;
                  ContentType := found.2; ScrapedAt := scrapedAt;
                  Tags := []; Summary := ""; Embedding := [] |} in
    ret {| docs := docs st ++ [doc]; cancelled := cancelled st |}.

Definition handle (cb : Callback) (st : Collected) : M Collected :=
  tick ;;
  match cb with
  | OnRequest url => onRequest url st
  | OnResponse url r => onResponse url r st
  end.

Fixpoint runCallbacks (cbs : list Callback) (st : Collected) : M Collected :=
  match cbs with
  | [] => ret st
  | cb :: rest =>
      st' <- handle cb st ;;
      runCallbacks rest st'
  end.

(** The documents, and the error ([None] for nil). *)
Definition Scrape (startURL : string) : M (list Document * option error) :=
  slog Debug "starting scrape" ;;
  match url_Parse startURL with
  | inr err =>
      slog Error "failed to parse URL" ;;
      ret ([], Some err)
  | inl _ =>
      w <- getWorld ;;
      let visit := colly env startURL (now w) in
      st <- runCallbacks visit.1 {| docs := []; cancelled := false |} ;;
      match visit.2 with
      | Some _ =>
          slog Debug "visit error (continuing)" ;;
          ret (docs st, None)
      | None =>
          if cancelled st then
            slog Info "scrape cancelled by context" ;;
            e <- ctxErr env ;;
            ret (docs st, e)
          else
            slog Debug "scrape complete" ;;
            ret (docs st, None)
      end
  end.

(** The body of the loop of [ScrapeToS3] for one document: the URL is
    recorded when the page was written. *)
Definition writePage (prefix : string) (doc : Document)
    (pageURLs : list string) : M (list string) :=
  let filename := GenerateDocumentID (URL doc) +:+ ".md" in
  let mdContent := Content doc in
  (if negb (Detect (URL doc) (ContentType doc) (Content doc))
   then slog Debug "storing HTML content" else ret tt) ;;
  e <- Storage.PutMarkdown env prefix filename mdContent ;;
  match e with
  | Some _ =>
      slog Error "failed to write to S3" ;;
      ret pageURLs
  | None =>
      slog Debug "wrote page to S3" ;;
      ret (pageURLs ++ [URL doc])
  end.

(** The loop of [ScrapeToS3] over the documents. *)
Fixpoint writePages (prefix : string) (docs : list Document)
    (pageURLs : list string) : M (list string) :=
  match docs with
  | [] => ret pageURLs
  | doc :: rest =>
      pageURLs' <- writePage prefix doc pageURLs ;;
      writePages prefix rest pageURLs'
  end.

(** The prefix of a run: [scrapes/{host}/{timestamp}-{shortid}]. *)
Definition runPrefix (startURL host : string) (t : Time) : string :=
  let timestamp := time_Format "2006-01-02T15-04-05" t in
  let shortID := Str.take 8 (GenerateDocumentID (startURL +:+ "-" +:+ pretty t)) in
  "scrapes/" +:+ host +:+ "/" +:+ timestamp +:+ "-" +:+ shortID.

(** What [ScrapeToS3] does with the outcome of [Scrape]. *)
Definition storeScraped (startURL prefix : string)
    (scraped : list Document * option error) : M (ScrapeResult + error) :=
  match scraped with
  | ([], Some err) => ret (inr ("scrape failed: " +:+ err))
  | (docs, _) =>
      pageURLs <- writePages prefix docs [] ;;
      t <- timeNow env ;;
      let meta := {| Meta.SourceURL := startURL;
                     Meta.Timestamp := time_Format "2006-01-02T15:04:05Z07:00" t;
                     Meta.PageCount := length pageURLs;
                     Meta.Pages := pageURLs |} in
      e <- Storage.PutMetadata env prefix meta ;;
      match e with
      | Some err => ret (inr ("failed to write metadata: " +:+ err))
      | None =>
          slog Info "scrape to S3 complete" ;;
          ret (inl {| Prefix := prefix; PageCount := length pageURLs;
                      SourceURL := startURL |})
      end
  end.

Definition ScrapeToS3 (startURL : string) : M (ScrapeResult + error) :=
  match url_Parse startURL with
  | inr err => ret (inr ("failed to parse URL: " +:+ err))
  | inl host =>
      t <- timeNow env ;;
      let prefix := runPrefix startURL host t in
      slog Info "starting scrape to S3" ;;
      scraped <- Scrape startURL ;;
      storeScraped startURL prefix scraped
  end.

End Scraper.
End Scraper.

(* ================================================================== *)
(** * Package ingestion (internal/ingestion/engine.go) *)
(* ================================================================== *)

(** [extractMarkdownTitle], defined alike in ingestion and pipeline. *)
Definition extractMarkdownTitle (content : string) : string :=
  let lines := GoStrings.Split content Regexp.newline in
  match List.find (fun line => GoStrings.HasPrefix line "# ")
                  (List.map GoStrings.TrimSpace lines) with
  | Some line => GoStrings.TrimPrefix line "# "
  | None => ""
  end.

Module Ingestion.
Import Sys GoStrings Markdown.
Local Open Scope world_scope.

Record Result := {
  Prefix : string;
  DocsIndexed : nat;
  Duration : Z;
  Errors : list string
}.

(** The optional clients: [false] for a nil client. *)
Record Engine := {
  embedClient : bool;
  llmClient : bool
}.

Section Engine.
Context `{Libs} (env : Env) (e : Engine).

Definition processDocument (pageURL content : string) : M (Document + error) :=
  let isMarkdown := Detect pageURL "" content in
  let converted :=
    if isMarkdown then inl (content, extractMarkdownTitle content)
    else
      let title := Processor.ExtractTitle content in
      match Processor.Convert content with
      | inr err => inr err
      | inl mdContent => inl (mdContent, title)
      end in
  match converted with
  | inr err => ret (inr err)
  | inl (mdContent, title) =>
      let title := if String.eqb title "" then pageURL else title in
      scrapedAt <- timeNow env ;;
      let doc := {| ID := GenerateDocumentID pageURL; URL := pageURL;
                    Title := title; Content := mdContent; ContentType := "";
                    ScrapedAt := scrapedAt;
                    Tags := []; Summary := ""; Embedding := [] |} in
      doc <- (if llmClient e then
                enrichment <- LLM.EnrichDocument env title mdContent ;;
                match enrichment with
                | inr _ =>
                    slog Warn "failed to enrich document" ;;
                    ret doc
                | inl enriched =>
                    slog Debug "document enriched" ;;
                    ret {| ID := ID doc; URL := URL doc; Title := Title doc;
                           Content := Content doc; ContentType := ContentType doc;
                           ScrapedAt := ScrapedAt doc;
                           Tags := LLM.Tags enriched; Summary := LLM.Summary enriched;
                           Embedding := Embedding doc |}
                end
              else ret doc) ;;
      doc <- (if embedClient e then
                embedded <- Embeddings.Embed env mdContent ;;
                match embedded with
                | inr _ =>
                    slog Warn "failed to generate embedding" ;;
                    ret doc
                | inl vector =>
                    ret {| ID := ID doc; URL := URL doc; Title := Title doc;
                           Content := Content doc; ContentType := ContentType doc;
                           ScrapedAt := ScrapedAt doc;
                           Tags := Tags doc; Summary := Summary doc;
                           Embedding := vector |}
                end
              else ret doc) ;;
      ret (inl doc)
  end.

Definition addError (result : Result) (err : string) : Result :=
  {| Prefix := Prefix result; DocsIndexed := DocsIndexed result;
     Duration := Duration result; Errors := Errors result ++ [err] |}.

Definition addIndexed (result : Result) : Result :=
  {| Prefix := Prefix result; DocsIndexed := S (DocsIndexed result);
     Duration := Duration result; Errors := Errors result |}.

(** The map built from the manifest: file name to page URL. A later page
    with the same file name replaces an earlier one. *)
Definition buildURLToFile (pages : list string) : gmap string string :=
  fold_left (fun (m : gmap string string) pageURL =>
               <[GenerateDocumentID pageURL +:+ ".md" := pageURL]> m)
            pages ∅.

(** The URL [Ingest] takes for a file. *)
Definition pageURLOf (urlToFile : gmap string string) (filename : string) : M string :=
  match urlToFile !! filename with
  | Some pageURL => ret pageURL
  | None =>
      slog Warn "no URL found for file" ;;
      ret filename
  end.

(** One file of the loop of [Ingest], once its URL is known. *)
Definition ingestFileAs (prefix filename pageURL : string) (result : Result) : M Result :=
  content <- Storage.GetMarkdown env prefix filename ;;
  match content with
  | inr err => ret (addError result err)
  | inl content =>
      doc <- processDocument pageURL content ;;
      match doc with
      | inr err => ret (addError result err)
      | inl doc =>
          slog Debug "indexing document" ;;
          err <- Elasticsearch.IndexDocument env doc ;;
          match err with
          | Some err =>
              slog Error "failed to index document" ;;
              ret (addError result err)
          | None =>
              slog Debug "document indexed successfully" ;;
              ret (addIndexed result)
          end
      end
  end.

(** One file of the loop of [Ingest], when the context is not done. *)
Definition ingestFile (prefix : string) (urlToFile : gmap string string)
    (filename : string) (result : Result) : M Result :=
  pageURL <- pageURLOf urlToFile filename ;;
  ingestFileAs prefix filename pageURL result.

Fixpoint ingestFiles (prefix : string) (urlToFile : gmap string string)
    (files : list string) (result : Result) : M Result :=
  match files with
  | [] => ret result
  | filename :: rest =>
      cancelled <- ctxErr env ;;
      match cancelled with
      | Some _ => ret (addError result "context cancelled")
      | None =>
          result' <- ingestFile prefix urlToFile filename result ;;
          ingestFiles prefix urlToFile rest result'
      end
  end.

Definition Ingest (prefix : string) : M (Result + error) :=
  start <- timeNow env ;;
  let result := {| Prefix := prefix; DocsIndexed := 0; Duration := 0; Errors := [] |} in
  slog Info "starting ingestion" ;;
  created <- Elasticsearch.CreateIndex env ;;
  match created with
  | Some err => ret (inr err)
  | None =>
      meta <- Storage.GetMetadata env prefix ;;
      match meta with
      | inr err => ret (inr err)
      | inl meta =>
          let urlToFile := buildURLToFile (Meta.Pages meta) in
          files <- Storage.ListMarkdownFiles env prefix ;;
          match files with
          | inr err => ret (inr err)
          | inl files =>
              slog Info "found files to ingest" ;;
              result <- ingestFiles prefix urlToFile files result ;;
              Elasticsearch.Refresh env ;;
              finish <- timeNow env ;;
              slog Info "ingestion complete" ;;
              ret (inl {| Prefix := Prefix result; DocsIndexed := DocsIndexed result;
                          Duration := (finish - start)%Z;
                          Errors := Errors result |})
          end
      end
  end.

End Engine.
End Ingestion.

(* ================================================================== *)
(** * Package pipeline (internal/pipeline/pipeline.go) *)
(* ================================================================== *)

Module Pipeline.
Import Sys GoStrings Markdown.
Local Open Scope world_scope.

Record Result := {
  PagesScraped : nat;
  DocsIndexed : nat;
  Duration : Z;
  Errors : list error
}.

Record Pipeline := {
  scraperConfig : Scraper.Config;
  embedClient : bool;
  llmClient : bool
}.

Section Pipeline.
Context `{Libs} (env : Env) (p : Pipeline).

Definition addError (result : Result) (err : error) : Result :=
  {| PagesScraped := PagesScraped result; DocsIndexed := DocsIndexed result;
     Duration := Duration result; Errors := Errors result ++ [err] |}.

Definition addIndexed (result : Result) : Result :=
  {| PagesScraped := PagesScraped result; DocsIndexed := S (DocsIndexed result);
     Duration := Duration result; Errors := Errors result |}.

(** The body of the loop of [Run] for one scraped page. *)
Definition runPage (scraped : Document) (result : Result) : M Result :=
  let isMarkdown := Detect (URL scraped) (ContentType scraped) (Content scraped) in
  let converted :=
    if isMarkdown then inl (Content scraped, extractMarkdownTitle (Content scraped))
    else
      let title := Processor.ExtractTitle (Content scraped) in
      match Processor.Convert (Content scraped) with
      | inr err => inr err
      | inl mdContent => inl (mdContent, title)
      end in
  match converted with
  | inr err => ret (addError result err)
  | inl (mdContent, title) =>
      let title := if String.eqb title "" then URL scraped else title in
      let doc := {| ID := GenerateDocumentID (URL scraped); URL := URL scraped;
                    Title := title; Content := mdContent;
                    ContentType := ContentType scraped;
                    ScrapedAt := ScrapedAt scraped;
                    Tags := []; Summary := ""; Embedding := [] |} in
      doc <- (if llmClient p then
                enrichment <- LLM.EnrichDocument env title mdContent ;;
                match enrichment with
                | inr _ =>
                    slog Warn "failed to enrich document" ;;
                    ret doc
                | inl enriched =>
                    slog Debug "document enriched" ;;
                    ret {| ID := ID doc; URL := URL doc; Title := Title doc;
                           Content := Content doc; ContentType := ContentType doc;
                           ScrapedAt := ScrapedAt doc;
                           Tags := LLM.Tags enriched; Summary := LLM.Summary enriched;
                           Embedding := Embedding doc |}
                end
              else ret doc) ;;
      doc <- (if embedClient p then
                embedded <- Embeddings.Embed env mdContent ;;
                match embedded with
                | inr _ =>
                    slog Warn "failed to generate embedding" ;;
                    ret doc
                | inl vector =>
                    ret {| ID := ID doc; URL := URL doc; Title := Title doc;
                           Content := Content doc; ContentType := ContentType doc;
                           ScrapedAt := ScrapedAt doc;
                           Tags := Tags doc; Summary := Summary doc;
                           Embedding := vector |}
                end
              else ret doc) ;;
      err <- Elasticsearch.IndexDocument env doc ;;
      match err with
      | Some err => ret (addError result err)
      | None => ret (addIndexed result)
      end
  end.

Fixpoint runPages (scrapedDocs : list Document) (result : Result) : M Result :=
  match scrapedDocs with
  | [] => ret result
  | scraped :: rest =>
      result' <- runPage scraped result ;;
      runPages rest result'
  end.

Definition Run (startURL : string) : M (Result + error) :=
  start <- timeNow env ;;
  let result := {| PagesScraped := 0; DocsIndexed := 0; Duration := 0; Errors := [] |} in
  created <- Elasticsearch.CreateIndex env ;;
  match created with
  | Some err => ret (inr err)
  | None =>
      scraped <- Scraper.Scrape env (scraperConfig p) startURL ;;
      let result := match scraped.2 with
                    | Some err => addError result err
                    | None => result
                    end in
      let result := {| PagesScraped := length scraped.1;
                       DocsIndexed := DocsIndexed result;
                       Duration := Duration result; Errors := Errors result |} in
      result <- runPages scraped.1 result ;;
      Elasticsearch.Refresh env ;;
      finish <- timeNow env ;;
      ret (inl {| PagesScraped := PagesScraped result;
                  DocsIndexed := DocsIndexed result;
                  Duration := (finish - start)%Z;
                  Errors := Errors result |})
  end.

Definition Search (query : string) (limit : Z) : M (list Document + error) :=
  Elasticsearch.Search env query limit.

End Pipeline.
End Pipeline.

(* ================================================================== *)
(** * How computations change the world *)
(* ================================================================== *)

(* Hashing, path cleaning and trimming are computed, not simplified. *)
Arguments Models.GenerateDocumentID : simpl never.
Arguments GoPath.Join : simpl never.
Arguments GoStrings.TrimSpace : simpl never.
Arguments Markdown.Detect : simpl never.

Module Effects.
Import Sys.
Local Open Scope world_scope.

(** [m] relates the world it starts in to the world it ends in by [R]. *)
Definition Keeps {A : Type} (R : World -> World -> Prop) (m : M A) : Prop :=
  forall w, R w (m w).2.

Section Keeps.
Context (R : World -> World -> Prop) `{!Reflexive R} `{!Transitive R}.

Lemma Keeps_ret {A : Type} (a : A) : Keeps R (ret a).
Proof. intros w. simpl. reflexivity. Qed.

Lemma Keeps_bind {A B : Type} (m : M A) (k : A -> M B) :
  Keeps R m -> (forall a, Keeps R (k a)) -> Keeps R (bind m k).
Proof.
  intros Hm Hk w. unfold bind. specialize (Hm w).
  destruct (m w) as [a w1]. simpl in Hm. specialize (Hk a w1).
  etransitivity; eassumption.
Qed.

Lemma Keeps_getWorld : Keeps R getWorld.
Proof. intros w. simpl. reflexivity. Qed.

End Keeps.

(** Time does not go back. *)
Definition Later (w w' : World) : Prop := now w <= now w'.

#[export] Instance Later_refl : Reflexive Later.
Proof. intros w. unfold Later. lia. Qed.

#[export] Instance Later_trans : Transitive Later.
Proof. intros a b c. unfold Later. lia. Qed.

(** The store is left as it is. *)
Definition SameBucket (w w' : World) : Prop := bucket w' = bucket w.

#[export] Instance SameBucket_refl : Reflexive SameBucket.
Proof. intros w. reflexivity. Qed.

#[export] Instance SameBucket_trans : Transitive SameBucket.
Proof. intros a b c. unfold SameBucket. congruence. Qed.

(** The index is left as it is. *)
Definition SameIndex (w w' : World) : Prop :=
  index w' = index w /\ indexExists w' = indexExists w.

#[export] Instance SameIndex_refl : Reflexive SameIndex.
Proof. intros w. split; reflexivity. Qed.

#[export] Instance SameIndex_trans : Transitive SameIndex.
Proof. intros a b c [H1 H2] [H3 H4]. split; congruence. Qed.

(** The trace grows by events that satisfy [P]. *)
Definition Traces (P : Event -> Prop) (w w' : World) : Prop :=
  exists evs, trace w' = trace w ++ evs /\ Forall P evs.

#[export] Instance Traces_refl (P : Event -> Prop) : Reflexive (Traces P).
Proof. intros w. exists []. split; [now rewrite app_nil_r | constructor]. Qed.

#[export] Instance Traces_trans (P : Event -> Prop) : Transitive (Traces P).
Proof.
  intros a b c (e1 & H1 & F1) (e2 & H2 & F2). exists (e1 ++ e2). split.
  - rewrite H2, H1. now rewrite app_assoc.
  - apply Forall_app. auto.
Qed.

Lemma Traces_same (P : Event -> Prop) (w w' : World) :
  trace w' = trace w -> Traces P w w'.
Proof. intros E. exists []. split; [now rewrite app_nil_r | constructor]. Qed.

Section Primitives.
Context (env : Env).

Lemma slog_Later l msg : Keeps Later (slog l msg).
Proof. intros w. unfold Later. simpl. lia. Qed.

Lemma slog_SameBucket l msg : Keeps SameBucket (slog l msg).
Proof. intros w. reflexivity. Qed.

Lemma slog_SameIndex l msg : Keeps SameIndex (slog l msg).
Proof. intros w. split; reflexivity. Qed.

Lemma slog_Traces P l msg : Keeps (Traces P) (slog l msg).
Proof. intros w. now apply Traces_same. Qed.

Lemma tick_Later : Keeps Later tick.
Proof. intros w. unfold Later. simpl. lia. Qed.

Lemma tick_SameBucket : Keeps SameBucket tick.
Proof. intros w. reflexivity. Qed.

Lemma tick_Traces P : Keeps (Traces P) tick.
Proof. intros w. now apply Traces_same. Qed.

Lemma perform_Later c : Keeps Later (perform env c).
Proof. intros w. unfold Later. simpl. lia. Qed.

Lemma perform_SameBucket c : Keeps SameBucket (perform env c).
Proof. intros w. reflexivity. Qed.

Lemma perform_SameIndex c : Keeps SameIndex (perform env c).
Proof. intros w. split; reflexivity. Qed.

Lemma perform_Traces (P : Event -> Prop) c :
  (forall t, P {| at_tick := t; call := c; failure := faultOf env c t |}) ->
  Keeps (Traces P) (perform env c).
Proof.
  intros HP w. simpl. eexists. split; [reflexivity|]. constructor; [apply HP | constructor].
Qed.

Lemma ctxErr_Later : Keeps Later (ctxErr env).
Proof. intros w. simpl. reflexivity. Qed.

Lemma ctxErr_SameBucket : Keeps SameBucket (ctxErr env).
Proof. intros w. reflexivity. Qed.

Lemma ctxErr_SameIndex : Keeps SameIndex (ctxErr env).
Proof. intros w. split; reflexivity. Qed.

Lemma ctxErr_Traces P : Keeps (Traces P) (ctxErr env).
Proof. intros w. now apply Traces_same. Qed.

Lemma timeNow_Later : Keeps Later (timeNow env).
Proof. intros w. simpl. reflexivity. Qed.

Lemma timeNow_SameBucket : Keeps SameBucket (timeNow env).
Proof. intros w. reflexivity. Qed.

Lemma timeNow_SameIndex : Keeps SameIndex (timeNow env).
Proof. intros w. split; reflexivity. Qed.

Lemma timeNow_Traces P : Keeps (Traces P) (timeNow env).
Proof. intros w. now apply Traces_same. Qed.

Lemma setBucket_Later b : Keeps Later (setBucket b).
Proof. intros w. unfold Later. simpl. lia. Qed.

Lemma setBucket_SameIndex b : Keeps SameIndex (setBucket b).
Proof. intros w. split; reflexivity. Qed.

Lemma setBucket_Traces P b : Keeps (Traces P) (setBucket b).
Proof. intros w. now apply Traces_same. Qed.

Lemma setIndex_Later x i : Keeps Later (setIndex x i).
Proof. intros w. unfold Later. simpl. lia. Qed.

Lemma setIndex_SameBucket x i : Keeps SameBucket (setIndex x i).
Proof. intros w. reflexivity. Qed.

Lemma setIndex_Traces P x i : Keeps (Traces P) (setIndex x i).
Proof. intros w. now apply Traces_same. Qed.

End Primitives.

Create HintDb keeps.

#[export] Hint Resolve
  slog_Later slog_SameBucket slog_SameIndex slog_Traces
  tick_Later tick_SameBucket tick_Traces
  perform_Later perform_SameBucket perform_SameIndex
  ctxErr_Later ctxErr_SameBucket ctxErr_SameIndex ctxErr_Traces
  timeNow_Later timeNow_SameBucket timeNow_SameIndex timeNow_Traces
  setBucket_Later setBucket_SameIndex setBucket_Traces
  setIndex_Later setIndex_SameBucket setIndex_Traces : keeps.

(** Decompose a computation along its binds and case distinctions. *)
Ltac keeps :=
  repeat first
    [ apply Keeps_bind; [exact _ | | intros ?]
    | apply Keeps_ret; exact _
    | apply Keeps_getWorld; exact _
    | solve [ eauto with keeps ]
    | match goal with
      | |- Keeps _ (match ?x with _ => _ end) => destruct x
      | |- Keeps _ (if ?x then _ else _) => destruct x
      | |- Keeps _ (let _ := _ in _) => cbv zeta
      end ].

End Effects.

(* ================================================================== *)
(** * The store: what a write leaves behind *)
(* ================================================================== *)

Module StorageFacts.
Import Sys Effects Storage.
Local Open Scope world_scope.

Definition pageName (prefix filename : string) : string :=
  GoPath.Join [prefix; "pages"; filename].

Definition manifestName (prefix : string) : string :=
  GoPath.Join [prefix; "metadata.json"].

(** The event of a write made in world [w]. *)
Definition putEvent (env : Env) (w : World) (name : string) (o : Object) : Event :=
  {| at_tick := now w; call := PutObject name o; failure := storageFault env (now w) |}.

Section Facts.
Context `{Libs} (env : Env).

Lemma PutMarkdown_spec prefix filename content w :
  let r := PutMarkdown env prefix filename content w in
  let name := pageName prefix filename in
  trace r.2 = trace w ++ [putEvent env w name (Bytes content)] /\
  now r.2 = S (now w) /\
  index r.2 = index w /\ indexExists r.2 = indexExists w /\
  match storageFault env (now w) with
  | Some err => r.1 = Some ("failed to put markdown: " +:+ err) /\ bucket r.2 = bucket w
  | None => r.1 = None /\ bucket r.2 = <[name := Bytes content]> (bucket w)
  end.
Proof.
  unfold PutMarkdown, bind, perform, putEvent, pageName. simpl.
  destruct (storageFault env (now w)); simpl; repeat split.
Qed.

Lemma PutMetadata_spec prefix meta w :
  let r := PutMetadata env prefix meta w in
  let name := manifestName prefix in
  trace r.2 = trace w ++ [putEvent env w name (Manifest meta)] /\
  now r.2 = S (now w) /\
  index r.2 = index w /\ indexExists r.2 = indexExists w /\
  match storageFault env (now w) with
  | Some err => r.1 = Some ("failed to put metadata: " +:+ err) /\ bucket r.2 = bucket w
  | None => r.1 = None /\ bucket r.2 = <[name := Manifest meta]> (bucket w)
  end.
Proof.
  unfold PutMetadata, bind, perform, putEvent, manifestName. simpl.
  destruct (storageFault env (now w)); simpl; repeat split.
Qed.

Lemma GetMetadata_SameBucket prefix : Keeps SameBucket (GetMetadata env prefix).
Proof. unfold GetMetadata. keeps. Qed.

Lemma GetMarkdown_SameBucket prefix f : Keeps SameBucket (GetMarkdown env prefix f).
Proof. unfold GetMarkdown. keeps. Qed.

Lemma ListMarkdownFiles_SameBucket prefix :
  Keeps SameBucket (ListMarkdownFiles env prefix).
Proof. unfold ListMarkdownFiles. keeps. Qed.

Lemma GetMetadata_SameIndex prefix : Keeps SameIndex (GetMetadata env prefix).
Proof. unfold GetMetadata. keeps. Qed.

Lemma GetMarkdown_SameIndex prefix f : Keeps SameIndex (GetMarkdown env prefix f).
Proof. unfold GetMarkdown. keeps. Qed.

Lemma ListMarkdownFiles_SameIndex prefix :
  Keeps SameIndex (ListMarkdownFiles env prefix).
Proof. unfold ListMarkdownFiles. keeps. Qed.

(** A read of the manifest when the store answers. *)
Lemma GetMetadata_found prefix meta w :
  storageFault env (now w) = None ->
  bucket w !! manifestName prefix = Some (Manifest meta) ->
  (GetMetadata env prefix w).1 = inl meta.
Proof.
  intros Hf Hb. unfold GetMetadata, bind, perform, manifestName in *. simpl.
  rewrite Hf. simpl. now rewrite Hb.
Qed.

(** A read of a page when the store answers. *)
Lemma GetMarkdown_found prefix filename content w :
  storageFault env (now w) = None ->
  bucket w !! pageName prefix filename = Some (Bytes content) ->
  (GetMarkdown env prefix filename w).1 = inl content.
Proof.
  intros Hf Hb. unfold GetMarkdown, bind, perform, pageName in *. simpl.
  rewrite Hf. simpl. now rewrite Hb.
Qed.

End Facts.
End StorageFacts.

(* ================================================================== *)
(** * The crawl: errors and partial results *)
(* ================================================================== *)

Module ScraperFacts.
Import Sys Effects Scraper.
Local Open Scope world_scope.

Section Facts.
Context `{Libs} (env : Env) (config : Config).

Lemma ctxErrAt_later (t t' : nat) (e : error) :
  t <= t' -> ctxErrAt env t = Some e -> ctxErrAt env t' = Some e.
Proof.
  unfold ctxErrAt. destruct (deadline env) as [d|]; [|discriminate].
  destruct (Nat.leb_spec d t); [|discriminate]. intros Hle E.
  destruct (Nat.leb_spec d t'); [exact E | lia].
Qed.

Lemma ctxErrAt_message (t : nat) (e : error) :
  ctxErrAt env t = Some e -> e = "context canceled".
Proof.
  unfold ctxErrAt. destruct (deadline env); [|discriminate].
  destruct (_ <=? _); [|discriminate]. now intros [= <-].
Qed.

Lemma tryFetchMarkdown_Later url : Keeps Later (tryFetchMarkdown env url).
Proof. unfold tryFetchMarkdown. keeps. Qed.

Lemma tryVariants_Later variants : Keeps Later (tryVariants env variants).
Proof.
  induction variants as [|v rest IH]; cbn [tryVariants]; [keeps|].
  apply Keeps_bind; [exact _ | keeps | intros [e|]; [keeps|]].
  apply Keeps_bind; [exact _ | apply tryFetchMarkdown_Later | intros [found|]];
    [keeps | exact IH].
Qed.

Lemma onResponse_Later url r st : Keeps Later (onResponse env config url r st).
Proof.
  unfold onResponse, tryMarkdownVariants. keeps; auto using tryVariants_Later.
Qed.

Lemma onRequest_Later url st : Keeps Later (onRequest env url st).
Proof. unfold onRequest. keeps. Qed.

Lemma onResponse_cancelled url r st w :
  cancelled (onResponse env config url r st w).1 = cancelled st.
Proof.
  unfold onResponse. destruct (400 <=? StatusCode r)%Z; [reflexivity|].
  unfold bind. simpl.
  destruct (if TryMarkdownFirst config then _ else _) as [[[c t]|] w1]; reflexivity.
Qed.

Lemma handle_Later cb st : Keeps Later (handle env config cb st).
Proof.
  unfold handle. keeps; auto using onRequest_Later, onResponse_Later.
Qed.

Lemma runCallbacks_Later cbs st : Keeps Later (runCallbacks env config cbs st).
Proof.
  revert st; induction cbs as [|cb rest IH]; intros st; cbn [runCallbacks].
  - keeps.
  - apply Keeps_bind; [exact _ | apply handle_Later | intros st'; apply IH].
Qed.

(** The flag [cancelled] is set only when the context is done. *)
Definition CancelSeen (st : Collected) (w : World) : Prop :=
  cancelled st = true -> ctxErrAt env (now w) = Some "context canceled".

Lemma handle_CancelSeen cb st w :
  CancelSeen st w ->
  CancelSeen (handle env config cb st w).1 (handle env config cb st w).2.
Proof.
  intros Hst Hc. destruct cb as [url|url r].
  - unfold handle, onRequest, ctxErr, bind in *. simpl in *.
    destruct (ctxErrAt env (S (now w))) as [e|] eqn:E; simpl in *.
    + rewrite E. f_equal. eapply ctxErrAt_message, E.
    + eapply ctxErrAt_later; [|apply Hst, Hc]. lia.
  - pose proof (handle_Later (OnResponse url r) st w) as Hl.
    unfold handle, bind in *. simpl in *.
    rewrite onResponse_cancelled in Hc.
    eapply ctxErrAt_later; [exact Hl | apply Hst, Hc].
Qed.

Lemma runCallbacks_CancelSeen cbs st w :
  CancelSeen st w ->
  CancelSeen (runCallbacks env config cbs st w).1 (runCallbacks env config cbs st w).2.
Proof.
  revert st w; induction cbs as [|cb rest IH]; intros st w Hst; simpl; [exact Hst|].
  unfold bind. pose proof (handle_CancelSeen cb st w Hst) as Hh.
  destruct (handle env config cb st w) as [st1 w1]. apply IH, Hh.
Qed.

(** What [Scrape] returns: nothing and the error of the parser when the URL
    does not parse; otherwise the documents collected, with the error of the
    context when the handlers saw it done and the visit itself reported no
    error, and with no error in every other case. *)
Lemma Scrape_result startURL w :
  let r := (Scrape env config startURL w).1 in
  match url_Parse startURL with
  | inr e => r = ([], Some e)
  | inl _ =>
      match (colly env startURL (now w)).2 with
      | Some _ => r.2 = None
      | None => r.2 = None \/ r.2 = Some "context canceled"
      end
  end.
Proof.
  unfold Scrape, bind. simpl.
  destruct (url_Parse startURL) as [host|e]; [|reflexivity]. simpl.
  pose proof (runCallbacks_CancelSeen (colly env startURL (now w)).1
                {| docs := []; cancelled := false |}
                (slog Debug "starting scrape" w).2) as Hinv.
  simpl in Hinv.
  destruct (runCallbacks _ _ _ _ _) as [st w1]. simpl in Hinv.
  destruct ((colly env startURL (now w)).2); [reflexivity|].
  destruct (cancelled st) eqn:Ec; simpl; [|left; reflexivity].
  right. unfold ctxErr. simpl. apply Hinv; [intros Hf; discriminate Hf | exact Ec].
Qed.

(** An error of [Scrape] on a URL that parses is the error of the context,
    seen done by a handler of a visit that reported no error. *)
Lemma Scrape_cancelled startURL w host err :
  url_Parse startURL = inl host ->
  (Scrape env config startURL w).1.2 = Some err ->
  err = "context canceled" /\
  ctxErrAt env (now (Scrape env config startURL w).2) = Some err /\
  (colly env startURL (now w)).2 = None.
Proof.
  unfold Scrape, bind. simpl. intros ->. simpl.
  destruct (runCallbacks _ _ _ _ _) as [st w1].
  destruct ((colly env startURL (now w)).2); [discriminate|].
  destruct (cancelled st); simpl; [|discriminate].
  unfold ctxErr. simpl. intros E. split; [eapply ctxErrAt_message, E | auto].
Qed.

(** ** The calls of a crawl *)

(** A fetch of a candidate Markdown URL. *)
Definition IsFetch (ev : Event) : Prop := exists url, call ev = HTTPGet url.

Lemma tryFetchMarkdown_Traces url : Keeps (Traces IsFetch) (tryFetchMarkdown env url).
Proof.
  unfold tryFetchMarkdown. apply Keeps_bind; [exact _ | | intros r; keeps].
  apply perform_Traces. intros t. exists url. reflexivity.
Qed.

Lemma tryVariants_Traces variants : Keeps (Traces IsFetch) (tryVariants env variants).
Proof.
  induction variants as [|v rest IH]; cbn [tryVariants]; [keeps|].
  apply Keeps_bind; [exact _ | keeps | intros [e|]; [keeps|]].
  apply Keeps_bind; [exact _ | apply tryFetchMarkdown_Traces | intros [found|]];
    [keeps | exact IH].
Qed.

Lemma handle_Traces cb st : Keeps (Traces IsFetch) (handle env config cb st).
Proof.
  unfold handle, onRequest, onResponse, tryMarkdownVariants.
  keeps; auto using tryVariants_Traces.
Qed.

Lemma runCallbacks_Traces cbs st :
  Keeps (Traces IsFetch) (runCallbacks env config cbs st).
Proof.
  revert st; induction cbs as [|cb rest IH]; intros st; cbn [runCallbacks].
  - keeps.
  - apply Keeps_bind; [exact _ | apply handle_Traces | intros st'; apply IH].
Qed.

Lemma Scrape_Traces startURL : Keeps (Traces IsFetch) (Scrape env config startURL).
Proof.
  unfold Scrape. keeps; auto using runCallbacks_Traces.
Qed.

(** ** The writes of a run *)

Definition pageWrite (prefix : string) (doc : Document) : Call :=
  PutObject (StorageFacts.pageName prefix (GenerateDocumentID (URL doc) +:+ ".md"))
            (Bytes (Content doc)).

(** The write of each document, one per tick from [t] on. *)
Fixpoint pageEvents (prefix : string) (t : nat) (docs : list Document) : list Event :=
  match docs with
  | [] => []
  | doc :: rest =>
      {| at_tick := t; call := pageWrite prefix doc; failure := storageFault env t |}
      :: pageEvents prefix (S t) rest
  end.

(** The URLs of the documents whose write succeeded. *)
Fixpoint storedURLs (t : nat) (docs : list Document) : list string :=
  match docs with
  | [] => []
  | doc :: rest =>
      match storageFault env t with
      | None => URL doc :: storedURLs (S t) rest
      | Some _ => storedURLs (S t) rest
      end
  end.

Lemma pageEvents_calls prefix t docs :
  List.map call (pageEvents prefix t docs) = List.map (pageWrite prefix) docs.
Proof.
  revert t; induction docs as [|d rest IH]; intros t; simpl; [reflexivity|].
  now rewrite IH.
Qed.

Lemma storedURLs_length t docs : length (storedURLs t docs) <= length docs.
Proof.
  revert t; induction docs as [|d rest IH]; intros t; simpl; [lia|].
  specialize (IH (S t)). destruct (storageFault env t); simpl; lia.
Qed.

(** A URL recorded for the manifest belongs to a document whose page was
    written, under the name made of its id, without failure. *)
Lemma storedURLs_written prefix t docs u :
  u ∈ storedURLs t docs ->
  exists doc ev, doc ∈ docs /\ URL doc = u /\ ev ∈ pageEvents prefix t docs /\
                 call ev = pageWrite prefix doc /\ failure ev = None.
Proof.
  revert t; induction docs as [|d rest IH]; intros t; simpl.
  - intros Hu. inversion Hu.
  - destruct (storageFault env t) eqn:E.
    + intros Hu. destruct (IH _ Hu) as (doc & ev & Hd & Hu' & Hev & Hc & Hf).
      exists doc, ev. rewrite !elem_of_cons. auto 10.
    + intros Hu. apply elem_of_cons in Hu as [->|Hu].
      * exists d, {| at_tick := t; call := pageWrite prefix d; failure := None |}.
        rewrite !elem_of_cons. auto 10.
      * destruct (IH _ Hu) as (doc & ev & Hd & Hu' & Hev & Hc & Hf).
        exists doc, ev. rewrite !elem_of_cons. auto 10.
Qed.

Lemma optional_slog (b : bool) (l : Level) (msg : string) (w : World) :
  exists w0, (if b then slog l msg else ret tt) w = (tt, w0) /\
             trace w0 = trace w /\ now w0 = now w /\ index w0 = index w /\
             indexExists w0 = indexExists w /\ bucket w0 = bucket w.
Proof. destruct b; eexists; repeat split. Qed.

Lemma writePage_spec prefix doc acc w :
  let r := writePage env prefix doc acc w in
  r.1 = acc ++ storedURLs (now w) [doc] /\
  trace r.2 = trace w ++ pageEvents prefix (now w) [doc] /\
  now r.2 = S (now w) /\
  index r.2 = index w /\ indexExists r.2 = indexExists w.
Proof.
  unfold writePage, bind. cbv zeta.
  destruct (optional_slog
              (negb (Markdown.Detect (URL doc) (ContentType doc) (Content doc)))
              Debug "storing HTML content" w)
    as (w0 & -> & Ht0 & Hn0 & Hi0 & Hx0 & _).
  pose proof (StorageFacts.PutMarkdown_spec env prefix
                (GenerateDocumentID (URL doc) +:+ ".md") (Content doc) w0)
    as (Ht & Hn & Hi & Hx & Hr). cbv zeta in Ht, Hn, Hi, Hx, Hr.
  destruct (Storage.PutMarkdown env prefix _ (Content doc) w0) as [e w1].
  cbn [fst snd] in Ht, Hn, Hi, Hx, Hr. unfold StorageFacts.putEvent in Ht.
  rewrite Hn0 in Ht, Hn, Hr. cbn [storedURLs pageEvents]. unfold pageWrite.
  destruct (storageFault env (now w)) as [err|]; destruct Hr as [-> Hb];
    unfold slog, ret; cbn [fst snd trace now index indexExists];
    rewrite Ht, Ht0, Hn, Hi, Hi0, Hx, Hx0, ?app_nil_r; auto.
Qed.

Lemma storedURLs_cons t doc rest :
  storedURLs t (doc :: rest) = storedURLs t [doc] ++ storedURLs (S t) rest.
Proof. simpl. now destruct (storageFault env t). Qed.

Lemma writePages_spec prefix docs acc w :
  let r := writePages env prefix docs acc w in
  r.1 = acc ++ storedURLs (now w) docs /\
  trace r.2 = trace w ++ pageEvents prefix (now w) docs /\
  now r.2 = now w + length docs /\
  index r.2 = index w /\ indexExists r.2 = indexExists w.
Proof.
  revert acc w; induction docs as [|d rest IH]; intros acc w.
  - cbn. rewrite !app_nil_r. repeat split; lia.
  - cbn [writePages]. unfold bind.
    pose proof (writePage_spec prefix d acc w) as (H1 & H2 & H3 & H4 & H5).
    destruct (writePage env prefix d acc w) as [urls w1].
    cbn [fst snd] in H1, H2, H3, H4, H5.
    destruct (IH urls w1) as (K1 & K2 & K3 & K4 & K5).
    rewrite K1, K2, K3, K4, K5, H1, H2, H3, H4, H5.
    rewrite (storedURLs_cons (now w) d rest). cbn [pageEvents length].
    rewrite <- !app_assoc. repeat split; lia.
Qed.

End Facts.
End ScraperFacts.

(* ================================================================== *)
(** * A small world to run the program in *)
(* ================================================================== *)

Module Demo.
Import Sys.

Definition page (body : string) : HTTPResponse :=
  {| StatusCode := 200; Body := body; HeaderContentType := "text/html" |}.

(** Every service answers; the clock starts in November 2023; a visit of
    [u] fetches [u] and then [u/b]; candidate Markdown URLs answer 404. *)
Definition env : Env := {|
  deadline := None;
  wallClock := fun t => (1700000000000000000 + Z.of_nat t)%Z;
  storageFault := fun _ => None;
  indexFault := fun _ => None;
  chatFault := fun _ => None;
  embedFault := fun _ => None;
  httpFault := fun _ => None;
  colly := fun u _ =>
    ([OnRequest u; OnResponse u (page "# A");
      OnRequest (u +:+ "/b");
      OnResponse (u +:+ "/b") (page "<html><body>B</body></html>")], None);
  httpResponse := fun _ _ =>
    {| StatusCode := 404; Body := ""; HeaderContentType := "text/plain" |};
  completion := fun _ p =>
    match p with
    | TagsPrompt _ _ => " go, , install ,setup"
    | SummaryPrompt _ _ => "A page."
    end;
  embedding := fun _ _ => [1%N; 2%N];
  hits := fun _ _ _ => []
|}.

(** The same, with a model runner that is down. *)
Definition envModelsDown : Env := {|
  deadline := deadline env; wallClock := wallClock env;
  storageFault := storageFault env; indexFault := indexFault env;
  chatFault := fun _ => Some "connection refused";
  embedFault := fun _ => Some "connection refused";
  httpFault := httpFault env; colly := colly env;
  httpResponse := httpResponse env; completion := completion env;
  embedding := embedding env; hits := hits env
|}.

(** The same, with a context that is done from tick [d] on. *)
Definition envUntil (d : nat) : Env := {|
  deadline := Some d; wallClock := wallClock env;
  storageFault := storageFault env; indexFault := indexFault env;
  chatFault := chatFault env; embedFault := embedFault env;
  httpFault := httpFault env; colly := colly env;
  httpResponse := httpResponse env; completion := completion env;
  embedding := embedding env; hits := hits env
|}.

Definition empty : World :=
  {| now := 0; bucket := ∅; indexExists := false; index := ∅;
     trace := []; logs := [] |}.

Definition config : Scraper.Config :=
  {| Scraper.Delay := 0; Scraper.MaxDepth := 2; Scraper.FollowLinks := true;
     Scraper.UserAgent := "bam-rag/1.0"; Scraper.Timeout := 0;
     Scraper.TryMarkdownFirst := true |}.

Definition doc (url content : string) : Document :=
  {| ID := GenerateDocumentID url; URL := url; Title := "T"; Content := content;
     ContentType := "text/markdown"; ScrapedAt := 0%Z;
     Tags := []; Summary := ""; Embedding := [] |}.

End Demo.

(* ================================================================== *)
(** * Document ids *)
(* ================================================================== *)

Module DocumentIDs.
Import Models.

(** An id is sixteen lowercase hexadecimal digits, whatever the URL is:
    also for the empty URL and for a URL longer than a hash block. *)
Theorem GenerateDocumentID_shape (url : string) :
  String.length (GenerateDocumentID url) = 16 /\
  Str.all Hex.isHexDigit (GenerateDocumentID url) = true.
Proof.
  split; [apply GenerateDocumentID_length | apply GenerateDocumentID_hex].
Qed.

End DocumentIDs.

(* ================================================================== *)
(** * The index client *)
(* ================================================================== *)

Module IndexFacts.
Import Sys Effects Elasticsearch.
Local Open Scope world_scope.

Section Facts.
Context (env : Env).

Lemma IndexDocument_spec doc w :
  let r := IndexDocument env doc w in
  trace r.2 = trace w ++ [{| at_tick := now w; call := Index (ID doc) doc;
                             failure := indexFault env (now w) |}] /\
  now r.2 = S (now w) /\ bucket r.2 = bucket w /\ logs r.2 = logs w /\
  match indexFault env (now w) with
  | Some err =>
      r.1 = Some ("failed to index document: " +:+ err) /\
      index r.2 = index w /\ indexExists r.2 = indexExists w
  | None =>
      r.1 = None /\ index r.2 = <[ID doc := doc]> (index w) /\
      indexExists r.2 = true
  end.
Proof.
  unfold IndexDocument, bind, perform. simpl.
  destruct (indexFault env (now w)); simpl; repeat split.
Qed.

Lemma GetDocument_spec id w :
  let r := GetDocument env id w in
  index r.2 = index w /\ bucket r.2 = bucket w /\ now r.2 = S (now w) /\
  match indexFault env (now w) with
  | Some err => r.1 = inr ("get failed: " +:+ err)
  | None => r.1 = inl (index w !! id)
  end.
Proof.
  unfold GetDocument, bind, perform. simpl.
  destruct (indexFault env (now w)); simpl; repeat split.
Qed.

Lemma CreateIndex_spec w :
  let r := CreateIndex env w in
  index r.2 = index w /\ bucket r.2 = bucket w /\
  (r.1 = None -> indexExists r.2 = true) /\
  (r.1 <> None -> indexExists r.2 = indexExists w) /\
  (indexExists w = true ->
   trace r.2 = trace w ++ [{| at_tick := now w; call := IndicesExists;
                              failure := indexFault env (now w) |}]) /\
  (indexExists w = true -> indexFault env (now w) = None -> r.1 = None).
Proof.
  unfold CreateIndex, bind, perform. simpl.
  destruct (indexFault env (now w)) eqn:E1; simpl.
  - repeat split; auto; discriminate.
  - destruct (indexExists w) eqn:Ex; simpl.
    + repeat split; auto.
    + destruct (indexFault env (S (now w))); simpl; repeat split; auto;
        try discriminate; try congruence.
      intros Hne. now contradiction Hne.
Qed.

End Facts.

(** A write replaces the entry of the document's id and no other; a write
    that fails leaves the index as it was. *)
Theorem IndexDocument_upsert (env : Env) (doc : Document) (w : World) :
  let r := IndexDocument env doc w in
  (forall id, id <> ID doc -> index r.2 !! id = index w !! id) /\
  (r.1 = None -> index r.2 !! ID doc = Some doc) /\
  (r.1 <> None -> index r.2 = index w) /\
  bucket r.2 = bucket w.
Proof.
  destruct (IndexDocument_spec env doc w) as (_ & _ & Hb & _ & Hr).
  cbv zeta. destruct (indexFault env (now w)); destruct Hr as (-> & -> & _).
  - repeat split; auto. discriminate.
  - repeat split; auto.
    + intros id Hne. now apply lookup_insert_ne.
    + intros _. apply lookup_insert_eq.
    + congruence.
Qed.

(** [CreateIndex] never touches the documents or the store; when it
    succeeds the index exists; on an index that exists it makes the
    existence check and nothing else, so calling it again is harmless. *)
Theorem CreateIndex_idempotent (env : Env) (w : World) :
  let r := CreateIndex env w in
  index r.2 = index w /\ bucket r.2 = bucket w /\
  (r.1 = None -> indexExists r.2 = true) /\
  (r.1 = None -> indexFault env (now r.2) = None ->
   let r' := CreateIndex env r.2 in
   r'.1 = None /\ index r'.2 = index w /\
   trace r'.2 = trace r.2 ++ [{| at_tick := now r.2; call := IndicesExists;
                                 failure := None |}]).
Proof.
  cbv zeta. destruct (CreateIndex_spec env w) as (Hi & Hb & Hok & _ & _ & _).
  repeat split; auto.
  - destruct (CreateIndex_spec env (CreateIndex env w).2) as (_ & _ & _ & _ & _ & H6).
    auto.
  - destruct (CreateIndex_spec env (CreateIndex env w).2) as (Hi' & _). congruence.
  - destruct (CreateIndex_spec env (CreateIndex env w).2) as (_ & _ & _ & _ & H5 & _).
    rewrite H5 by auto. now rewrite H0.
Qed.

(** Without an embedding, a hybrid search is the lexical search: the same
    request, the same answer. A slice that is empty but not nil counts as an
    embedding: the request is then the rank fusion of a match on content
    and title with a nearest-neighbour search of [limit] neighbours among
    twice as many candidates. A search changes neither index nor store. *)
Theorem HybridSearch_requests (env : Env) (query : string)
    (queryEmbedding : option (list float32)) (limit : Z) (w : World) :
  let r := HybridSearch env query queryEmbedding limit w in
  let body :=
    match queryEmbedding with
    | None => MultiMatch query ["content"; "title"; "tags^2"; "summary"] limit
    | Some v => RRF query ["content"; "title"] "embedding" v limit
                    (int (limit * 2)) limit
    end in
  (queryEmbedding = None -> r = Elasticsearch.Search env query limit w) /\
  trace r.2 = trace w ++ [{| at_tick := now w; call := Sys.Search body;
                             failure := indexFault env (now w) |}] /\
  index r.2 = index w /\ bucket r.2 = bucket w /\
  match indexFault env (now w) with
  | Some _ => exists err, r.1 = inr err
  | None => r.1 = inl (hits env (now w) body (index w))
  end.
Proof.
  cbv zeta. destruct queryEmbedding as [v|];
    unfold HybridSearch, Elasticsearch.Search, bind, perform; simpl;
    destruct (indexFault env (now w)); simpl; repeat split; eauto; discriminate.
Qed.

End IndexFacts.

(* ================================================================== *)
(** * The store client *)
(* ================================================================== *)

Module StoreFacts.
Import Str Sys Effects Storage StorageFacts.
Local Open Scope world_scope.

Definition noSlash (c : ascii) : bool := negb (Ascii.eqb c GoPath.slash).

Lemma all_rev (p : ascii -> bool) (s : string) : all p (rev s) = all p s.
Proof.
  induction s as [|c s IH]; [reflexivity|].
  rewrite rev_cons, all_app, IH. simpl. rewrite andb_true_r. apply andb_comm.
Qed.

Lemma upToSlash_noSlash (s : string) : all noSlash (GoPath.upToSlash s) = true.
Proof.
  induction s as [|c s IH]; simpl; [reflexivity|].
  destruct (Ascii.eqb c GoPath.slash) eqn:E; simpl; [reflexivity|].
  unfold noSlash at 1. now rewrite E.
Qed.

(** The last element of a path that ends in [.md]: it ends in [.md] and has
    no slash. *)
Lemma Base_md (key : string) :
  GoStrings.HasSuffix key ".md" = true ->
  GoStrings.HasSuffix (GoPath.Base key) ".md" = true /\
  all noSlash (GoPath.Base key) = true.
Proof.
  intros Hs. apply GoStrings.HasSuffix_spec in Hs as [t ->].
  unfold GoPath.Base. destruct (String.eqb_spec (t +:+ ".md") "") as [E|_].
  { apply app_eq_nil in E as [_ E]. discriminate. }
  rewrite rev_app. change (rev ".md") with "dm.". simpl.
  rewrite !rev_cons, !Str.app_assoc. simpl. split.
  - apply GoStrings.HasSuffix_spec. eexists. reflexivity.
  - rewrite all_app, all_rev, upToSlash_noSlash. reflexivity.
Qed.

Section Facts.
Context `{Libs} (env : Env).

Lemma ListMarkdownFiles_names prefix w files :
  (ListMarkdownFiles env prefix w).1 = inl files ->
  Forall (fun f => GoStrings.HasSuffix f ".md" = true /\ all noSlash f = true) files.
Proof.
  unfold ListMarkdownFiles, bind, perform. simpl.
  destruct (storageFault env (now w)); simpl; [discriminate|].
  intros [= <-]. apply Forall_forall. intros f Hf.
  apply list_elem_of_In, in_map_iff in Hf as (key & <- & Hk).
  apply filter_In in Hk as [_ Hk]. now apply Base_md.
Qed.

End Facts.

(** The names [ListMarkdownFiles] returns are bare file names that end in
    [.md]: the directories of the object names are cut off. *)
Theorem ListMarkdownFiles_bare_names `{Libs} (env : Env) (prefix : string) (w : World) :
  match (ListMarkdownFiles env prefix w).1 with
  | inl files =>
      Forall (fun f => GoStrings.HasSuffix f ".md" = true /\ all noSlash f = true)
             files
  | inr _ => storageFault env (now w) <> None
  end.
Proof.
  destruct (ListMarkdownFiles env prefix w).1 as [files|err] eqn:E.
  - now apply (ListMarkdownFiles_names env prefix w).
  - revert E. unfold ListMarkdownFiles, bind, perform. simpl.
    destruct (storageFault env (now w)); simpl; discriminate.
Qed.

(** A page that was written is read back as written. *)
Theorem PutMarkdown_GetMarkdown `{Libs} (env : Env)
    (prefix filename content : string) (w : World) :
  storageFault env (now w) = None ->
  storageFault env (S (now w)) = None ->
  (bind (PutMarkdown env prefix filename content)
        (fun _ => GetMarkdown env prefix filename) w).1 = inl content.
Proof.
  intros F1 F2. unfold bind.
  destruct (PutMarkdown_spec env prefix filename content w) as (_ & Hn & _ & _ & Hr).
  rewrite F1 in Hr. destruct Hr as [_ Hb].
  destruct (PutMarkdown env prefix filename content w) as [e w1]. simpl in Hn, Hb.
  apply GetMarkdown_found; [now rewrite Hn|].
  rewrite Hb. apply lookup_insert_eq.
Qed.

Lemma PutMarkdown_GetMarkdown_witness :
  (bind (PutMarkdown Demo.env "scrapes/example.com/t-1" "abc123.md" "# Test Page")
        (fun _ => GetMarkdown (H:=plainLibs) Demo.env "scrapes/example.com/t-1" "abc123.md")
        Demo.empty).1 = inl "# Test Page".
Proof.
  apply (@PutMarkdown_GetMarkdown plainLibs Demo.env "scrapes/example.com/t-1"
           "abc123.md" "# Test Page" Demo.empty); reflexivity.
Defined.

(** A manifest that was written is read back as written. *)
Theorem PutMetadata_GetMetadata `{Libs} (env : Env)
    (prefix : string) (meta : ScrapeMetadata) (w : World) :
  storageFault env (now w) = None ->
  storageFault env (S (now w)) = None ->
  (bind (PutMetadata env prefix meta) (fun _ => GetMetadata env prefix) w).1
  = inl meta.
Proof.
  intros F1 F2. unfold bind.
  destruct (PutMetadata_spec env prefix meta w) as (_ & Hn & _ & _ & Hr).
  rewrite F1 in Hr. destruct Hr as [_ Hb].
  destruct (PutMetadata env prefix meta w) as [e w1]. simpl in Hn, Hb.
  apply GetMetadata_found; [now rewrite Hn|].
  rewrite Hb. apply lookup_insert_eq.
Qed.

Definition demoMeta : ScrapeMetadata :=
  {| Meta.SourceURL := "https://test.example.com/docs";
     Meta.Timestamp := "2024-12-04T17:30:00Z";
     Meta.PageCount := 1;
     Meta.Pages := ["https://test.example.com/docs/page1"] |}.

Lemma PutMetadata_GetMetadata_witness :
  (bind (PutMetadata Demo.env "scrapes/example.com/t-1" demoMeta)
        (fun _ => GetMetadata (H:=plainLibs) Demo.env "scrapes/example.com/t-1")
        Demo.empty).1 = inl demoMeta.
Proof.
  apply (@PutMetadata_GetMetadata plainLibs Demo.env "scrapes/example.com/t-1"
           demoMeta Demo.empty); reflexivity.
Defined.

End StoreFacts.

(* ================================================================== *)
(** * The crawl *)
(* ================================================================== *)

Module CrawlFacts.
Import Sys Effects Scraper ScraperFacts.
Local Open Scope world_scope.

(** The URLs of the responses that are not error responses. *)
Fixpoint answeredURLs (cbs : list Callback) : list string :=
  match cbs with
  | [] => []
  | OnRequest _ :: rest => answeredURLs rest
  | OnResponse url r :: rest =>
      if (400 <=? StatusCode r)%Z then answeredURLs rest
      else url :: answeredURLs rest
  end.

(** No call is made. *)
Definition Silent (w w' : World) : Prop := trace w' = trace w.

#[export] Instance Silent_refl : Reflexive Silent.
Proof. intros w. reflexivity. Qed.

#[export] Instance Silent_trans : Transitive Silent.
Proof. intros a b c. unfold Silent. congruence. Qed.

Lemma slog_Silent l msg : Keeps Silent (slog l msg).
Proof. intros w. reflexivity. Qed.

Lemma tick_Silent : Keeps Silent tick.
Proof. intros w. reflexivity. Qed.

Lemma ctxErr_Silent env : Keeps Silent (ctxErr env).
Proof. intros w. reflexivity. Qed.

Lemma timeNow_Silent env : Keeps Silent (timeNow env).
Proof. intros w. reflexivity. Qed.

#[export] Hint Resolve slog_Silent tick_Silent ctxErr_Silent timeNow_Silent : keeps.

Section Facts.
Context `{Libs} (env : Env) (config : Config).

Lemma onResponse_docs url r st w :
  List.map URL (docs (onResponse env config url r st w).1)
  = List.map URL (docs st) ++ (if (400 <=? StatusCode r)%Z then [] else [url]).
Proof.
  unfold onResponse. destruct (400 <=? StatusCode r)%Z.
  - simpl. now rewrite app_nil_r.
  - unfold bind. simpl.
    destruct (if TryMarkdownFirst config then _ else _) as [[[c t]|] w1]; simpl;
      now rewrite map_app.
Qed.

Lemma handle_docs cb st w :
  List.map URL (docs (handle env config cb st w).1)
  = List.map URL (docs st) ++ answeredURLs [cb].
Proof.
  destruct cb as [url|url r]; unfold handle, bind; simpl.
  - unfold onRequest, bind, ctxErr. simpl.
    destruct (ctxErrAt env (S (now w))); simpl; now rewrite app_nil_r.
  - rewrite onResponse_docs. now destruct (400 <=? StatusCode r)%Z.
Qed.

Lemma answeredURLs_cons cb rest :
  answeredURLs (cb :: rest) = answeredURLs [cb] ++ answeredURLs rest.
Proof.
  destruct cb as [url|url r]; simpl; [reflexivity|].
  now destruct (400 <=? StatusCode r)%Z.
Qed.

Lemma runCallbacks_docs cbs st w :
  List.map URL (docs (runCallbacks env config cbs st w).1)
  = List.map URL (docs st) ++ answeredURLs cbs.
Proof.
  revert st w; induction cbs as [|cb rest IH]; intros st w.
  - simpl. now rewrite app_nil_r.
  - cbn [runCallbacks]. unfold bind. pose proof (handle_docs cb st w) as Hh.
    destruct (handle env config cb st w) as [st1 w1]. simpl in Hh.
    rewrite IH, Hh, (answeredURLs_cons cb rest). now rewrite <- app_assoc.
Qed.

(** ** What a crawl leaves alone *)

Lemma tryFetchMarkdown_SameBucket url : Keeps SameBucket (tryFetchMarkdown env url).
Proof. unfold tryFetchMarkdown. keeps. Qed.

Lemma tryFetchMarkdown_SameIndex url : Keeps SameIndex (tryFetchMarkdown env url).
Proof. unfold tryFetchMarkdown. keeps. Qed.

Lemma tryVariants_Keeps (R : World -> World -> Prop)
    `{!Reflexive R} `{!Transitive R} variants :
  Keeps R (ctxErr env) -> (forall url, Keeps R (tryFetchMarkdown env url)) ->
  Keeps R (tryVariants env variants).
Proof.
  intros Hc Hf. induction variants as [|v rest IH]; cbn [tryVariants].
  - apply Keeps_ret; exact _.
  - apply Keeps_bind; [exact _ | exact Hc | intros [e|]; [apply Keeps_ret; exact _|]].
    apply Keeps_bind; [exact _ | apply Hf | intros [found|]];
      [apply Keeps_ret; exact _ | exact IH].
Qed.

Lemma handle_SameBucket cb st : Keeps SameBucket (handle env config cb st).
Proof.
  unfold handle, onRequest, onResponse, tryMarkdownVariants.
  keeps; apply tryVariants_Keeps;
    auto using tryFetchMarkdown_SameBucket with keeps; exact _.
Qed.

Lemma handle_SameIndex cb st : Keeps SameIndex (handle env config cb st).
Proof.
  unfold handle, onRequest, onResponse, tryMarkdownVariants.
  assert (Keeps SameIndex tick) by (intros w; split; reflexivity).
  keeps; apply tryVariants_Keeps;
    auto using tryFetchMarkdown_SameIndex with keeps; exact _.
Qed.

Lemma runCallbacks_Keeps (R : World -> World -> Prop)
    `{!Reflexive R} `{!Transitive R} cbs st :
  (forall cb st', Keeps R (handle env config cb st')) ->
  Keeps R (runCallbacks env config cbs st).
Proof.
  intros Hh. revert st; induction cbs as [|cb rest IH]; intros st; cbn [runCallbacks].
  - apply Keeps_ret; exact _.
  - apply Keeps_bind; [exact _ | apply Hh | intros st'; apply IH].
Qed.

Lemma Scrape_SameBucket startURL : Keeps SameBucket (Scrape env config startURL).
Proof.
  unfold Scrape. keeps; apply runCallbacks_Keeps; auto using handle_SameBucket; exact _.
Qed.

Lemma Scrape_SameIndex startURL : Keeps SameIndex (Scrape env config startURL).
Proof.
  unfold Scrape. keeps; apply runCallbacks_Keeps; auto using handle_SameIndex; exact _.
Qed.

Lemma handle_Silent cb st :
  TryMarkdownFirst config = false -> Keeps Silent (handle env config cb st).
Proof.
  intros Hf. unfold handle, onRequest, onResponse. rewrite Hf. keeps.
Qed.

Lemma Scrape_Silent startURL :
  TryMarkdownFirst config = false -> Keeps Silent (Scrape env config startURL).
Proof.
  intros Hf. unfold Scrape.
  keeps; apply runCallbacks_Keeps; auto using handle_Silent; exact _.
Qed.

End Facts.
End CrawlFacts.

Module CrawlProps.
Import Sys Effects Scraper ScraperFacts CrawlFacts.
Local Open Scope world_scope.

(** [New] fills in the defaults and changes nothing else: a zero timeout
    becomes thirty seconds (in nanoseconds) and an empty user agent becomes
    [BAM-RAG/1.0], so the timeout and the user agent of a scraper are never
    zero or empty; every other value is kept, and a configuration that went
    through [New] goes through it unchanged. *)
Theorem New_defaults (config : Config) :
  Timeout (New config) <> 0%Z /\
  UserAgent (New config) <> "" /\
  (Timeout config = 0%Z -> Timeout (New config) = 30000000000%Z) /\
  (UserAgent config = "" -> UserAgent (New config) = "BAM-RAG/1.0") /\
  (Timeout config <> 0%Z -> Timeout (New config) = Timeout config) /\
  (UserAgent config <> "" -> UserAgent (New config) = UserAgent config) /\
  Delay (New config) = Delay config /\
  MaxDepth (New config) = MaxDepth config /\
  FollowLinks (New config) = FollowLinks config /\
  TryMarkdownFirst (New config) = TryMarkdownFirst config /\
  New (New config) = New config.
Proof.
  assert ((defaultTimeout =? 0)%Z = false) as Hd by reflexivity.
  assert (defaultTimeout <> 0%Z) as Hd' by discriminate.
  destruct config as [d m f u t tm]. unfold New. cbn.
  destruct (Z.eqb_spec t 0) as [->|Ht]; destruct (String.eqb_spec u "") as [->|Hu];
    cbn;
    repeat (first
      [ rewrite Hd
      | match goal with
        | |- context [(t =? 0)%Z] => destruct (Z.eqb_spec t 0); [congruence|]
        | |- context [String.eqb u ""] =>
            destruct (String.eqb_spec u ""); [congruence|]
        end ]; cbn);
    repeat split; try congruence; try discriminate;
    intros E; first [reflexivity | congruence | discriminate E].
Qed.

(** [Scrape] returns an error in two situations only: the start URL does
    not parse, and then no document comes with it; or a handler saw the
    context done, and then the documents collected so far come with the
    error of the context, which is done when [Scrape] returns. An error of
    the visit itself is swallowed: the documents, possibly none, are
    returned without error. *)
Theorem Scrape_errors `{Libs} (env : Env) (config : Config)
    (startURL : string) (w : World) :
  let r := (Scrape env config startURL w).1 in
  let w' := (Scrape env config startURL w).2 in
  match url_Parse startURL with
  | inr e => r = ([], Some e)
  | inl _ =>
      match (colly env startURL (now w)).2 with
      | Some _ => r.2 = None
      | None =>
          r.2 = None \/
          (r.2 = Some "context canceled" /\
           ctxErrAt env (now w') = Some "context canceled")
      end
  end.
Proof.
  cbv zeta. pose proof (Scrape_result env config startURL w) as Hres.
  pose proof (Scrape_cancelled env config startURL w) as Hcan. cbv zeta in Hres.
  destruct (url_Parse startURL) as [host|e]; [|exact Hres].
  destruct ((colly env startURL (now w)).2); [exact Hres|].
  destruct Hres as [Hn|Hs]; [now left|]. right. split; [exact Hs|].
  now destruct (Hcan host _ eq_refl Hs) as (_ & Hc & _).
Qed.

(** The documents of a crawl are, in the order of the callbacks, one for
    each response whose status is below 400, with the URL of that response;
    an error response gives no document, and fetching a Markdown variant
    never changes the URL of the document. *)
Theorem Scrape_documents `{Libs} (env : Env) (config : Config)
    (startURL : string) (w : World) :
  List.map URL (Scrape env config startURL w).1.1
  = match url_Parse startURL with
    | inr _ => []
    | inl _ => answeredURLs (colly env startURL (now w)).1
    end.
Proof.
  unfold Scrape, bind. simpl. destruct (url_Parse startURL); [|reflexivity].
  simpl.
  pose proof (runCallbacks_docs env config (colly env startURL (now w)).1
                {| docs := []; cancelled := false |}
                (slog Debug "starting scrape" w).2) as Hd.
  simpl in Hd. destruct (runCallbacks _ _ _ _ _) as [st w1]. simpl in Hd.
  destruct ((colly env startURL (now w)).2); [exact Hd|].
  destruct (cancelled st); exact Hd.
Qed.

(** A crawl writes nothing: the only calls it makes are fetches of candidate
    Markdown URLs, none at all when variants are not tried, and it leaves the
    store and the index as they are. *)
Theorem Scrape_only_fetches `{Libs} (env : Env) (config : Config)
    (startURL : string) (w : World) :
  let w' := (Scrape env config startURL w).2 in
  bucket w' = bucket w /\ index w' = index w /\ indexExists w' = indexExists w /\
  (exists evs, trace w' = trace w ++ evs /\ Forall IsFetch evs) /\
  (TryMarkdownFirst config = false -> trace w' = trace w).
Proof.
  cbv zeta. split; [apply (Scrape_SameBucket env config startURL w)|].
  destruct (Scrape_SameIndex env config startURL w) as [Hi Hx].
  split; [exact Hi|]. split; [exact Hx|]. split.
  - apply (Scrape_Traces env config startURL w).
  - intros Hf. apply (Scrape_Silent env config startURL Hf w).
Qed.

End CrawlProps.

(* ================================================================== *)
(** * The crawl checkpointed in the store *)
(* ================================================================== *)

Module Checkpoint.
Import Sys Effects Scraper ScraperFacts CrawlFacts StorageFacts.
Local Open Scope world_scope.

Section Facts.
Context `{Libs} (env : Env) (config : Config).

Lemma tryFetchMarkdown_accepts url w content contentType :
  (tryFetchMarkdown env url w).1 = Some (content, contentType) ->
  httpFault env (now w) = None /\
  StatusCode (httpResponse env (now w) url) = 200%Z /\
  content = Body (httpResponse env (now w) url) /\
  contentType = HeaderContentType (httpResponse env (now w) url) /\
  Markdown.Detect url contentType content = true.
Proof.
  unfold tryFetchMarkdown, bind, perform. simpl.
  destruct (httpFault env (now w)); simpl; [discriminate|].
  destruct (Z.eqb_spec (StatusCode (httpResponse env (now w) url)) 200) as [E|E];
    simpl; [|discriminate].
  destruct (Markdown.Detect _ _ _) eqn:D; simpl; [|discriminate].
  intros [= <- <-]. auto.
Qed.

Lemma tryVariants_accepts variants w content contentType :
  (tryVariants env variants w).1 = Some (content, contentType) ->
  exists variantURL, variantURL ∈ variants /\
                     Markdown.Detect variantURL contentType content = true.
Proof.
  revert w; induction variants as [|v rest IH]; intros w; cbn [tryVariants].
  - discriminate.
  - unfold bind, ctxErr. simpl. destruct (ctxErrAt env (now w)); [discriminate|].
    destruct (tryFetchMarkdown env v w) as [[[c t]|] w1] eqn:E.
    + simpl. intros [= <- <-].
      assert ((tryFetchMarkdown env v w).1 = Some (c, t)) as E' by now rewrite E.
      apply tryFetchMarkdown_accepts in E' as (_ & _ & _ & _ & D).
      exists v. split; [constructor | exact D].
    + intros Hr. apply IH in Hr as (u & Hu & D). exists u. split; [now constructor|exact D].
Qed.

Lemma tryVariants_done variants w :
  ctxErrAt env (now w) <> None -> tryVariants env variants w = (None, w).
Proof.
  intros Hc. destruct variants as [|v rest]; [reflexivity|].
  cbn [tryVariants]. unfold bind, ctxErr. simpl.
  destruct (ctxErrAt env (now w)); [reflexivity | congruence].
Qed.

(** ** The outcome of storing a crawl *)

(** The manifest of a run that starts writing in world [w]. *)
Definition manifestOf (startURL : string) (docs : list Document) (w : World)
    : ScrapeMetadata :=
  let pageURLs := storedURLs env (now w) docs in
  {| Meta.SourceURL := startURL;
     Meta.Timestamp :=
       time_Format "2006-01-02T15:04:05Z07:00" (wallClock env (now w + length docs));
     Meta.PageCount := length pageURLs;
     Meta.Pages := pageURLs |}.

Definition manifestEvent (startURL prefix : string) (docs : list Document)
    (w : World) : Event :=
  {| at_tick := now w + length docs;
     call := PutObject (manifestName prefix) (Manifest (manifestOf startURL docs w));
     failure := storageFault env (now w + length docs) |}.

Lemma storeScraped_failed startURL prefix err w :
  storeScraped env startURL prefix ([], Some err) w
  = (inr ("scrape failed: " +:+ err), w).
Proof. reflexivity. Qed.

Lemma storeScraped_stores startURL prefix docs err w :
  docs <> [] \/ err = None ->
  let r := storeScraped env startURL prefix (docs, err) w in
  trace r.2 = trace w ++ pageEvents env prefix (now w) docs
                      ++ [manifestEvent startURL prefix docs w] /\
  index r.2 = index w /\ indexExists r.2 = indexExists w /\
  match storageFault env (now w + length docs) with
  | Some e =>
      r.1 = inr ("failed to write metadata: " +:+ "failed to put metadata: " +:+ e)
  | None =>
      r.1 = inl {| Prefix := prefix;
                   PageCount := length (storedURLs env (now w) docs);
                   SourceURL := startURL |} /\
      bucket r.2 !! manifestName prefix = Some (Manifest (manifestOf startURL docs w))
  end.
Proof.
  intros Hcase. cbv zeta.
  assert (storeScraped env startURL prefix (docs, err) w
          = bind (writePages env prefix docs [])
              (fun pageURLs =>
                 bind (timeNow env)
                   (fun t =>
                      bind (Storage.PutMetadata env prefix
                              {| Meta.SourceURL := startURL;
                                 Meta.Timestamp :=
                                   time_Format "2006-01-02T15:04:05Z07:00" t;
                                 Meta.PageCount := length pageURLs;
                                 Meta.Pages := pageURLs |})
                        (fun e =>
                           match e with
                           | Some err =>
                               ret (inr ("failed to write metadata: " +:+ err))
                           | None =>
                               bind (slog Info "scrape to S3 complete")
                                 (fun _ =>
                                    ret (inl {| Prefix := prefix;
                                                PageCount := length pageURLs;
                                                SourceURL := startURL |}))
                           end))) w) as ->.
  { unfold storeScraped. destruct docs as [|d rest]; [|reflexivity].
    destruct err as [e|]; [|reflexivity]. destruct Hcase; congruence. }
  unfold bind, timeNow.
  destruct (writePages_spec env prefix docs [] w) as (H1 & H2 & H3 & H4 & H5).
  destruct (writePages env prefix docs [] w) as [urls w1].
  cbn [fst snd] in H1, H2, H3, H4, H5. rewrite app_nil_l in H1. subst urls.
  cbv beta iota.
  pose proof (PutMetadata_spec env prefix
                {| Meta.SourceURL := startURL;
                   Meta.Timestamp :=
                     time_Format "2006-01-02T15:04:05Z07:00" (wallClock env (now w1));
                   Meta.PageCount := length (storedURLs env (now w) docs);
                   Meta.Pages := storedURLs env (now w) docs |} w1)
    as (K1 & K2 & K3 & K4 & K5). cbv zeta in K1, K2, K3, K4, K5.
  destruct (Storage.PutMetadata env prefix _ w1) as [e w2].
  cbn [fst snd] in K1, K2, K3, K4, K5.
  unfold manifestEvent, manifestOf, putEvent in *. rewrite H3 in *.
  destruct (storageFault env (now w + length docs)) as [e'|];
    destruct K5 as [-> Kb]; unfold slog, ret; cbn [fst snd];
    cbn [trace index indexExists bucket];
    rewrite ?K1, ?K3, ?K4, ?H2, ?H4, ?H5, ?Kb, <- ?app_assoc; repeat split.
  apply lookup_insert_eq.
Qed.

End Facts.

(** A Markdown variant replaces the fetched content only when it is
    classified as Markdown under its own URL and content type; once the
    context is done no variant is fetched. *)
Theorem tryMarkdownVariants_accepts `{Libs} (env : Env) (pageURL : string) (w : World) :
  match (tryMarkdownVariants env pageURL w).1 with
  | Some (content, contentType) =>
      exists variantURL,
        variantURL ∈ Markdown.MarkdownURLVariants pageURL /\
        Markdown.Detect variantURL contentType content = true
  | None => True
  end /\
  (ctxErrAt env (now w) <> None -> tryMarkdownVariants env pageURL w = (None, w)).
Proof.
  unfold tryMarkdownVariants. split.
  - destruct (tryVariants env _ w).1 as [[c t]|] eqn:E; [|exact I].
    now apply (tryVariants_accepts env _ w).
  - apply tryVariants_done.
Qed.

(** Storing a crawl fails with "scrape failed" only for a crawl that ended
    in an error without any document, and then nothing is written. In every
    other case each document is written once, in order, the manifest is
    written after them, and the outcome is decided by the manifest write
    alone: a page that could not be written is left out of the manifest and
    of the page count, it is not an error. *)
Theorem storeScraped_outcome `{Libs} (env : Env) (startURL prefix : string)
    (docs : list Document) (err : option error) (w : World) :
  let r := storeScraped env startURL prefix (docs, err) w in
  match docs, err with
  | [], Some e => r = (inr ("scrape failed: " +:+ e), w)
  | _, _ =>
      trace r.2 = trace w ++ pageEvents env prefix (now w) docs
                          ++ [manifestEvent env startURL prefix docs w] /\
      match storageFault env (now w + length docs) with
      | Some e => exists e', r.1 = inr ("failed to write metadata: " +:+ e')
      | None =>
          exists res, r.1 = inl res /\ Prefix res = prefix /\
                      SourceURL res = startURL /\
                      PageCount res = length (storedURLs env (now w) docs) /\
                      PageCount res <= length docs
      end
  end.
Proof.
  cbv zeta.
  assert (docs <> [] \/ err = None ->
          trace (storeScraped env startURL prefix (docs, err) w).2
          = trace w ++ pageEvents env prefix (now w) docs
                    ++ [manifestEvent env startURL prefix docs w] /\
          match storageFault env (now w + length docs) with
          | Some e => exists e', (storeScraped env startURL prefix (docs, err) w).1
                                 = inr ("failed to write metadata: " +:+ e')
          | None =>
              exists res, (storeScraped env startURL prefix (docs, err) w).1 = inl res /\
                          Prefix res = prefix /\ SourceURL res = startURL /\
                          PageCount res = length (storedURLs env (now w) docs) /\
                          PageCount res <= length docs
          end) as Hgen.
  { intros Hcase.
    destruct (storeScraped_stores env startURL prefix docs err w Hcase)
      as (Ht & _ & _ & Hr).
    split; [exact Ht|].
    destruct (storageFault env (now w + length docs)).
    - eexists. exact Hr.
    - destruct Hr as [Hr _]. eexists. split; [exact Hr|]. simpl.
      repeat split. apply storedURLs_length. }
  destruct docs as [|d rest].
  - destruct err as [e|]; [apply storeScraped_failed | apply Hgen; auto].
  - apply Hgen. left. discriminate.
Qed.

(** A write of a page, and a write of a manifest. *)
Definition IsPageWrite (ev : Event) : Prop :=
  exists name content, call ev = PutObject name (Bytes content).

Lemma pageEvents_IsPageWrite (env : Env) prefix t docs :
  Forall IsPageWrite (pageEvents env prefix t docs).
Proof.
  revert t; induction docs as [|d rest IH]; intros t; simpl; constructor; auto.
  eexists _, _. reflexivity.
Qed.

(** In a run of [ScrapeToS3] the calls are, in this order: the fetches of
    the crawl; then one write per document the crawl returned, in the order
    of the documents, each of the content of its document under the file
    name made of the id of its URL; then the write of the manifest, which
    is the last call of the run. No write is made when the start URL does
    not parse or the crawl returned an error and no document; in every
    other case the manifest is written, under the prefix of the run. When
    the run succeeds the manifest was written without failure under the
    prefix returned, it is in the store at the end, its page count is the
    count returned, and every URL it lists belongs to a page whose write
    succeeded under the file name made of its id. The index is never
    touched. *)
Theorem ScrapeToS3_manifest_last `{Libs} (env : Env) (config : Config)
    (startURL : string) (w : World) :
  let r := ScrapeToS3 env config startURL w in
  let scraped := (Scrape env config startURL (slog Info "starting scrape to S3" w).2).1 in
  index r.2 = index w /\
  exists crawl pages manifest,
    trace r.2 = trace w ++ crawl ++ pages ++ manifest /\
    Forall IsFetch crawl /\ Forall IsPageWrite pages /\
    (manifest = [] \/
     exists ev name meta, manifest = [ev] /\ call ev = PutObject name (Manifest meta)) /\
    match url_Parse startURL with
    | inr _ => crawl = [] /\ pages = [] /\ manifest = []
    | inl host =>
        let prefix := runPrefix startURL host (wallClock env (now w)) in
        match scraped with
        | ([], Some _) => pages = [] /\ manifest = []
        | (docs, _) =>
            List.map call pages = List.map (pageWrite prefix) docs /\
            exists ev meta,
              manifest = [ev] /\
              call ev = PutObject (manifestName prefix) (Manifest meta)
        end
    end /\
    forall res, r.1 = inl res ->
      exists ev meta,
        manifest = [ev] /\
        call ev = PutObject (manifestName (Prefix res)) (Manifest meta) /\
        failure ev = None /\
        bucket r.2 !! manifestName (Prefix res) = Some (Manifest meta) /\
        Meta.SourceURL meta = startURL /\
        Meta.PageCount meta = PageCount res /\
        length (Meta.Pages meta) = PageCount res /\
        forall u, u ∈ Meta.Pages meta ->
          exists pageEv content,
            pageEv ∈ pages /\ failure pageEv = None /\
            call pageEv = PutObject
                            (pageName (Prefix res) (GenerateDocumentID u +:+ ".md"))
                            (Bytes content).
Proof.
  cbv zeta. unfold ScrapeToS3.
  destruct (url_Parse startURL) as [host|perr].
  2:{ cbn [fst snd]. unfold ret. cbn [fst snd]. split; [reflexivity|].
      exists [], [], []. rewrite !app_nil_r.
      split; [reflexivity|]. split; [constructor|]. split; [constructor|].
      split; [now left|]. split; [auto|]. discriminate. }
  unfold bind, timeNow. cbv beta iota.
  generalize (runPrefix startURL host (wallClock env (now w))). intros prefix.
  set (w1 := (slog Info "starting scrape to S3" w).2).
  change (slog Info "starting scrape to S3" w) with (tt, w1). cbv beta iota.
  destruct (Scrape_Traces env config startURL w1) as (crawl & Hc & Hf).
  destruct (Scrape_SameIndex env config startURL w1) as [Hi _].
  destruct (Scrape env config startURL w1) as [[docs err] w2].
  cbn [fst snd] in Hc, Hi |- *. change (trace w1) with (trace w) in Hc.
  change (index w1) with (index w) in Hi.
  assert ((docs = [] /\ exists e, err = Some e) \/ (docs <> [] \/ err = None))
    as [[-> [e ->]]|Hcase].
  { destruct docs; [destruct err; eauto|]; right; left; discriminate. }
  - rewrite storeScraped_failed. cbn [fst snd]. split; [exact Hi|].
    exists crawl, [], []. rewrite !app_nil_r.
    split; [exact Hc|]. split; [exact Hf|]. split; [constructor|].
    split; [now left|]. split; [auto|]. discriminate.
  - destruct (storeScraped_stores env startURL prefix docs err w2 Hcase)
      as (Ht & Hi' & _ & Hr).
    split; [congruence|].
    exists crawl, (pageEvents env prefix (now w2) docs),
           [manifestEvent env startURL prefix docs w2].
    split; [rewrite Ht, Hc; now rewrite <- !app_assoc|].
    split; [exact Hf|]. split; [apply pageEvents_IsPageWrite|].
    split; [right; eexists _, _, _; split; reflexivity|].
    split.
    { assert (List.map call (pageEvents env prefix (now w2) docs)
              = List.map (pageWrite prefix) docs /\
              exists ev meta,
                [manifestEvent env startURL prefix docs w2] = [ev] /\
                call ev = PutObject (manifestName prefix) (Manifest meta)) as Hgoal.
      { split; [apply pageEvents_calls|]. eexists _, _. split; reflexivity. }
      destruct docs as [|d rest]; [|exact Hgoal].
      destruct err as [e|]; [|exact Hgoal].
      destruct Hcase as [Hne|Hne]; [now contradiction Hne | discriminate Hne]. }
    intros res Hres.
    destruct (storageFault env (now w2 + length docs)) eqn:Ef.
    { rewrite Hr in Hres. discriminate. }
    destruct Hr as [Hr Hb]. rewrite Hr in Hres. injection Hres as <-.
    exists (manifestEvent env startURL prefix docs w2),
           (manifestOf env startURL docs w2).
    cbn [Prefix PageCount]. unfold manifestEvent. cbn [call failure].
    split; [reflexivity|]. split; [reflexivity|].
    split; [exact Ef|]. split; [exact Hb|].
    split; [reflexivity|]. split; [reflexivity|]. split; [reflexivity|].
    intros u Hu. cbn [manifestOf Meta.Pages] in Hu.
    destruct (storedURLs_written env prefix _ _ _ Hu)
      as (doc & ev & _ & <- & Hev & Hcall & Hfail).
    exists ev, (Content doc). split; [exact Hev|]. split; [exact Hfail|]. exact Hcall.
Qed.

End Checkpoint.

(* ================================================================== *)
(** * The model runner: calls that change nothing *)
(* ================================================================== *)

Module ModelFacts.
Import Sys Effects.
Local Open Scope world_scope.

(** Neither the store nor the index changes, and time does not go back. *)
Definition ReadOnly (w w' : World) : Prop :=
  bucket w' = bucket w /\ index w' = index w /\ indexExists w' = indexExists w /\
  now w <= now w'.

#[export] Instance ReadOnly_refl : Reflexive ReadOnly.
Proof. intros w. unfold ReadOnly. auto. Qed.

#[export] Instance ReadOnly_trans : Transitive ReadOnly.
Proof.
  intros a b c (H1 & H2 & H3 & H4) (K1 & K2 & K3 & K4).
  unfold ReadOnly. repeat split; try congruence. lia.
Qed.

Lemma slog_ReadOnly l msg : Keeps ReadOnly (slog l msg).
Proof. intros w. unfold ReadOnly. simpl. auto. Qed.

Lemma perform_ReadOnly env c : Keeps ReadOnly (perform env c).
Proof. intros w. unfold ReadOnly. simpl. auto. Qed.

Lemma ctxErr_ReadOnly env : Keeps ReadOnly (ctxErr env).
Proof. intros w. reflexivity. Qed.

Lemma timeNow_ReadOnly env : Keeps ReadOnly (timeNow env).
Proof. intros w. reflexivity. Qed.

#[export] Hint Resolve slog_ReadOnly perform_ReadOnly ctxErr_ReadOnly
  timeNow_ReadOnly : keeps.

(** The calls made are calls to the model runner. *)
Definition IsModelCall (ev : Event) : Prop :=
  match call ev with
  | ChatCompletions _ | Embeddings _ => True
  | _ => False
  end.

Section Facts.
Context (env : Env).

Lemma Complete_ReadOnly prompt : Keeps ReadOnly (LLM.Complete env prompt).
Proof. unfold LLM.Complete. keeps. Qed.

Lemma EnrichDocument_ReadOnly title content :
  Keeps ReadOnly (LLM.EnrichDocument env title content).
Proof. unfold LLM.EnrichDocument. keeps; apply Complete_ReadOnly. Qed.

Lemma Embed_ReadOnly text : Keeps ReadOnly (Embeddings.Embed env text).
Proof. unfold Embeddings.Embed. keeps. Qed.

Lemma Complete_Traces prompt : Keeps (Traces IsModelCall) (LLM.Complete env prompt).
Proof.
  unfold LLM.Complete. apply Keeps_bind; [exact _ | | intros r; keeps].
  apply perform_Traces. intros t. exact I.
Qed.

Lemma EnrichDocument_Traces title content :
  Keeps (Traces IsModelCall) (LLM.EnrichDocument env title content).
Proof.
  unfold LLM.EnrichDocument. cbv zeta.
  apply Keeps_bind; [exact _ | keeps | intros _].
  apply Keeps_bind; [exact _ | apply Complete_Traces | intros [tagsResp|err]; [|keeps]].
  apply Keeps_bind; [exact _ | keeps | intros _].
  apply Keeps_bind; [exact _ | apply Complete_Traces | intros [summaryResp|err]; keeps].
Qed.

Lemma Embed_Traces text : Keeps (Traces IsModelCall) (Embeddings.Embed env text).
Proof.
  unfold Embeddings.Embed. cbv zeta.
  apply Keeps_bind; [exact _ | keeps | intros _].
  apply Keeps_bind; [exact _ | | intros r; keeps].
  apply perform_Traces. intros t. exact I.
Qed.

Lemma EnrichDocument_down title content w :
  chatFault env (now w) <> None ->
  exists err, (LLM.EnrichDocument env title content w).1 = inr err.
Proof.
  intros Hf. unfold LLM.EnrichDocument. cbv zeta.
  match goal with |- context [TagsPrompt title ?c] => generalize c; intros sent end.
  unfold LLM.Complete, bind, perform, slog, ret. cbv beta iota zeta.
  cbn [now faultOf fst snd].
  destruct (chatFault env (now w)); [|congruence]. cbn [fst]. eauto.
Qed.

Lemma Embed_down text w :
  embedFault env (now w) <> None ->
  exists err, (Embeddings.Embed env text w).1 = inr err.
Proof.
  intros Hf. unfold Embeddings.Embed. cbv zeta.
  match goal with |- context [Embeddings ?c] => generalize c; intros sent end.
  unfold bind, perform, slog, ret. cbv beta iota zeta.
  cbn [now faultOf fst snd].
  destruct (embedFault env (now w)); [|congruence]. cbn [fst]. eauto.
Qed.

End Facts.
End ModelFacts.

(* ================================================================== *)
(** * Ingestion: files, URLs and documents *)
(* ================================================================== *)

Module IngestFacts.
Import Sys Effects Ingestion ModelFacts StorageFacts IndexFacts.
Local Open Scope world_scope.

(** The file name of a page in a run. *)
Definition fileOf (pageURL : string) : string := GenerateDocumentID pageURL +:+ ".md".

Lemma buildURLToFile_snoc pages pageURL :
  buildURLToFile (pages ++ [pageURL])
  = <[fileOf pageURL := pageURL]> (buildURLToFile pages).
Proof. unfold buildURLToFile. now rewrite fold_left_app. Qed.

Lemma filter_snoc {A : Type} (p : A -> bool) (l : list A) (a : A) :
  List.filter p (l ++ [a]) = List.filter p l ++ (if p a then [a] else []).
Proof. rewrite List.filter_app. reflexivity. Qed.

Lemma buildURLToFile_last pages filename :
  buildURLToFile pages !! filename
  = last (List.filter (fun pageURL => String.eqb (fileOf pageURL) filename) pages).
Proof.
  induction pages as [|pageURL pages IH] using rev_ind; [reflexivity|].
  rewrite buildURLToFile_snoc, filter_snoc.
  destruct (String.eqb_spec (fileOf pageURL) filename) as [<-|Hne].
  - rewrite lookup_insert_eq. now rewrite last_snoc.
  - rewrite lookup_insert_ne by exact Hne. now rewrite app_nil_r.
Qed.

Lemma fileOf_inj_id a b : fileOf a = fileOf b -> GenerateDocumentID a = GenerateDocumentID b.
Proof.
  unfold fileOf. intros E. apply Str.app_inv_len in E; [tauto|].
  now rewrite !GenerateDocumentID_length.
Qed.

Lemma buildURLToFile_elem pages filename pageURL :
  buildURLToFile pages !! filename = Some pageURL ->
  pageURL ∈ pages /\ fileOf pageURL = filename.
Proof.
  rewrite buildURLToFile_last. intros Hl.
  assert (pageURL ∈ List.filter (fun u => String.eqb (fileOf u) filename) pages) as Hin.
  { apply last_Some in Hl as [l' ->]. apply elem_of_app. right. constructor. }
  apply list_elem_of_In, filter_In in Hin as [Hin E].
  split; [now apply list_elem_of_In | now apply String.eqb_eq].
Qed.

Lemma buildURLToFile_None pages filename :
  buildURLToFile pages !! filename = None <->
  forall pageURL, pageURL ∈ pages -> fileOf pageURL <> filename.
Proof.
  rewrite buildURLToFile_last, last_None. split.
  - intros Hf u Hu E.
    assert (In u (List.filter (fun u => String.eqb (fileOf u) filename) pages)) as Hin.
    { apply filter_In. split; [now apply list_elem_of_In | now apply String.eqb_eq]. }
    rewrite Hf in Hin. exact Hin.
  - intros Hall. destruct (List.filter _ pages) as [|u l] eqn:E; [reflexivity|].
    assert (In u (List.filter (fun u => String.eqb (fileOf u) filename) pages)) as Hin
      by (rewrite E; now left).
    apply filter_In in Hin as [Hin Hu]. apply String.eqb_eq in Hu.
    now destruct (Hall u (proj2 (list_elem_of_In _ _) Hin)).
Qed.

Lemma buildURLToFile_own pages pageURL :
  pageURL ∈ pages ->
  (forall other, other ∈ pages ->
                 GenerateDocumentID other = GenerateDocumentID pageURL -> other = pageURL) ->
  buildURLToFile pages !! fileOf pageURL = Some pageURL.
Proof.
  intros Hin Hinj.
  destruct (buildURLToFile pages !! fileOf pageURL) as [u|] eqn:E.
  - apply buildURLToFile_elem in E as [Hu E]. f_equal.
    apply Hinj; [exact Hu | now apply fileOf_inj_id].
  - exfalso. exact (proj1 (buildURLToFile_None _ _) E _ Hin eq_refl).
Qed.

Section Facts.
Context `{Libs} (env : Env) (e : Engine).

(** What [processDocument] makes of a content before any model is asked:
    the Markdown text and the title found in it. *)
Definition conversion (pageURL content : string) : string * string + error :=
  if Markdown.Detect pageURL "" content
  then inl (content, extractMarkdownTitle content)
  else match Processor.Convert content with
       | inr err => inr err
       | inl mdContent => inl (mdContent, Processor.ExtractTitle content)
       end.

Lemma processDocument_ReadOnly pageURL content :
  Keeps ReadOnly (processDocument env e pageURL content).
Proof.
  unfold processDocument.
  keeps; auto using EnrichDocument_ReadOnly, Embed_ReadOnly.
Qed.

Lemma processDocument_Traces pageURL content :
  Keeps (Traces IsModelCall) (processDocument env e pageURL content).
Proof.
  unfold processDocument. cbv zeta.
  destruct (if Markdown.Detect pageURL "" content then _ else _) as [[mdContent title]|err];
    [|keeps].
  apply Keeps_bind; [exact _ | keeps | intros scrapedAt].
  apply Keeps_bind; [exact _ | | intros doc].
  { destruct (llmClient e); [|keeps].
    apply Keeps_bind; [exact _ | apply EnrichDocument_Traces | intros [enr|err]; keeps]. }
  apply Keeps_bind; [exact _ | | intros doc'; keeps].
  destruct (embedClient e); [|keeps].
  apply Keeps_bind; [exact _ | apply Embed_Traces | intros [v|err]; keeps].
Qed.

Lemma processDocument_result pageURL content w :
  match conversion pageURL content with
  | inr err => processDocument env e pageURL content w = (inr err, w)
  | inl (mdContent, title) =>
      exists doc, (processDocument env e pageURL content w).1 = inl doc /\
        ID doc = GenerateDocumentID pageURL /\ URL doc = pageURL /\
        Title doc = (if String.eqb title "" then pageURL else title) /\
        Content doc = mdContent /\ ScrapedAt doc = wallClock env (now w) /\
        (llmClient e = false -> Tags doc = [] /\ Summary doc = "") /\
        (embedClient e = false -> Embedding doc = [])
  end.
Proof.
  unfold processDocument, conversion. cbv zeta.
  destruct (if Markdown.Detect pageURL "" content then _ else _) as [[mdContent title]|err];
    [|reflexivity].
  unfold bind, timeNow. cbv beta iota.
  destruct (llmClient e);
    [destruct (LLM.EnrichDocument env _ _ w) as [[enr|err] w1]|];
    unfold slog, ret; cbv beta iota;
    (destruct (embedClient e);
     [match goal with
      | |- context [Embeddings.Embed env ?c ?w'] =>
          destruct (Embeddings.Embed env c w') as [[v|err'] w2]
      end|]);
    cbv beta iota; eexists; (split; [reflexivity|]);
    cbn [ID URL Title Content ScrapedAt Tags Summary Embedding];
    repeat split; try discriminate; try reflexivity.
Qed.

Lemma GetMarkdown_ReadOnly prefix filename :
  Keeps ReadOnly (Storage.GetMarkdown env prefix filename).
Proof. unfold Storage.GetMarkdown. keeps. Qed.

Lemma GetMetadata_ReadOnly prefix : Keeps ReadOnly (Storage.GetMetadata env prefix).
Proof. unfold Storage.GetMetadata. keeps. Qed.

Lemma ListMarkdownFiles_ReadOnly prefix :
  Keeps ReadOnly (Storage.ListMarkdownFiles env prefix).
Proof. unfold Storage.ListMarkdownFiles. keeps. Qed.

(** One file gives one document, indexed under the id of its URL, or one
    error and no change of the index. *)
Lemma ingestFileAs_outcome prefix filename pageURL result w :
  let r := ingestFileAs env e prefix filename pageURL result w in
  bucket r.2 = bucket w /\
  (indexExists w = true -> indexExists r.2 = true) /\
  ((r.1 = addIndexed result /\
    exists doc, index r.2 = <[GenerateDocumentID pageURL := doc]> (index w) /\
                ID doc = GenerateDocumentID pageURL /\ URL doc = pageURL) \/
   ((exists err, r.1 = addError result err) /\ index r.2 = index w)).
Proof.
  cbv zeta. unfold ingestFileAs, bind.
  pose proof (GetMarkdown_ReadOnly prefix filename w) as (Hb1 & Hi1 & Hx1 & _).
  destruct (Storage.GetMarkdown env prefix filename w) as [[content|err] w1];
    cbn [fst snd] in Hb1, Hi1, Hx1.
  2:{ unfold ret. cbn [fst snd]. split; [exact Hb1|]. split; [congruence|]. right.
      split; [eexists; reflexivity | exact Hi1]. }
  pose proof (processDocument_ReadOnly pageURL content w1) as (Hb2 & Hi2 & Hx2 & _).
  pose proof (processDocument_result pageURL content w1) as Hres.
  destruct (conversion pageURL content) as [[mdContent title]|cerr].
  - destruct Hres as (doc & Hdoc & Hid & Hurl & _).
    destruct (processDocument env e pageURL content w1) as [[doc'|err] w2];
      cbn [fst snd] in Hb2, Hi2, Hx2, Hdoc; [|discriminate].
    injection Hdoc as ->.
    set (w3 := (slog Debug "indexing document" w2).2).
    change (slog Debug "indexing document" w2) with (tt, w3). cbv beta iota.
    pose proof (IndexDocument_spec env doc w3) as (_ & _ & Hb3 & _ & Hr).
    cbv zeta in Hb3, Hr.
    destruct (Elasticsearch.IndexDocument env doc w3) as [ierr w4].
    cbn [fst snd] in Hb3, Hr. change (bucket w3) with (bucket w2) in Hb3.
    change (index w3) with (index w2) in Hr.
    change (indexExists w3) with (indexExists w2) in Hr.
    destruct (indexFault env (now w3)); destruct Hr as (-> & Hi4 & Hx4);
      unfold slog, ret; cbv beta iota; cbn [fst snd bucket index indexExists];
      (split; [congruence|]); (split; [congruence|]).
    + right. split; [eexists; reflexivity | congruence].
    + left. split; [reflexivity|]. exists doc. rewrite Hi4, Hid, Hi2, Hi1. auto.
  - rewrite Hres in Hb2, Hi2, Hx2 |- *. unfold ret. cbn [fst snd].
    split; [exact Hb1|]. split; [congruence|]. right.
    split; [eexists; reflexivity | exact Hi1].
Qed.

(** The URL taken for a file: the one of the manifest, or the file name. *)
Definition urlOf (urlToFile : gmap string string) (filename : string) : string :=
  default filename (urlToFile !! filename).

Lemma ingestFile_outcome prefix urlToFile filename result w :
  let r := ingestFile env e prefix urlToFile filename result w in
  let pageURL := urlOf urlToFile filename in
  bucket r.2 = bucket w /\
  (indexExists w = true -> indexExists r.2 = true) /\
  ((r.1 = addIndexed result /\
    exists doc, index r.2 = <[GenerateDocumentID pageURL := doc]> (index w) /\
                ID doc = GenerateDocumentID pageURL /\ URL doc = pageURL) \/
   ((exists err, r.1 = addError result err) /\ index r.2 = index w)).
Proof.
  cbv zeta. unfold ingestFile, pageURLOf, urlOf, bind.
  destruct (urlToFile !! filename) as [pageURL|]; cbn [default].
  - unfold ret. cbv beta iota. apply ingestFileAs_outcome.
  - unfold ret. cbv beta iota.
    exact (ingestFileAs_outcome prefix filename filename result
             (slog Warn "no URL found for file" w).2).
Qed.

Lemma ctxErrAt_never t : deadline env = None -> ctxErrAt env t = None.
Proof. unfold ctxErrAt. now intros ->. Qed.

Lemma ingestFiles_outcome prefix urlToFile files result w :
  let r := ingestFiles env e prefix urlToFile files result w in
  bucket r.2 = bucket w /\
  (indexExists w = true -> indexExists r.2 = true) /\
  Prefix r.1 = Prefix result /\
  (exists errs, Errors r.1 = Errors result ++ errs /\
     DocsIndexed result <= DocsIndexed r.1 /\
     DocsIndexed r.1 + length errs <= DocsIndexed result + length files /\
     (deadline env = None ->
      DocsIndexed r.1 + length errs = DocsIndexed result + length files)) /\
  (forall id, index r.2 !! id <> index w !! id ->
     exists filename, filename ∈ files /\
                      id = GenerateDocumentID (urlOf urlToFile filename)).
Proof.
  cbv zeta. revert result w. induction files as [|filename rest IH]; intros result w.
  - cbn [ingestFiles]. unfold ret. cbn [fst snd length].
    split; [reflexivity|]. split; [auto|]. split; [reflexivity|]. split.
    + exists []. rewrite app_nil_r. cbn [length]. repeat split; lia.
    + intros id Hne. now contradiction Hne.
  - cbn [ingestFiles]. unfold bind, ctxErr. cbv beta iota.
    destruct (ctxErrAt env (now w)) as [cerr|] eqn:Ec.
    + unfold ret. cbn [fst snd addError Prefix Errors DocsIndexed length].
      split; [reflexivity|]. split; [auto|]. split; [reflexivity|]. split.
      * exists ["context cancelled"]. cbn [length]. repeat split; try lia.
        intros Hd. rewrite (ctxErrAt_never _ Hd) in Ec. discriminate.
      * intros id Hne. now contradiction Hne.
    + pose proof (ingestFile_outcome prefix urlToFile filename result w) as Hf.
      cbv zeta in Hf.
      destruct (ingestFile env e prefix urlToFile filename result w) as [result' w1].
      cbn [fst snd] in Hf. destruct Hf as (Hb1 & Hx1 & Hcase).
      destruct (IH result' w1)
        as (Hb2 & Hx2 & Hp2 & (errs & He2 & Hle2 & Hsum2 & Heq2) & Hids).
      split; [congruence|]. split; [auto|].
      destruct Hcase as [(-> & doc & Hi1 & Hid & Hurl)|((err & ->) & Hi1)];
        cbn [addIndexed addError Prefix Errors DocsIndexed length] in *.
      * split; [exact Hp2|]. split.
        -- exists errs. repeat split; try lia. exact He2. intros Hd. specialize (Heq2 Hd). lia.
        -- intros id Hne.
           destruct (String.eqb_spec id (GenerateDocumentID (urlOf urlToFile filename)))
             as [->|Hneq].
           ++ exists filename. split; [constructor | reflexivity].
           ++ destruct (Hids id) as (f & Hf & ->).
              { rewrite Hi1, lookup_insert_ne by congruence. exact Hne. }
              exists f. split; [now constructor | reflexivity].
      * split; [exact Hp2|]. split.
        -- exists (err :: errs). rewrite He2, <- app_assoc. cbn [length].
           repeat split; try lia. intros Hd. specialize (Heq2 Hd). lia.
        -- intros id Hne. destruct (Hids id) as (f & Hf & ->).
           { now rewrite Hi1. }
           exists f. split; [now constructor | reflexivity].
Qed.

(** Entries are never removed, and when no error is recorded the document
    of every file is in the index at the end. *)
Lemma ingestFiles_present prefix urlToFile files result w :
  let r := ingestFiles env e prefix urlToFile files result w in
  (forall id, is_Some (index w !! id) -> is_Some (index r.2 !! id)) /\
  (length (Errors r.1) = length (Errors result) ->
   forall filename, filename ∈ files ->
     is_Some (index r.2 !! GenerateDocumentID (urlOf urlToFile filename))).
Proof.
  cbv zeta. revert result w. induction files as [|filename rest IH]; intros result w.
  - cbn [ingestFiles]. unfold ret. cbn [fst snd]. split; [auto|].
    intros _ f Hf. inversion Hf.
  - pose proof (ingestFiles_outcome prefix urlToFile (filename :: rest) result w) as Hall.
    cbv zeta in Hall. revert Hall.
    cbn [ingestFiles]. unfold bind, ctxErr. cbv beta iota.
    destruct (ctxErrAt env (now w)) as [cerr|] eqn:Ec.
    + unfold ret. cbn [fst snd addError Errors]. intros _. split; [auto|].
      rewrite length_app. cbn [length]. lia.
    + pose proof (ingestFile_outcome prefix urlToFile filename result w) as Hf.
      cbv zeta in Hf.
      destruct (ingestFile env e prefix urlToFile filename result w) as [result' w1].
      cbn [fst snd] in Hf. destruct Hf as (_ & _ & Hcase).
      destruct (IH result' w1) as (Hmono & Hpres).
      pose proof (ingestFiles_outcome prefix urlToFile rest result' w1) as Hrest.
      cbv zeta in Hrest. destruct Hrest as (_ & _ & _ & (errs & He & _) & _).
      intros _.
      assert (forall id, is_Some (index w !! id) -> is_Some (index w1 !! id)) as Hstep.
      { intros id Hid.
        destruct Hcase as [(_ & doc & -> & _)|(_ & ->)]; [|exact Hid].
        destruct (String.eqb_spec id (GenerateDocumentID (urlOf urlToFile filename)))
          as [->|Hne].
        - rewrite lookup_insert_eq. eauto.
        - now rewrite lookup_insert_ne by congruence. }
      split; [auto|].
      rewrite He, length_app. intros Hlen f Hf.
      destruct Hcase as [(-> & doc & Hi1 & _)|((err & ->) & _)];
        cbn [addIndexed addError Errors] in *.
      * apply elem_of_cons in Hf as [->|Hf].
        -- apply Hmono. rewrite Hi1, lookup_insert_eq. eauto.
        -- apply Hpres; [|exact Hf]. rewrite He, length_app. lia.
      * rewrite length_app in Hlen. cbn [length] in Hlen. lia.
Qed.

(** The manifest and the page files of a run, as the store holds them. *)
Definition storedManifest (prefix : string) (b : gmap string Object)
    : option ScrapeMetadata :=
  match b !! manifestName prefix with
  | Some (Manifest meta) => Some meta
  | Some (Bytes data) =>
      match json_Unmarshal data with
      | inl meta => Some meta
      | inr _ => None
      end
  | None => None
  end.

Definition storedFiles (prefix : string) (b : gmap string Object) : list string :=
  List.map GoPath.Base
    (List.filter (fun key => GoStrings.HasSuffix key ".md")
       (List.filter (fun key => GoStrings.HasPrefix key
                                  (GoPath.Join [prefix; "pages"] +:+ "/"))
          (Storage.objectNames b))).

Lemma GetMetadata_result prefix w meta :
  (Storage.GetMetadata env prefix w).1 = inl meta ->
  storedManifest prefix (bucket w) = Some meta.
Proof.
  unfold Storage.GetMetadata, storedManifest, manifestName, bind, perform, getWorld, ret.
  cbv beta iota zeta. cbn [fst snd bucket].
  destruct (faultOf env _ (now w)); cbv beta iota; cbn [fst bucket]; [discriminate|].
  destruct (bucket w !! _) as [[data|m]|]; cbv beta iota; cbn [fst]; try discriminate.
  - destruct (json_Unmarshal data); cbv beta iota; cbn [fst]; [|discriminate].
    now intros [= <-].
  - now intros [= <-].
Qed.

Lemma ListMarkdownFiles_result prefix w files :
  (Storage.ListMarkdownFiles env prefix w).1 = inl files ->
  files = storedFiles prefix (bucket w).
Proof.
  unfold Storage.ListMarkdownFiles, storedFiles, bind, perform, getWorld, ret.
  cbv beta iota zeta. cbn [fst snd bucket].
  destruct (faultOf env _ (now w)); cbv beta iota; cbn [fst bucket]; [discriminate|].
  now intros [= <-].
Qed.

Lemma Refresh_ReadOnly : Keeps ReadOnly (Elasticsearch.Refresh env).
Proof. unfold Elasticsearch.Refresh. keeps. Qed.

Lemma Ingest_spec prefix w :
  let r := Ingest env e prefix w in
  bucket r.2 = bucket w /\
  match r.1 with
  | inr _ => index r.2 = index w
  | inl res =>
      Prefix res = prefix /\ indexExists r.2 = true /\
      exists meta,
        storedManifest prefix (bucket w) = Some meta /\
        let files := storedFiles prefix (bucket w) in
        DocsIndexed res + length (Errors res) <= length files /\
        (deadline env = None -> DocsIndexed res + length (Errors res) = length files) /\
        (forall id, index r.2 !! id <> index w !! id ->
           exists filename,
             filename ∈ files /\
             id = GenerateDocumentID (urlOf (buildURLToFile (Meta.Pages meta)) filename)) /\
        (forall id, is_Some (index w !! id) -> is_Some (index r.2 !! id)) /\
        (Errors res = [] ->
         forall filename, filename ∈ files ->
           is_Some (index r.2 !! GenerateDocumentID
                                   (urlOf (buildURLToFile (Meta.Pages meta)) filename)))
  end.
Proof.
  cbv zeta. unfold Ingest, bind, timeNow. cbv beta iota.
  set (w1 := (slog Info "starting ingestion" w).2).
  change (slog Info "starting ingestion" w) with (tt, w1). cbv beta iota.
  pose proof (CreateIndex_spec env w1) as (Hi1 & Hb1 & Hx1 & _). cbv zeta in Hi1, Hb1, Hx1.
  change (bucket w1) with (bucket w) in Hb1. change (index w1) with (index w) in Hi1.
  destruct (Elasticsearch.CreateIndex env w1) as [[cerr|] w2]; cbn [fst snd] in *.
  { unfold ret. cbn [fst snd]. split; [exact Hb1 | exact Hi1]. }
  specialize (Hx1 eq_refl).
  pose proof (GetMetadata_ReadOnly prefix w2) as (Hb2 & Hi2 & Hx2 & _).
  pose proof (GetMetadata_result prefix w2) as Hm.
  destruct (Storage.GetMetadata env prefix w2) as [[meta|merr] w3]; cbn [fst snd] in *.
  2:{ unfold ret. cbn [fst snd]. split; congruence. }
  specialize (Hm meta eq_refl).
  pose proof (ListMarkdownFiles_ReadOnly prefix w3) as (Hb3 & Hi3 & Hx3 & _).
  pose proof (ListMarkdownFiles_result prefix w3) as Hl.
  destruct (Storage.ListMarkdownFiles env prefix w3) as [[files|lerr] w4];
    cbn [fst snd] in *.
  2:{ unfold ret. cbn [fst snd]. split; congruence. }
  specialize (Hl files eq_refl).
  set (w5 := (slog Info "found files to ingest" w4).2).
  change (slog Info "found files to ingest" w4) with (tt, w5). cbv beta iota.
  pose proof (ingestFiles_outcome prefix (buildURLToFile (Meta.Pages meta)) files
                {| Prefix := prefix; DocsIndexed := 0; Duration := 0; Errors := [] |} w5)
    as (Hb5 & Hx5 & Hp5 & (errs & He5 & _ & Hsum5 & Heq5) & Hids).
  cbv zeta in Hb5, Hx5, Hp5, He5, Hsum5, Heq5, Hids.
  pose proof (ingestFiles_present prefix (buildURLToFile (Meta.Pages meta)) files
                {| Prefix := prefix; DocsIndexed := 0; Duration := 0; Errors := [] |} w5)
    as (Hmono & Hpres).
  cbv zeta in Hmono, Hpres.
  change (indexExists w5) with (indexExists w4) in Hx5.
  assert (indexExists w4 = true) as Hx4 by congruence. specialize (Hx5 Hx4).
  destruct (ingestFiles env e prefix _ files _ w5) as [result w6]. cbn [fst snd] in *.
  pose proof (Refresh_ReadOnly w6) as (Hb6 & Hi6 & Hx6 & _).
  destruct (Elasticsearch.Refresh env w6) as [rerr w7]. cbn [fst snd] in *.
  unfold slog, ret. cbv beta iota. cbn [fst snd bucket index indexExists Prefix
                                         DocsIndexed Errors].
  change (bucket w5) with (bucket w4) in Hb5.
  change (index w5) with (index w4) in Hids.
  cbn [Prefix DocsIndexed Errors app] in Hp5, He5, Hsum5, Heq5.
  split; [congruence|]. split; [exact Hp5|]. split; [congruence|].
  exists meta. split; [congruence|].
  assert (bucket w3 = bucket w) as Hbw by congruence.
  change (index w5) with (index w4) in Hmono.
  cbn [Errors length] in Hpres.
  rewrite <- Hbw, <- Hl, He5. split; [lia|]. split; [exact Heq5|].
  split; [intros id Hne; apply Hids; congruence|].
  split.
  - intros id Hid. rewrite Hi6. apply Hmono. congruence.
  - intros Hnil f Hf. rewrite Hi6. apply Hpres; [|exact Hf]. now rewrite He5, Hnil.
Qed.

End Facts.
End IngestFacts.

(* ================================================================== *)
(** * The direct pipeline, page by page *)
(* ================================================================== *)

Module RunFacts.
Import Sys Effects Scraper ScraperFacts CrawlFacts Pipeline ModelFacts IndexFacts IngestFacts.
Local Open Scope world_scope.

Section Facts.
Context `{Libs} (env : Env) (p : Pipeline).

Lemma runPage_outcome scraped result w :
  let r := runPage env p scraped result w in
  bucket r.2 = bucket w /\
  ((r.1 = addIndexed result /\
    exists doc, index r.2 = <[GenerateDocumentID (URL scraped) := doc]> (index w) /\
                ID doc = GenerateDocumentID (URL scraped) /\ URL doc = URL scraped /\
                ContentType doc = ContentType scraped /\
                ScrapedAt doc = ScrapedAt scraped) \/
   ((exists err, r.1 = addError result err) /\ index r.2 = index w)).
Proof.
  cbv zeta. remember (runPage env p scraped result w) as r eqn:Hr.
  unfold runPage in Hr. cbv zeta in Hr.
  destruct (if Markdown.Detect _ _ _ then _ else _) as [[mdContent title]|err].
  2:{ subst r. unfold ret. cbn [fst snd]. split; [reflexivity|]. right.
      split; [eexists; reflexivity | reflexivity]. }
  cbn [ID URL Title Content ContentType ScrapedAt Tags Summary Embedding] in Hr.
  unfold bind in Hr.
  destruct (llmClient p);
    [match type of Hr with
     | context [LLM.EnrichDocument env ?t ?c w] =>
         pose proof (EnrichDocument_ReadOnly env t c w) as (Hb1 & Hi1 & _ & _);
         destruct (LLM.EnrichDocument env t c w) as [[enr|eerr] w1]
     end; cbn [fst snd] in Hb1, Hi1; unfold slog, ret in Hr; cbv beta iota in Hr
    |unfold ret in Hr; cbv beta iota in Hr];
    (destruct (embedClient p);
     [match type of Hr with
      | context [Embeddings.Embed env ?c ?w'] =>
          pose proof (Embed_ReadOnly env c w') as (Hb2 & Hi2 & _ & _);
          destruct (Embeddings.Embed env c w') as [[v|verr] w2]
      end; cbn [fst snd bucket index] in Hb2, Hi2; unfold slog in Hr;
      cbv beta iota in Hr
     |]);
    cbv beta iota in Hr;
    cbn [ID URL Title Content ContentType ScrapedAt Tags Summary Embedding] in Hr;
    match type of Hr with
    | context [Elasticsearch.IndexDocument env ?d ?w'] =>
        pose proof (IndexDocument_spec env d w') as (_ & _ & Hb3 & _ & Hr3);
        cbv zeta in Hb3, Hr3; cbn [bucket index now ID] in Hb3, Hr3;
        destruct (Elasticsearch.IndexDocument env d w') as [ierr w3];
        cbn [fst snd] in Hb3, Hr3
    end;
    match type of Hr3 with
    | match indexFault env ?t with _ => _ end =>
        destruct (indexFault env t); destruct Hr3 as (-> & Hi3 & _)
    end;
    subst r; cbn [fst snd]; (split; [congruence|]);
    first [ right; split; [eexists; reflexivity | congruence]
          | left; split; [reflexivity|]; eexists;
            split; [rewrite Hi3; f_equal; congruence|];
            cbn [ID URL ContentType ScrapedAt]; auto ].
Qed.

Lemma runPages_outcome scrapedDocs result w :
  let r := runPages env p scrapedDocs result w in
  bucket r.2 = bucket w /\
  PagesScraped r.1 = PagesScraped result /\
  (exists errs, Errors r.1 = Errors result ++ errs /\
     DocsIndexed r.1 + length errs = DocsIndexed result + length scrapedDocs) /\
  (forall id, index r.2 !! id <> index w !! id ->
     exists scraped, scraped ∈ scrapedDocs /\ id = GenerateDocumentID (URL scraped)).
Proof.
  cbv zeta. revert result w.
  induction scrapedDocs as [|scraped rest IH]; intros result w.
  - cbn [runPages]. unfold ret. cbn [fst snd length].
    split; [reflexivity|]. split; [reflexivity|]. split.
    + exists []. rewrite app_nil_r. cbn [length]. split; [reflexivity | lia].
    + intros id Hne. now contradiction Hne.
  - cbn [runPages]. unfold bind.
    pose proof (runPage_outcome scraped result w) as Hp. cbv zeta in Hp.
    destruct (runPage env p scraped result w) as [result' w1].
    cbn [fst snd] in Hp. destruct Hp as (Hb1 & Hcase).
    destruct (IH result' w1) as (Hb2 & Hp2 & (errs & He2 & Hsum2) & Hids).
    split; [congruence|].
    destruct Hcase as [(-> & doc & Hi1 & _)|((err & ->) & Hi1)];
      cbn [addIndexed addError PagesScraped Errors DocsIndexed length] in *.
    + split; [exact Hp2|]. split.
      * exists errs. split; [exact He2 | lia].
      * intros id Hne.
        destruct (String.eqb_spec id (GenerateDocumentID (URL scraped))) as [->|Hneq].
        -- exists scraped. split; [constructor | reflexivity].
        -- destruct (Hids id) as (d & Hd & ->).
           { rewrite Hi1, lookup_insert_ne by congruence. exact Hne. }
           exists d. split; [now constructor | reflexivity].
    + split; [exact Hp2|]. split.
      * exists (err :: errs). rewrite He2, <- app_assoc. cbn [length].
        split; [reflexivity | lia].
      * intros id Hne. destruct (Hids id) as (d & Hd & ->).
        { now rewrite Hi1. }
        exists d. split; [now constructor | reflexivity].
Qed.

End Facts.
End RunFacts.

(* ================================================================== *)
(** * Truncation, trimming and the requests to the models *)
(* ================================================================== *)

Module EnrichFacts.
Import Str Sys Effects GoStrings LLM.
Local Open Scope world_scope.

Lemma take_whole (n : nat) (s : string) : len s <= n -> take n s = s.
Proof.
  revert s; induction n as [|n IH]; intros [|c s]; simpl; intros Hle;
    try reflexivity; try lia.
  rewrite IH; [reflexivity | lia].
Qed.

Lemma len_take_le (n : nat) (s : string) : len (take n s) <= n.
Proof.
  revert s; induction n as [|n IH]; intros [|c s]; simpl; try lia.
  specialize (IH s). lia.
Qed.

(** [if len(s) > n { s = s[:n] }] keeps the first [n] bytes. *)
Lemma truncate_take (n : nat) (s : string) :
  (if n <? len s then take n s else s) = take n s.
Proof.
  destruct (Nat.ltb_spec n (len s)); [reflexivity|].
  symmetry. now apply take_whole.
Qed.

Lemma all_take (p : ascii -> bool) (n : nat) (s : string) :
  all p s = true -> all p (take n s) = true.
Proof.
  revert s; induction n as [|n IH]; intros [|c s]; simpl; try reflexivity.
  rewrite !andb_true_iff. intros [Hc Hs]. auto.
Qed.

Lemma all_drop (p : ascii -> bool) (n : nat) (s : string) :
  all p s = true -> all p (drop n s) = true.
Proof.
  revert s; induction n as [|n IH]; intros [|c s]; simpl; try reflexivity; auto.
  rewrite !andb_true_iff. intros [Hc Hs]. auto.
Qed.

(** A prefix of a string that starts with no white-space rune starts with
    none either. *)
Lemma spaceWidth_take (n : nat) (s : string) :
  spaceWidth s = 0 -> spaceWidth (take n s) = 0.
Proof.
  destruct s as [|c [|d [|x rest]]]; destruct n as [|[|[|n]]]; simpl;
    try reflexivity;
    repeat match goal with
           | |- context [if ?b then _ else _] => destruct b
           end; try reflexivity; try discriminate.
Qed.

Lemma stripSpace_None (s : string) : stripSpace s = None <-> spaceWidth s = 0.
Proof. unfold stripSpace. destruct (spaceWidth s); split; congruence. Qed.

Lemma stripSpaceEnd_take (s t : string) :
  stripSpaceEnd s = Some t -> exists n, t = take n s.
Proof.
  unfold stripSpaceEnd.
  repeat match goal with
         | |- context [if ?b then _ else _] => destruct b
         end; try discriminate; intros [= <-]; eauto.
Qed.

Lemma trimRightFuel_start (fuel : nat) (s : string) :
  stripSpace s = None -> stripSpace (trimRightFuel fuel s) = None.
Proof.
  revert s; induction fuel as [|fuel IH]; intros s Hs; simpl; [exact Hs|].
  destruct (stripSpaceEnd s) as [rest|] eqn:E; [|exact Hs].
  apply IH. apply stripSpaceEnd_take in E as [n ->].
  apply stripSpace_None, spaceWidth_take, stripSpace_None, Hs.
Qed.

(** [strings.TrimSpace] leaves no white space at either end. *)
Lemma TrimSpace_trimmed (s : string) :
  stripSpace (TrimSpace s) = None /\ stripSpaceEnd (TrimSpace s) = None.
Proof.
  unfold TrimSpace. split; [|apply TrimRightSpace_done].
  apply trimRightFuel_start, TrimLeftSpace_done.
Qed.

Lemma trimLeftFuel_all (p : ascii -> bool) (fuel : nat) (s : string) :
  all p s = true -> all p (trimLeftFuel fuel s) = true.
Proof.
  revert s; induction fuel as [|fuel IH]; intros s Hs; simpl; [exact Hs|].
  unfold stripSpace. destruct (spaceWidth s) as [|k]; [exact Hs|].
  apply IH. now apply all_drop.
Qed.

Lemma trimRightFuel_all (p : ascii -> bool) (fuel : nat) (s : string) :
  all p s = true -> all p (trimRightFuel fuel s) = true.
Proof.
  revert s; induction fuel as [|fuel IH]; intros s Hs; simpl; [exact Hs|].
  destruct (stripSpaceEnd s) as [rest|] eqn:E; [|exact Hs].
  apply IH. apply stripSpaceEnd_take in E as [n ->]. now apply all_take.
Qed.

(** Trimming removes bytes, it adds none. *)
Lemma TrimSpace_all (p : ascii -> bool) (s : string) :
  all p s = true -> all p (TrimSpace s) = true.
Proof. intros Hs. now apply trimRightFuel_all, trimLeftFuel_all. Qed.

Definition notByte (sep c : ascii) : bool := negb (Ascii.eqb c sep).

Lemma splitByte_pieces (sep : ascii) (cur s : string) :
  all (notByte sep) cur = true ->
  Forall (fun piece => all (notByte sep) piece = true) (splitByte sep cur s).
Proof.
  revert cur; induction s as [|c s IH]; intros cur Hcur; simpl.
  - constructor; [|constructor]. now rewrite StoreFacts.all_rev.
  - destruct (Ascii.eqb c sep) eqn:E.
    + constructor; [now rewrite StoreFacts.all_rev | now apply IH].
    + apply IH. simpl. unfold notByte at 1. now rewrite E.
Qed.

Section Calls.
Context (env : Env).

Definition chatCall (t : nat) (prompt : Prompt) : Event :=
  {| at_tick := t; call := ChatCompletions prompt; failure := chatFault env t |}.

Lemma EnrichDocument_spec title content w :
  let sent := take MaxContentForEnrichment content in
  let r := EnrichDocument env title content w in
  let tagsCall := chatCall (now w) (TagsPrompt title sent) in
  let summaryCall := chatCall (S (now w)) (SummaryPrompt title sent) in
  match chatFault env (now w) with
  | Some _ =>
      trace r.2 = trace w ++ [tagsCall] /\
      exists cause, r.1 = inr ("failed to generate tags: " +:+ cause)
  | None =>
      trace r.2 = trace w ++ [tagsCall; summaryCall] /\
      match chatFault env (S (now w)) with
      | Some _ => exists cause, r.1 = inr ("failed to generate summary: " +:+ cause)
      | None =>
          r.1 = inl {| Tags := parseTags
                                 (TrimSpace (completion env (now w) (TagsPrompt title sent)));
                       Summary := TrimSpace (completion env (S (now w))
                                               (SummaryPrompt title sent)) |}
      end
  end.
Proof.
  cbv zeta. unfold EnrichDocument. cbv zeta. rewrite truncate_take.
  generalize (take MaxContentForEnrichment content). intros sent.
  unfold Complete, chatCall, bind, perform, slog, ret. cbv beta iota zeta.
  cbn [now faultOf fst snd trace].
  destruct (chatFault env (now w)); cbv beta iota; cbn [fst snd trace now].
  - split; [reflexivity | eauto].
  - destruct (chatFault env (S (now w))); cbv beta iota; cbn [fst snd trace].
    + split; [now rewrite <- List.app_assoc | eauto].
    + split; [now rewrite <- List.app_assoc | reflexivity].
Qed.

Lemma Embed_spec text w :
  let sent := take Embeddings.MaxInputChars text in
  let r := Embeddings.Embed env text w in
  trace r.2 = trace w ++ [{| at_tick := now w; call := Sys.Embeddings sent;
                             failure := embedFault env (now w) |}] /\
  match embedFault env (now w) with
  | Some _ => exists err, r.1 = inr err
  | None => r.1 = inl (embedding env (now w) sent)
  end.
Proof.
  cbv zeta. unfold Embeddings.Embed. cbv zeta. rewrite truncate_take.
  generalize (take Embeddings.MaxInputChars text). intros sent.
  unfold bind, perform, slog, ret. cbv beta iota zeta.
  cbn [now faultOf fst snd trace].
  destruct (embedFault env (now w)); cbv beta iota; cbn [fst snd trace];
    (split; [reflexivity | eauto]).
Qed.

End Calls.
End EnrichFacts.

(* ================================================================== *)
(** * Ingestion: from the files of a run to the index *)
(* ================================================================== *)

Module IngestProps.
Import Sys Effects Ingestion ModelFacts IngestFacts.
Local Open Scope world_scope.

(** The map from file names to URLs that [Ingest] builds from the manifest
    gives, for a file name, the last page of the manifest that has this file
    name: nothing exactly when no page has it, and the page itself when no
    other page of the manifest shares its id. *)
Theorem Ingest_url_of_file (pages : list string) (filename : string) :
  let urlToFile := buildURLToFile pages in
  urlToFile !! filename
  = last (List.filter
            (fun pageURL => String.eqb (GenerateDocumentID pageURL +:+ ".md") filename)
            pages) /\
  (urlToFile !! filename = None <->
   forall pageURL, pageURL ∈ pages -> GenerateDocumentID pageURL +:+ ".md" <> filename) /\
  (forall pageURL, pageURL ∈ pages ->
     (forall other, other ∈ pages ->
        GenerateDocumentID other = GenerateDocumentID pageURL -> other = pageURL) ->
     urlToFile !! (GenerateDocumentID pageURL +:+ ".md") = Some pageURL).
Proof.
  cbv zeta. split; [apply buildURLToFile_last|].
  split; [apply buildURLToFile_None|]. apply buildURLToFile_own.
Qed.

(** One file of an ingestion. Its URL is the one the manifest has for the
    file name, and the file name itself when the manifest has none. Either
    one document is written to the index, under the id of that URL and with
    that URL, and the count of indexed documents grows by one; or one error
    is recorded and the index stays as it is. The store is never written. *)
Theorem Ingest_file_outcome `{Libs} (env : Env) (e : Engine) (prefix : string)
    (urlToFile : gmap string string) (filename : string) (result : Result)
    (w : World) :
  let r := ingestFile env e prefix urlToFile filename result w in
  let pageURL := default filename (urlToFile !! filename) in
  bucket r.2 = bucket w /\
  ((DocsIndexed r.1 = S (DocsIndexed result) /\ Errors r.1 = Errors result /\
    exists doc, index r.2 = <[GenerateDocumentID pageURL := doc]> (index w) /\
                ID doc = GenerateDocumentID pageURL /\ URL doc = pageURL) \/
   (DocsIndexed r.1 = DocsIndexed result /\
    (exists err, Errors r.1 = Errors result ++ [err]) /\
    index r.2 = index w)).
Proof.
  cbv zeta.
  destruct (ingestFile_outcome env e prefix urlToFile filename result w)
    as (Hb & _ & [(-> & doc & Hd)|((err & ->) & Hi)]).
  - split; [exact Hb|]. left. split; [reflexivity|]. split; [reflexivity|].
    exists doc. exact Hd.
  - split; [exact Hb|]. right. split; [reflexivity|].
    split; [exists err; reflexivity | exact Hi].
Qed.

(** [processDocument] fails only when the content is not Markdown and its
    conversion fails, and then without any call. Otherwise it returns a
    document, whatever the models answer: with the id of the URL, the URL,
    the converted content and a title that falls back to the URL; tags,
    summary and embedding stay empty when the client is absent. The only
    calls it makes go to the model runner; store and index are untouched. *)
Theorem processDocument_outcome `{Libs} (env : Env) (e : Engine)
    (pageURL content : string) (w : World) :
  let r := processDocument env e pageURL content w in
  bucket r.2 = bucket w /\ index r.2 = index w /\
  (exists evs, trace r.2 = trace w ++ evs /\ Forall IsModelCall evs) /\
  match conversion pageURL content with
  | inr err => r = (inr err, w)
  | inl (mdContent, title) =>
      exists doc, r.1 = inl doc /\
        ID doc = GenerateDocumentID pageURL /\ URL doc = pageURL /\
        Title doc = (if String.eqb title "" then pageURL else title) /\
        Content doc = mdContent /\ ScrapedAt doc = wallClock env (now w) /\
        (llmClient e = false -> Tags doc = [] /\ Summary doc = "") /\
        (embedClient e = false -> Embedding doc = [])
  end.
Proof.
  cbv zeta.
  destruct (processDocument_ReadOnly env e pageURL content w) as (Hb & Hi & _ & _).
  split; [exact Hb|]. split; [exact Hi|].
  split; [apply (processDocument_Traces env e pageURL content w)|].
  apply processDocument_result.
Qed.

(** With a model runner that is down, the document is the one an engine
    without model clients builds: failing enrichment and embedding change
    nothing but the log. *)
Theorem processDocument_models_down `{Libs} (env : Env) (e : Engine)
    (pageURL content : string) (w : World) :
  (forall t, chatFault env t <> None) ->
  (forall t, embedFault env t <> None) ->
  (processDocument env e pageURL content w).1
  = (processDocument env {| embedClient := false; llmClient := false |}
       pageURL content w).1.
Proof.
  intros Hc He. unfold processDocument. cbv zeta.
  destruct (if Markdown.Detect pageURL "" content then _ else _) as [[mdContent title]|err];
    [|reflexivity].
  cbn [llmClient embedClient]. unfold bind, timeNow. cbv beta iota.
  destruct (llmClient e).
  - match goal with
    | |- context [LLM.EnrichDocument env ?t ?c w] =>
        destruct (EnrichDocument_down env t c w (Hc _)) as [err Herr];
        destruct (LLM.EnrichDocument env t c w) as [r w1]
    end.
    cbn [fst] in Herr. subst r. unfold slog, ret. cbv beta iota.
    destruct (embedClient e); [|reflexivity].
    match goal with
    | |- context [Embeddings.Embed env ?c ?w'] =>
        destruct (Embed_down env c w' (He _)) as [err' Herr'];
        destruct (Embeddings.Embed env c w') as [r w2]
    end.
    cbn [fst] in Herr'. subst r. reflexivity.
  - unfold ret. cbv beta iota.
    destruct (embedClient e); [|reflexivity].
    match goal with
    | |- context [Embeddings.Embed env ?c ?w'] =>
        destruct (Embed_down env c w' (He _)) as [err' Herr'];
        destruct (Embeddings.Embed env c w') as [r w2]
    end.
    cbn [fst] in Herr'. subst r. reflexivity.
Qed.

Lemma processDocument_models_down_witness :
  (processDocument (H:=plainLibs) Demo.envModelsDown
     {| embedClient := true; llmClient := true |}
     "https://example.com/a" "# A" Demo.empty).1
  = (processDocument (H:=plainLibs) Demo.envModelsDown
       {| embedClient := false; llmClient := false |}
       "https://example.com/a" "# A" Demo.empty).1.
Proof.
  apply (@processDocument_models_down plainLibs Demo.envModelsDown
           {| embedClient := true; llmClient := true |}
           "https://example.com/a" "# A" Demo.empty);
    intros t; discriminate.
Defined.

(** [Ingest] never writes to the store. It fails only before the first
    file is read, and then the index holds the documents it held. When it
    returns a result, the index exists, and every file of the run counts at
    most once, as an indexed document or as an error; every file counts
    exactly once when the context is never done. Only entries under the ids
    of the URLs of the files are changed. *)
Theorem Ingest_accounts `{Libs} (env : Env) (e : Engine) (prefix : string)
    (w : World) :
  let r := Ingest env e prefix w in
  bucket r.2 = bucket w /\
  match r.1 with
  | inr _ => index r.2 = index w
  | inl res =>
      Prefix res = prefix /\ indexExists r.2 = true /\
      exists meta,
        storedManifest prefix (bucket w) = Some meta /\
        let files := storedFiles prefix (bucket w) in
        DocsIndexed res + length (Errors res) <= length files /\
        (deadline env = None -> DocsIndexed res + length (Errors res) = length files) /\
        (forall id, index r.2 !! id <> index w !! id ->
           exists filename,
             filename ∈ files /\
             id = GenerateDocumentID (urlOf (buildURLToFile (Meta.Pages meta)) filename)) /\
        (forall id, is_Some (index w !! id) -> is_Some (index r.2 !! id)) /\
        (Errors res = [] ->
         forall filename, filename ∈ files ->
           is_Some (index r.2 !! GenerateDocumentID
                                   (urlOf (buildURLToFile (Meta.Pages meta)) filename)))
  end.
Proof. apply Ingest_spec. Qed.

(** Re-ingesting a run whose ingestion recorded no error adds no entry to
    the index and removes none: the documents are written again under the
    ids they have. *)
Theorem Ingest_again_same_entries `{Libs} (env env' : Env) (e e' : Engine)
    (prefix : string) (w : World) (res : Result) :
  (Ingest env e prefix w).1 = inl res ->
  Errors res = [] ->
  dom (index (Ingest env' e' prefix (Ingest env e prefix w).2).2)
  = dom (index (Ingest env e prefix w).2).
Proof.
  intros Hres Hnil. apply set_eq. intros id. rewrite !elem_of_dom.
  pose proof (Ingest_spec env e prefix w) as (Hb & H1). cbv zeta in Hb, H1.
  rewrite Hres in H1. destruct H1 as (_ & _ & meta & Hm & _ & _ & _ & _ & Hpres).
  specialize (Hpres Hnil).
  pose proof (Ingest_spec env' e' prefix (Ingest env e prefix w).2) as (_ & H2).
  cbv zeta in H2.
  destruct (Ingest env' e' prefix (Ingest env e prefix w).2).1 as [res2|err2].
  - destruct H2 as (_ & _ & meta' & Hm' & _ & _ & Hids & Hmono & _).
    rewrite Hb in Hm', Hids. assert (meta' = meta) as -> by congruence.
    split; [|apply Hmono]. intros Hid.
    destruct (index (Ingest env e prefix w).2 !! id) eqn:E; [eauto|].
    destruct (Hids id) as (f & Hf & ->).
    { intros Heq. rewrite Heq, E in Hid. destruct Hid as [d Hd]. discriminate Hd. }
    apply Hpres in Hf. rewrite E in Hf. exact Hf.
  - rewrite H2. reflexivity.
Qed.

Definition demoRun : World :=
  {| now := 0;
     bucket := {[ "scrapes/example.com/t-1/metadata.json" :=
                    Manifest {| Meta.SourceURL := "https://example.com";
                                Meta.Timestamp := "2024-12-04T17:30:00Z";
                                Meta.PageCount := 0; Meta.Pages := [] |};
                  "scrapes/example.com/t-1/pages/a.md" := Bytes "# A" ]};
     indexExists := false; index := ∅; trace := []; logs := [] |}.

Definition demoEngine : Engine := {| embedClient := false; llmClient := false |}.

Lemma Ingest_again_same_entries_witness :
  dom (index (Ingest (H:=plainLibs) Demo.env demoEngine "scrapes/example.com/t-1"
                (Ingest (H:=plainLibs) Demo.env demoEngine
                   "scrapes/example.com/t-1" demoRun).2).2)
  = dom (index (Ingest (H:=plainLibs) Demo.env demoEngine
                  "scrapes/example.com/t-1" demoRun).2).
Proof.
  eapply (@Ingest_again_same_entries plainLibs Demo.env Demo.env demoEngine demoEngine
            "scrapes/example.com/t-1" demoRun);
    [vm_compute; reflexivity | reflexivity].
Defined.

End IngestProps.

(* ================================================================== *)
(** * The direct pipeline *)
(* ================================================================== *)

Module RunProps.
Import Sys Effects Scraper ScraperFacts CrawlFacts Pipeline IndexFacts RunFacts.
Local Open Scope world_scope.

(** One scraped page in [Run]: either one document is written to the
    index, under the id of the page's URL, with the URL, the content type
    and the time of the scrape, and the count of indexed documents grows by
    one; or one error is recorded and the index stays as it is. *)
Theorem Run_page_outcome `{Libs} (env : Env) (p : Pipeline) (scraped : Document)
    (result : Result) (w : World) :
  let r := runPage env p scraped result w in
  bucket r.2 = bucket w /\ PagesScraped r.1 = PagesScraped result /\
  ((DocsIndexed r.1 = S (DocsIndexed result) /\ Errors r.1 = Errors result /\
    exists doc, index r.2 = <[GenerateDocumentID (URL scraped) := doc]> (index w) /\
                ID doc = GenerateDocumentID (URL scraped) /\ URL doc = URL scraped /\
                ContentType doc = ContentType scraped /\
                ScrapedAt doc = ScrapedAt scraped) \/
   (DocsIndexed r.1 = DocsIndexed result /\
    (exists err, Errors r.1 = Errors result ++ [err]) /\
    index r.2 = index w)).
Proof.
  cbv zeta.
  destruct (runPage_outcome env p scraped result w)
    as (Hb & [(-> & doc & Hd)|((err & ->) & Hi)]).
  - split; [exact Hb|]. split; [reflexivity|]. left.
    split; [reflexivity|]. split; [reflexivity|]. exists doc. exact Hd.
  - split; [exact Hb|]. split; [reflexivity|]. right. split; [reflexivity|].
    split; [exists err; reflexivity | exact Hi].
Qed.

(** [Run] fails only with the error of [CreateIndex], before any crawl.
    Otherwise every scraped page counts once, as an indexed document or as
    an error, and the only other error is the one of the crawl: one for a
    start URL that does not parse, the result then has no page; none when
    the context is never done. The store is never written. *)
Theorem Run_accounts `{Libs} (env : Env) (p : Pipeline) (startURL : string)
    (w : World) :
  let r := Run env p startURL w in
  bucket r.2 = bucket w /\
  match r.1 with
  | inr err => (Elasticsearch.CreateIndex env w).1 = Some err /\ index r.2 = index w
  | inl res =>
      PagesScraped res <= DocsIndexed res + length (Errors res) /\
      DocsIndexed res + length (Errors res) <= PagesScraped res + 1 /\
      match url_Parse startURL with
      | inr err => PagesScraped res = 0 /\ DocsIndexed res = 0 /\ Errors res = [err]
      | inl _ =>
          deadline env = None -> DocsIndexed res + length (Errors res) = PagesScraped res
      end
  end.
Proof.
  cbv zeta. unfold Run, bind, timeNow. cbv beta iota.
  pose proof (CreateIndex_spec env w) as (Hi1 & Hb1 & _). cbv zeta in Hi1, Hb1.
  destruct (Elasticsearch.CreateIndex env w) as [[cerr|] w1]; cbn [fst snd] in *.
  { unfold ret. cbn [fst snd]. split; [exact Hb1 | split; [reflexivity | exact Hi1]]. }
  pose proof (Scrape_SameBucket env (scraperConfig p) startURL w1) as Hb2.
  pose proof (Scrape_result env (scraperConfig p) startURL w1) as Hres.
  pose proof (Scrape_cancelled env (scraperConfig p) startURL w1) as Hcan.
  unfold SameBucket in Hb2. cbv zeta in Hres.
  destruct (Scrape env (scraperConfig p) startURL w1) as [[scrapedDocs serr] w2].
  cbn [fst snd] in *.
  match goal with
  | |- context [runPages env p scrapedDocs ?res w2] =>
      pose proof (runPages_outcome env p scrapedDocs res w2) as (Hb3 & Hp3 & (errs & He3 & Hsum3) & _);
      destruct (runPages env p scrapedDocs res w2) as [result w3]
  end.
  cbn [fst snd PagesScraped DocsIndexed Errors] in Hb3, Hp3, He3, Hsum3.
  pose proof (IngestFacts.Refresh_ReadOnly env w3) as (Hb4 & _).
  destruct (Elasticsearch.Refresh env w3) as [rerr w4]. cbn [fst snd] in Hb4.
  unfold ret. cbn [fst snd PagesScraped DocsIndexed Errors].
  split; [congruence|].
  assert (length (Errors result)
          = length errs + match serr with Some _ => 1 | None => 0 end) as Hlen.
  { rewrite He3, length_app. destruct serr; cbn [addError Errors length app]; lia. }
  assert (DocsIndexed result + length errs = length scrapedDocs) as Hsum.
  { rewrite Hsum3. destruct serr; cbn [addError DocsIndexed]; lia. }
  rewrite Hp3, Hlen. split; [lia|]. split; [destruct serr; lia|].
  destruct (url_Parse startURL) as [host|perr].
  - intros Hd. destruct serr as [err|]; [|lia].
    destruct (Hcan host err eq_refl eq_refl) as (_ & Hc & _).
    rewrite (IngestFacts.ctxErrAt_never env _ Hd) in Hc. discriminate.
  - injection Hres as -> ->. cbn [length] in Hsum.
    assert (errs = []) as -> by (destruct errs; [reflexivity | cbn [length] in Hsum; lia]).
    rewrite He3. cbn [addError Errors app]. repeat split; lia.
Qed.

End RunProps.

(* ================================================================== *)
(** * The model clients *)
(* ================================================================== *)

Module EnrichProps.
Import Str Sys GoStrings LLM EnrichFacts.
Local Open Scope world_scope.

(** [EnrichDocument] sends the first 20000 bytes of the content, the whole
    content when it is shorter. It asks for the tags and then for the
    summary, one request after the other; when the first request fails the
    second is not made, and when the second fails the tags are dropped. *)
Theorem EnrichDocument_calls (env : Env) (title content : string) (w : World) :
  let sent := take MaxContentForEnrichment content in
  let r := EnrichDocument env title content w in
  let tagsCall := chatCall env (now w) (TagsPrompt title sent) in
  let summaryCall := chatCall env (S (now w)) (SummaryPrompt title sent) in
  len sent <= MaxContentForEnrichment /\
  (len content <= MaxContentForEnrichment -> sent = content) /\
  match chatFault env (now w) with
  | Some _ =>
      trace r.2 = trace w ++ [tagsCall] /\
      exists cause, r.1 = inr ("failed to generate tags: " +:+ cause)
  | None =>
      trace r.2 = trace w ++ [tagsCall; summaryCall] /\
      match chatFault env (S (now w)) with
      | Some _ => exists cause, r.1 = inr ("failed to generate summary: " +:+ cause)
      | None =>
          r.1 = inl {| Tags := parseTags
                                 (TrimSpace (completion env (now w) (TagsPrompt title sent)));
                       Summary := TrimSpace (completion env (S (now w))
                                               (SummaryPrompt title sent)) |}
      end
  end.
Proof.
  cbv zeta. split; [apply len_take_le|]. split; [apply take_whole|].
  apply EnrichDocument_spec.
Qed.

(** The tags taken from the answer of the model: none is empty, none holds
    a comma, and none starts or ends with white space. *)
Theorem EnrichDocument_tags (tagsResp : string) :
  Forall (fun tag => tag <> "" /\ all (notByte ","%char) tag = true /\
                     stripSpace tag = None /\ stripSpaceEnd tag = None)
         (parseTags tagsResp).
Proof.
  unfold parseTags, Split. apply Forall_forall. intros tag Hin.
  apply list_elem_of_In, filter_In in Hin as [Hin Hne].
  apply in_map_iff in Hin as (piece & <- & Hpiece).
  pose proof (splitByte_pieces ","%char "" tagsResp eq_refl) as Hall.
  rewrite Forall_forall in Hall. specialize (Hall piece (proj2 (list_elem_of_In _ _) Hpiece)).
  split; [|split; [now apply TrimSpace_all | apply TrimSpace_trimmed]].
  intros E. rewrite E in Hne. discriminate.
Qed.

(** [Embed] makes one request, for the first 20000 bytes of the text, the
    whole text when it is shorter; it fails exactly when the request
    does. *)
Theorem Embed_call (env : Env) (text : string) (w : World) :
  let sent := take Embeddings.MaxInputChars text in
  let r := Embeddings.Embed env text w in
  len sent <= Embeddings.MaxInputChars /\
  (len text <= Embeddings.MaxInputChars -> sent = text) /\
  trace r.2 = trace w ++ [{| at_tick := now w; call := Sys.Embeddings sent;
                             failure := embedFault env (now w) |}] /\
  match embedFault env (now w) with
  | Some _ => exists err, r.1 = inr err
  | None => r.1 = inl (embedding env (now w) sent)
  end.
Proof.
  cbv zeta. split; [apply len_take_le|]. split; [apply take_whole|].
  apply Embed_spec.
Qed.

End EnrichProps.

(* ================================================================== *)
(** * Conversion and titles *)
(* ================================================================== *)

Module TitleFacts.
Import Str GoStrings.

Lemma find_first {A : Type} (p : A -> bool) (l : list A) :
  (Forall (fun x => p x = false) l /\ List.find p l = None) \/
  (exists before x after,
     l = before ++ x :: after /\ Forall (fun y => p y = false) before /\
     p x = true /\ List.find p l = Some x).
Proof.
  induction l as [|a l IH]; simpl.
  - left. split; [constructor | reflexivity].
  - destruct (p a) eqn:E.
    + right. exists [], a, l. repeat split; [constructor | exact E].
    + destruct IH as [[Hall Hf]|(before & x & after & -> & Hall & Hx & Hf)].
      * left. split; [now constructor | exact Hf].
      * right. exists (a :: before), x, after.
        repeat split; [now constructor | exact Hx | exact Hf].
Qed.

Lemma TrimPrefix_found (s prefix : string) :
  HasPrefix s prefix = true -> s = prefix +:+ TrimPrefix s prefix.
Proof.
  intros Hp. unfold TrimPrefix. rewrite Hp.
  apply HasPrefix_spec in Hp as [t ->]. now rewrite drop_app.
Qed.

End TitleFacts.

Module ConvertProps.
Import Str GoStrings EnrichFacts TitleFacts.

(** What [Convert] returns is trimmed: it neither starts nor ends with
    white space. Empty content converts to empty Markdown without the
    converter being asked; [Convert] fails only when the converter does.
    The title [ExtractTitle] returns is trimmed too, and empty for content
    that does not parse. *)
Theorem Processor_trimmed `{Libs} (htmlContent : string) :
  Processor.Convert "" = inl "" /\
  match Processor.Convert htmlContent with
  | inl markdown => stripSpace markdown = None /\ stripSpaceEnd markdown = None
  | inr err => htmlContent <> "" /\ htmltomarkdown_ConvertString htmlContent = inr err
  end /\
  stripSpace (Processor.ExtractTitle htmlContent) = None /\
  stripSpaceEnd (Processor.ExtractTitle htmlContent) = None /\
  (forall err, html_Parse htmlContent = inr err ->
               Processor.ExtractTitle htmlContent = "").
Proof.
  split; [reflexivity|]. split.
  - unfold Processor.Convert.
    destruct (String.eqb_spec htmlContent "") as [->|Hne]; [split; reflexivity|].
    destruct (htmltomarkdown_ConvertString htmlContent) as [markdown|err].
    + apply TrimSpace_trimmed.
    + split; [exact Hne | reflexivity].
  - unfold Processor.ExtractTitle.
    destruct (html_Parse htmlContent) as [doc|perr].
    + split; [apply TrimSpace_trimmed|]. split; [apply TrimSpace_trimmed | discriminate].
    + split; [reflexivity|]. split; [reflexivity|]. reflexivity.
Qed.

(** The title of a Markdown text is taken from its first line that, once
    trimmed, starts with a number sign and a space: it is what follows
    them, and it is never empty. Without such a line the title is empty. *)
Theorem extractMarkdownTitle_first_heading (content : string) :
  let lines := List.map TrimSpace (Split content Regexp.newline) in
  let heading := fun line => HasPrefix line "# " in
  (Forall (fun line => heading line = false) lines /\
   extractMarkdownTitle content = "") \/
  (exists before line after,
     lines = before ++ line :: after /\
     Forall (fun l => heading l = false) before /\
     line = "# " +:+ extractMarkdownTitle content /\
     extractMarkdownTitle content <> "").
Proof.
  cbv zeta. unfold extractMarkdownTitle.
  destruct (find_first (fun line => HasPrefix line "# ")
              (List.map TrimSpace (Split content Regexp.newline)))
    as [[Hall ->]|(before & line & after & E & Hall & Hp & ->)].
  - left. split; [exact Hall | reflexivity].
  - right. exists before, line, after.
    split; [exact E|]. split; [exact Hall|].
    pose proof (TrimPrefix_found line "# " Hp) as Hl.
    split; [exact Hl|]. intros Ht. rewrite Ht in Hl.
    assert (In line (List.map TrimSpace (Split content Regexp.newline))) as Hin.
    { rewrite E. apply in_or_app. right. now left. }
    apply in_map_iff in Hin as (raw & Hraw & _).
    destruct (TrimSpace_trimmed raw) as [_ Hend]. rewrite Hraw, Hl in Hend.
    discriminate Hend.
Qed.

End ConvertProps.

(* ================================================================== *)
(** * What a run leaves in the log and in the trace *)
(* ================================================================== *)

Module Journal.
Import Sys Effects ModelFacts.
Local Open Scope world_scope.

(** The log grows. *)
Definition Logged (w w' : World) : Prop := exists l, logs w' = logs w ++ l.

#[export] Instance Logged_refl : Reflexive Logged.
Proof. intros w. exists []. now rewrite app_nil_r. Qed.

#[export] Instance Logged_trans : Transitive Logged.
Proof.
  intros a b c [l1 H1] [l2 H2]. exists (l1 ++ l2). rewrite H2, H1.
  now rewrite List.app_assoc.
Qed.

Lemma Logged_same (w w' : World) : logs w' = logs w -> Logged w w'.
Proof. intros E. exists []. now rewrite app_nil_r. Qed.

Lemma Logged_elem (w w' : World) (entry : Level * string) :
  Logged w w' -> entry ∈ logs w -> entry ∈ logs w'.
Proof. intros [l ->] Hin. apply elem_of_app. now left. Qed.

Lemma slog_Logged l msg : Keeps Logged (slog l msg).
Proof. intros w. now exists [(l, msg)]. Qed.

Lemma slog_logs l msg w : (l, msg) ∈ logs (slog l msg w).2.
Proof. cbn. apply elem_of_app. right. constructor. Qed.

Lemma perform_Logged env c : Keeps Logged (perform env c).
Proof. intros w. now apply Logged_same. Qed.

Lemma timeNow_Logged env : Keeps Logged (timeNow env).
Proof. intros w. now apply Logged_same. Qed.

Lemma ctxErr_Logged env : Keeps Logged (ctxErr env).
Proof. intros w. now apply Logged_same. Qed.

Lemma setIndex_Logged x i : Keeps Logged (setIndex x i).
Proof. intros w. now apply Logged_same. Qed.

Lemma setBucket_Logged b : Keeps Logged (setBucket b).
Proof. intros w. now apply Logged_same. Qed.

#[export] Hint Resolve slog_Logged perform_Logged timeNow_Logged ctxErr_Logged
  setIndex_Logged setBucket_Logged : keeps.

Lemma EnrichDocument_Logged env title content :
  Keeps Logged (LLM.EnrichDocument env title content).
Proof. unfold LLM.EnrichDocument, LLM.Complete. keeps. Qed.

Lemma Embed_Logged env text : Keeps Logged (Embeddings.Embed env text).
Proof. unfold Embeddings.Embed. keeps. Qed.

(** The documents that the calls of a trace wrote to the index, in the
    order of the calls: a call that failed wrote none. *)
Definition written (ev : Event) : option Document :=
  match call ev, failure ev with
  | Index _ doc, None => Some doc
  | _, _ => None
  end.

Definition indexedDocs (evs : list Event) : list Document := omap written evs.

(** A call that is not a write to the index. *)
Definition NotIndex (ev : Event) : Prop :=
  match call ev with
  | Index _ _ => False
  | _ => True
  end.

Lemma indexedDocs_app evs evs' :
  indexedDocs (evs ++ evs') = indexedDocs evs ++ indexedDocs evs'.
Proof. apply omap_app. Qed.

Lemma indexedDocs_none evs : Forall NotIndex evs -> indexedDocs evs = [].
Proof.
  induction 1 as [|ev evs Hev _ IH]; [reflexivity|].
  unfold indexedDocs in *. cbn [omap list_omap]. rewrite IH.
  unfold written, NotIndex in *. now destruct (call ev).
Qed.

Lemma model_NotIndex ev : IsModelCall ev -> NotIndex ev.
Proof. unfold IsModelCall, NotIndex. now destruct (call ev). Qed.

Lemma Traces_none P (w w' : World) :
  (forall ev, P ev -> NotIndex ev) -> Traces P w w' ->
  exists evs, trace w' = trace w ++ evs /\ indexedDocs evs = [].
Proof.
  intros HP (evs & Ht & Hall). exists evs. split; [exact Ht|].
  apply indexedDocs_none. eapply Forall_impl; eauto.
Qed.

(** The index after the documents are written to it, one after the other,
    each under its id. *)
Definition upsert (i : gmap string Document) (docs : list Document)
    : gmap string Document :=
  fold_left (fun i doc => <[ID doc := doc]> i) docs i.

Lemma dom_upsert i docs :
  dom (upsert i docs) = dom i ∪ list_to_set (List.map ID docs).
Proof.
  revert i; induction docs as [|doc docs IH]; intros i; cbn [upsert fold_left List.map].
  - set_solver.
  - fold (upsert (<[ID doc := doc]> i) docs). rewrite IH, dom_insert_L.
    cbn [list_to_set]. set_solver.
Qed.

End Journal.

(* ================================================================== *)
(** * Enrichment, as the engine and the pipeline do it *)
(* ================================================================== *)

Module EnrichSteps.
Import Sys Effects ModelFacts Journal IngestFacts EnrichFacts.
Local Open Scope world_scope.

Section Facts.
Context `{Libs} (env : Env).

(** Tags and summary for a document, when there is a client for the chat
    model: the step of [processDocument] and of [Run]. *)
Definition enrich (llm : bool) (title mdContent : string) (doc : Document)
    : M Document :=
  if llm then
    enrichment <- LLM.EnrichDocument env title mdContent ;;
    match enrichment with
    | inr _ =>
        slog Warn "failed to enrich document" ;;
        ret doc
    | inl enriched =>
        slog Debug "document enriched" ;;
        ret {| ID := ID doc; URL := URL doc; Title := Title doc;
               Content := Content doc; ContentType := ContentType doc;
               ScrapedAt := ScrapedAt doc;
               Tags := LLM.Tags enriched; Summary := LLM.Summary enriched;
               Embedding := Embedding doc |}
    end
  else ret doc.

(** The embedding for a document, when there is a client for the embedding
    model. *)
Definition embed (emb : bool) (mdContent : string) (doc : Document) : M Document :=
  if emb then
    embedded <- Embeddings.Embed env mdContent ;;
    match embedded with
    | inr _ =>
        slog Warn "failed to generate embedding" ;;
        ret doc
    | inl vector =>
        ret {| ID := ID doc; URL := URL doc; Title := Title doc;
               Content := Content doc; ContentType := ContentType doc;
               ScrapedAt := ScrapedAt doc;
               Tags := Tags doc; Summary := Summary doc;
               Embedding := vector |}
    end
  else ret doc.

Definition withModels (llm emb : bool) (title mdContent : string) (doc : Document)
    : M Document :=
  doc <- enrich llm title mdContent doc ;;
  embed emb mdContent doc.

(** The fields that no model fills. *)
Definition SamePage (doc doc' : Document) : Prop :=
  ID doc' = ID doc /\ URL doc' = URL doc /\ Title doc' = Title doc /\
  Content doc' = Content doc /\ ContentType doc' = ContentType doc /\
  ScrapedAt doc' = ScrapedAt doc.

(** A document without what a model runner that is down would have
    given. *)
Definition Unenriched (doc : Document) : Prop :=
  ((forall t, chatFault env t <> None) -> Tags doc = [] /\ Summary doc = "") /\
  ((forall t, embedFault env t <> None) -> Embedding doc = []).

(** A document of a run: its id is the id of its URL, and it is without
    what a model runner that is down would have given. *)
Definition Plain (doc : Document) : Prop :=
  ID doc = GenerateDocumentID (URL doc) /\ Unenriched doc.

(** The requests the chat model gets for one document when the first is
    made at tick [t]: none without a client, one when the first fails, two
    otherwise. *)
Definition chatCalls (llm : bool) (t : nat) : nat :=
  if llm then match chatFault env t with Some _ => 1 | None => 2 end else 0.

(** What a failed call leaves: [doc] is the document made of the one whose
    enrichment started in world [w] and ended in world [w']. When one of the
    two requests to the chat model failed, it has no tags and no summary;
    when the request to the embedding model failed, it has no embedding;
    and the log has the warning. *)
Definition Degraded (llm emb : bool) (w : World) (doc : Document) (w' : World) : Prop :=
  (llm = true ->
   chatFault env (now w) <> None \/ chatFault env (S (now w)) <> None ->
   Tags doc = [] /\ Summary doc = "" /\
   (Warn, "failed to enrich document") ∈ logs w') /\
  (emb = true ->
   embedFault env (now w + chatCalls llm (now w)) <> None ->
   Embedding doc = [] /\ (Warn, "failed to generate embedding") ∈ logs w').

Lemma EnrichDocument_now title content w :
  now (LLM.EnrichDocument env title content w).2
  = now w + match chatFault env (now w) with Some _ => 1 | None => 2 end.
Proof.
  unfold LLM.EnrichDocument. cbv zeta. rewrite truncate_take.
  generalize (Str.take LLM.MaxContentForEnrichment content). intros sent.
  unfold LLM.Complete, bind, perform, slog, ret. cbv beta iota zeta.
  cbn [now faultOf fst snd].
  destruct (chatFault env (now w)); cbv beta iota; cbn [fst snd now]; [lia|].
  destruct (chatFault env (S (now w))); cbv beta iota; cbn [fst snd now]; lia.
Qed.

Lemma EnrichDocument_fails title content w :
  chatFault env (now w) <> None \/ chatFault env (S (now w)) <> None ->
  exists err, (LLM.EnrichDocument env title content w).1 = inr err.
Proof.
  intros Hf. pose proof (EnrichDocument_spec env title content w) as Hs.
  cbv zeta in Hs. destruct (chatFault env (now w)).
  - destruct Hs as [_ [cause ->]]. eauto.
  - destruct Hs as [_ Hs]. destruct (chatFault env (S (now w))).
    + destruct Hs as [cause ->]. eauto.
    + destruct Hf as [Hf|Hf]; now contradiction Hf.
Qed.

Lemma enrich_spec llm title mdContent doc w :
  let r := enrich llm title mdContent doc w in
  SamePage doc r.1 /\ Embedding r.1 = Embedding doc /\
  ReadOnly w r.2 /\ Traces IsModelCall w r.2 /\ Logged w r.2 /\
  now r.2 = now w + chatCalls llm (now w) /\
  (llm = false -> Tags r.1 = Tags doc /\ Summary r.1 = Summary doc) /\
  (llm = true ->
   chatFault env (now w) <> None \/ chatFault env (S (now w)) <> None ->
   Tags r.1 = Tags doc /\ Summary r.1 = Summary doc /\
   (Warn, "failed to enrich document") ∈ logs r.2).
Proof.
  cbv zeta. unfold enrich, SamePage, chatCalls. destruct llm.
  2:{ unfold ret. cbn [fst snd]. repeat split; try reflexivity; try discriminate. lia. }
  unfold bind.
  pose proof (EnrichDocument_ReadOnly env title mdContent w) as Hro.
  pose proof (EnrichDocument_Traces env title mdContent w) as Htr.
  pose proof (EnrichDocument_Logged env title mdContent w) as Hlg.
  pose proof (EnrichDocument_fails title mdContent w) as Hfails.
  pose proof (EnrichDocument_now title mdContent w) as Hnow.
  destruct (LLM.EnrichDocument env title mdContent w) as [[enriched|err] w1];
    cbn [fst snd] in Hro, Htr, Hlg, Hfails, Hnow.
  - pose proof (slog_ReadOnly Debug "document enriched" w1) as Hro2.
    pose proof (slog_Traces IsModelCall Debug "document enriched" w1) as Htr2.
    pose proof (slog_Logged Debug "document enriched" w1) as Hlg2.
    set (w2 := (slog Debug "document enriched" w1).2) in *.
    change (slog Debug "document enriched" w1) with (tt, w2). unfold ret.
    cbv beta iota. cbn [fst snd ID URL Title Content ContentType ScrapedAt Embedding].
    split; [auto 10|]. split; [reflexivity|].
    split; [etransitivity; eassumption|]. split; [etransitivity; eassumption|].
    split; [etransitivity; eassumption|]. split; [exact Hnow|].
    split; [discriminate|].
    intros _ Hf. destruct (Hfails Hf) as [err Herr]. discriminate Herr.
  - pose proof (slog_ReadOnly Warn "failed to enrich document" w1) as Hro2.
    pose proof (slog_Traces IsModelCall Warn "failed to enrich document" w1) as Htr2.
    pose proof (slog_Logged Warn "failed to enrich document" w1) as Hlg2.
    pose proof (slog_logs Warn "failed to enrich document" w1) as Hin.
    set (w2 := (slog Warn "failed to enrich document" w1).2) in *.
    change (slog Warn "failed to enrich document" w1) with (tt, w2). unfold ret.
    cbv beta iota. cbn [fst snd].
    split; [auto 10|]. split; [reflexivity|].
    split; [etransitivity; eassumption|]. split; [etransitivity; eassumption|].
    split; [etransitivity; eassumption|]. split; [exact Hnow|]. auto.
Qed.

Lemma embed_spec emb mdContent doc w :
  let r := embed emb mdContent doc w in
  SamePage doc r.1 /\ Tags r.1 = Tags doc /\ Summary r.1 = Summary doc /\
  ReadOnly w r.2 /\ Traces IsModelCall w r.2 /\ Logged w r.2 /\
  (emb = false -> Embedding r.1 = Embedding doc) /\
  (emb = true -> embedFault env (now w) <> None ->
   Embedding r.1 = Embedding doc /\
   (Warn, "failed to generate embedding") ∈ logs r.2).
Proof.
  cbv zeta. unfold embed, SamePage. destruct emb.
  2:{ unfold ret. cbn [fst snd]. repeat split; try reflexivity; discriminate. }
  unfold bind.
  pose proof (Embed_ReadOnly env mdContent w) as Hro.
  pose proof (Embed_Traces env mdContent w) as Htr.
  pose proof (Embed_Logged env mdContent w) as Hlg.
  pose proof (Embed_down env mdContent w) as Hdown.
  destruct (Embeddings.Embed env mdContent w) as [[vector|err] w1];
    cbn [fst snd] in Hro, Htr, Hlg, Hdown.
  - unfold ret. cbn [fst snd ID URL Title Content ContentType ScrapedAt Tags Summary].
    split; [auto 10|]. split; [reflexivity|]. split; [reflexivity|].
    split; [exact Hro|]. split; [exact Htr|]. split; [exact Hlg|].
    split; [discriminate|].
    intros _ Hf. destruct (Hdown Hf) as [err Herr]. discriminate Herr.
  - pose proof (slog_ReadOnly Warn "failed to generate embedding" w1) as Hro2.
    pose proof (slog_Traces IsModelCall Warn "failed to generate embedding" w1) as Htr2.
    pose proof (slog_Logged Warn "failed to generate embedding" w1) as Hlg2.
    pose proof (slog_logs Warn "failed to generate embedding" w1) as Hin.
    set (w2 := (slog Warn "failed to generate embedding" w1).2) in *.
    change (slog Warn "failed to generate embedding" w1) with (tt, w2). unfold ret.
    cbv beta iota. cbn [fst snd].
    split; [auto 10|]. split; [reflexivity|]. split; [reflexivity|].
    split; [etransitivity; eassumption|]. split; [etransitivity; eassumption|].
    split; [etransitivity; eassumption|]. auto.
Qed.

(** Both steps, for a document that comes without tags, summary and
    embedding: the page is kept, only the model runner is called, a field
    is filled only by a client that is there, and a call that fails leaves
    its fields empty and a warning in the log. *)
Lemma withModels_spec llm emb title mdContent doc w :
  Tags doc = [] -> Summary doc = "" -> Embedding doc = [] ->
  let r := withModels llm emb title mdContent doc w in
  SamePage doc r.1 /\
  ReadOnly w r.2 /\ Traces IsModelCall w r.2 /\ Logged w r.2 /\
  (llm = false -> Tags r.1 = [] /\ Summary r.1 = "") /\
  (emb = false -> Embedding r.1 = []) /\
  Degraded llm emb w r.1 r.2.
Proof.
  intros Htags Hsummary Hvector. cbv zeta. unfold withModels, bind.
  pose proof (enrich_spec llm title mdContent doc w)
    as (Hs1 & Hv1 & Hro1 & Htr1 & Hlg1 & Hn1 & Hno1 & Hf1).
  destruct (enrich llm title mdContent doc w) as [doc1 w1]. cbn [fst snd] in *.
  pose proof (embed_spec emb mdContent doc1 w1)
    as (Hs2 & Hta2 & Hsu2 & Hro2 & Htr2 & Hlg2 & Hno2 & Hf2).
  destruct (embed emb mdContent doc1 w1) as [doc2 w2]. cbn [fst snd] in *.
  split.
  { unfold SamePage in *. destruct Hs1 as (? & ? & ? & ? & ? & ?).
    destruct Hs2 as (? & ? & ? & ? & ? & ?). repeat split; congruence. }
  split; [etransitivity; eassumption|]. split; [etransitivity; eassumption|].
  split; [etransitivity; eassumption|]. split.
  { intros Hc. destruct (Hno1 Hc). split; congruence. }
  split.
  { intros Hc. rewrite (Hno2 Hc). congruence. }
  split.
  - intros Hllm Hf. destruct (Hf1 Hllm Hf) as (Ht & Hsu & Hw).
    split; [congruence|]. split; [congruence|].
    eapply Logged_elem; [exact Hlg2 | exact Hw].
  - intros Hemb Hf. rewrite <- Hn1 in Hf. destruct (Hf2 Hemb Hf) as (Hv & Hw).
    split; [congruence | exact Hw].
Qed.

(** A runner that is down fails every call. *)
Lemma Degraded_Unenriched llm emb w doc w' :
  (llm = false -> Tags doc = [] /\ Summary doc = "") ->
  (emb = false -> Embedding doc = []) ->
  Degraded llm emb w doc w' -> Unenriched doc.
Proof.
  intros Hl He [Hc Hv]. split.
  - intros Hall. destruct llm; [|auto].
    destruct (Hc eq_refl (or_introl (Hall _))) as (? & ? & _). auto.
  - intros Hall. destruct emb; [|auto].
    destruct (Hv eq_refl (Hall _)) as (? & _). auto.
Qed.

(** [processDocument] is the conversion followed by the two steps. *)
Lemma processDocument_withModels (e : Ingestion.Engine) pageURL content w :
  Ingestion.processDocument env e pageURL content w
  = match conversion pageURL content with
    | inr err => (inr err, w)
    | inl (mdContent, title) =>
        let title := if String.eqb title "" then pageURL else title in
        let r := withModels (Ingestion.llmClient e) (Ingestion.embedClient e)
                   title mdContent
                   {| ID := GenerateDocumentID pageURL; URL := pageURL;
                      Title := title; Content := mdContent; ContentType := "";
                      ScrapedAt := wallClock env (now w);
                      Tags := []; Summary := ""; Embedding := [] |} w in
        (inl r.1, r.2)
    end.
Proof.
  unfold Ingestion.processDocument, conversion. cbv zeta.
  destruct (if Markdown.Detect pageURL "" content then _ else _) as [[mdContent title]|err];
    [|reflexivity].
  unfold withModels, enrich, embed, bind, timeNow. cbv beta iota.
  destruct (Ingestion.llmClient e);
    [destruct (LLM.EnrichDocument env _ _ w) as [[enr|err] w1]|];
    unfold slog, ret; cbv beta iota;
    (destruct (Ingestion.embedClient e);
     [match goal with
      | |- context [Embeddings.Embed env ?c ?w'] =>
          destruct (Embeddings.Embed env c w') as [[v|err'] w2]
      end|]);
    reflexivity.
Qed.

(** What [Run] makes of a scraped page before any model is asked. *)
Definition pageConversion (scraped : Document) : string * string + error :=
  if Markdown.Detect (URL scraped) (ContentType scraped) (Content scraped)
  then inl (Content scraped, extractMarkdownTitle (Content scraped))
  else match Processor.Convert (Content scraped) with
       | inr err => inr err
       | inl mdContent => inl (mdContent, Processor.ExtractTitle (Content scraped))
       end.

(** One page of [Run] is the conversion, the two steps and the write to
    the index. *)
Lemma runPage_withModels (p : Pipeline.Pipeline) scraped result w :
  Pipeline.runPage env p scraped result w
  = match pageConversion scraped with
    | inr err => (Pipeline.addError result err, w)
    | inl (mdContent, title) =>
        let title := if String.eqb title "" then URL scraped else title in
        let r := withModels (Pipeline.llmClient p) (Pipeline.embedClient p)
                   title mdContent
                   {| ID := GenerateDocumentID (URL scraped); URL := URL scraped;
                      Title := title; Content := mdContent;
                      ContentType := ContentType scraped;
                      ScrapedAt := ScrapedAt scraped;
                      Tags := []; Summary := ""; Embedding := [] |} w in
        let i := Elasticsearch.IndexDocument env r.1 r.2 in
        (match i.1 with
         | Some err => Pipeline.addError result err
         | None => Pipeline.addIndexed result
         end, i.2)
    end.
Proof.
  unfold Pipeline.runPage, pageConversion. cbv zeta.
  destruct (if Markdown.Detect _ _ _ then _ else _) as [[mdContent title]|err];
    [|reflexivity].
  unfold withModels, enrich, embed, bind. cbv beta iota.
  destruct (Pipeline.llmClient p);
    [destruct (LLM.EnrichDocument env _ _ w) as [[enr|err] w1]|];
    unfold slog, ret; cbv beta iota;
    (destruct (Pipeline.embedClient p);
     [match goal with
      | |- context [Embeddings.Embed env ?c ?w'] =>
          destruct (Embeddings.Embed env c w') as [[v|err'] w2]
      end|]);
    cbv beta iota; cbn [fst snd];
    match goal with
    | |- context [Elasticsearch.IndexDocument env ?d ?w'] =>
        destruct (Elasticsearch.IndexDocument env d w') as [[ierr|] w3]
    end; reflexivity.
Qed.

End Facts.
End EnrichSteps.

(* ================================================================== *)
(** * Ingestion with a store and an index that answer *)
(* ================================================================== *)

Module IngestSteps.
Import Sys Effects Ingestion ModelFacts StorageFacts IndexFacts IngestFacts.
Import Journal EnrichSteps.
Local Open Scope world_scope.

(** The store and the index answer every call, and the context is never
    done. *)
Definition Answers (env : Env) : Prop :=
  (forall t, storageFault env t = None) /\
  (forall t, indexFault env t = None) /\
  deadline env = None.

Section Facts.
Context `{Libs} (env : Env) (e : Engine).

(** What a read of a page file gives when the store answers. *)
Definition stored (prefix filename : string) (b : gmap string Object)
    : string + error :=
  match b !! pageName prefix filename with
  | None => inr "failed to read markdown: The specified key does not exist."
  | Some (Bytes data) => inl data
  | Some (Manifest meta) => inl (json_MarshalIndent meta)
  end.

Lemma GetMarkdown_stored prefix filename w :
  storageFault env (now w) = None ->
  (Storage.GetMarkdown env prefix filename w).1 = stored prefix filename (bucket w).
Proof.
  intros Hf. unfold Storage.GetMarkdown, stored, pageName, bind, perform, getWorld, ret.
  cbv beta iota zeta. cbn [fst snd bucket now faultOf]. rewrite Hf.
  cbv beta iota. cbn [fst bucket].
  destruct (bucket w !! _) as [[data|meta]|]; reflexivity.
Qed.

Lemma GetMarkdown_Traces prefix filename :
  Keeps (Traces NotIndex) (Storage.GetMarkdown env prefix filename).
Proof.
  unfold Storage.GetMarkdown. cbv zeta.
  apply Keeps_bind; [exact _ | | intros r; keeps].
  apply perform_Traces. intros t. exact I.
Qed.

Lemma GetMarkdown_Logged prefix filename :
  Keeps Logged (Storage.GetMarkdown env prefix filename).
Proof. unfold Storage.GetMarkdown. keeps. Qed.

(** [processDocument] on a content that converts: the document, and what
    the run leaves. *)
Lemma processDocument_converted pageURL content mdContent title w :
  conversion pageURL content = inl (mdContent, title) ->
  let r := processDocument env e pageURL content w in
  exists doc, r.1 = inl doc /\
    ID doc = GenerateDocumentID pageURL /\ URL doc = pageURL /\
    Content doc = mdContent /\ Unenriched env doc /\
    ReadOnly w r.2 /\ Traces IsModelCall w r.2 /\ Logged w r.2 /\
    Degraded env (llmClient e) (embedClient e) w doc r.2.
Proof.
  intros Hc. cbv zeta. rewrite processDocument_withModels, Hc. cbv zeta.
  match goal with
  | |- context [withModels env ?l ?m ?t ?c ?d w] =>
      pose proof (withModels_spec env l m t c d w eq_refl eq_refl eq_refl)
        as (Hs & Hro & Htr & Hlg & Ht & Hv & Hdeg);
      destruct (withModels env l m t c d w) as [doc w1]
  end.
  cbn [fst snd] in *. exists doc.
  destruct Hs as (Hid & Hurl & _ & Hcontent & _).
  cbn [ID URL Content] in *.
  split; [reflexivity|]. split; [exact Hid|]. split; [exact Hurl|].
  split; [exact Hcontent|].
  split; [exact (Degraded_Unenriched env _ _ _ _ _ Ht Hv Hdeg)|]. auto.
Qed.

(** One file, when the index answers: what is read and whether it converts
    decide the outcome. *)
Lemma ingestFileAs_step prefix filename pageURL result w :
  (forall t, indexFault env t = None) ->
  let r := ingestFileAs env e prefix filename pageURL result w in
  bucket r.2 = bucket w /\
  exists evs, trace r.2 = trace w ++ evs /\
  match (Storage.GetMarkdown env prefix filename w).1 with
  | inr err => r.1 = addError result err /\ index r.2 = index w /\ indexedDocs evs = []
  | inl content =>
      match conversion pageURL content with
      | inr err =>
          r.1 = addError result err /\ index r.2 = index w /\ indexedDocs evs = []
      | inl (mdContent, _) =>
          r.1 = addIndexed result /\
          exists doc, index r.2 = <[GenerateDocumentID pageURL := doc]> (index w) /\
                      indexedDocs evs = [doc] /\
                      ID doc = GenerateDocumentID pageURL /\ URL doc = pageURL /\
                      Content doc = mdContent /\ Unenriched env doc
      end
  end.
Proof.
  intros Hindex. cbv zeta.
  destruct (ingestFileAs_outcome env e prefix filename pageURL result w) as (Hb & _).
  split; [exact Hb|]. clear Hb. unfold ingestFileAs, bind.
  pose proof (GetMarkdown_ReadOnly env prefix filename w) as (_ & Hi1 & _ & _).
  destruct (Traces_none NotIndex w _ (fun ev Hev => Hev)
              (GetMarkdown_Traces prefix filename w)) as (evs1 & Ht1 & Hn1).
  destruct (Storage.GetMarkdown env prefix filename w) as [[content|err] w1];
    cbn [fst snd] in Hi1, Ht1 |- *.
  2:{ unfold ret. cbn [fst snd]. exists evs1. auto. }
  destruct (conversion pageURL content) as [[mdContent title]|cerr] eqn:Hc.
  - destruct (processDocument_converted pageURL content mdContent title w1 Hc)
      as (doc & Hdoc & Hid & Hurl & Hcontent & Hun & Hro & Htr & _ & _).
    destruct (Traces_none IsModelCall _ _ model_NotIndex Htr) as (evs2 & Ht2 & Hn2).
    destruct Hro as (_ & Hi2 & _ & _).
    destruct (processDocument env e pageURL content w1) as [[doc'|err] w2];
      cbn [fst snd] in Hi2, Hdoc, Ht2; [|discriminate].
    injection Hdoc as ->.
    set (w3 := (slog Debug "indexing document" w2).2).
    change (slog Debug "indexing document" w2) with (tt, w3). cbv beta iota.
    pose proof (IndexDocument_spec env doc w3) as (Ht3 & _ & _ & _ & Hr).
    cbv zeta in Ht3, Hr. rewrite Hindex in Ht3, Hr.
    destruct (Elasticsearch.IndexDocument env doc w3) as [ierr w4].
    cbn [fst snd] in Ht3, Hr. change (index w3) with (index w2) in Hr.
    change (trace w3) with (trace w2) in Ht3.
    destruct Hr as (-> & Hi4 & _).
    unfold slog, ret. cbv beta iota. cbn [fst snd index trace logs].
    eexists. split.
    { rewrite Ht3, Ht2, Ht1, <- !List.app_assoc. reflexivity. }
    split; [reflexivity|]. exists doc.
    split; [rewrite Hi4, Hid, Hi2, Hi1; reflexivity|].
    split.
    { rewrite !indexedDocs_app, Hn1, Hn2. reflexivity. }
    split; [exact Hid|]. split; [exact Hurl|]. split; [exact Hcontent|].
    exact Hun.
  - pose proof (processDocument_result env e pageURL content w1) as Hres.
    rewrite Hc in Hres. rewrite Hres. unfold ret. cbn [fst snd].
    exists evs1. auto.
Qed.

(** Whether a file of a run can be ingested: it can be read and what is
    read converts. *)
Definition ingestible (prefix : string) (urlToFile : gmap string string)
    (b : gmap string Object) (filename : string) : bool :=
  match stored prefix filename b with
  | inl content =>
      match conversion (urlOf urlToFile filename) content with
      | inl _ => true
      | inr _ => false
      end
  | inr _ => false
  end.

Section Healthy.
Hypothesis storage_answers : forall t, storageFault env t = None.
Hypothesis index_answers : forall t, indexFault env t = None.

Lemma ingestFile_healthy prefix urlToFile filename result w :
  let r := ingestFile env e prefix urlToFile filename result w in
  let pageURL := urlOf urlToFile filename in
  bucket r.2 = bucket w /\
  exists evs, trace r.2 = trace w ++ evs /\
  if ingestible prefix urlToFile (bucket w) filename
  then r.1 = addIndexed result /\
       exists doc, index r.2 = <[ID doc := doc]> (index w) /\
                   indexedDocs evs = [doc] /\ URL doc = pageURL /\ Plain env doc
  else (exists err, r.1 = addError result err) /\ index r.2 = index w /\
       indexedDocs evs = [].
Proof.
  cbv zeta. unfold ingestFile, pageURLOf, ingestible, urlOf, bind.
  assert (forall pageURL w0, bucket w0 = bucket w -> index w0 = index w ->
            trace w0 = trace w ->
            let r := ingestFileAs env e prefix filename pageURL result w0 in
            bucket r.2 = bucket w /\
            exists evs, trace r.2 = trace w ++ evs /\
            if match stored prefix filename (bucket w) with
               | inl content =>
                   match conversion pageURL content with
                   | inl _ => true
                   | inr _ => false
                   end
               | inr _ => false
               end
            then r.1 = addIndexed result /\
                 exists doc, index r.2 = <[ID doc := doc]> (index w) /\
                             indexedDocs evs = [doc] /\ URL doc = pageURL /\ Plain env doc
            else (exists err, r.1 = addError result err) /\ index r.2 = index w /\
                 indexedDocs evs = [])
    as Hstep.
  { intros pageURL w0 Hb0 Hi0 Ht0. cbv zeta.
    pose proof (ingestFileAs_step prefix filename pageURL result w0 index_answers)
      as (Hb & evs & Ht & Hs).
    cbv zeta in Hb, Ht, Hs. split; [congruence|]. exists evs.
    split; [congruence|].
    rewrite (GetMarkdown_stored prefix filename w0 (storage_answers _)), Hb0 in Hs.
    destruct (stored prefix filename (bucket w)) as [content|err].
    - destruct (conversion pageURL content) as [[md title]|cerr].
      + destruct Hs as (Hr & doc & Hi & Hn & Hid & Hurl & _ & Hun).
        split; [exact Hr|]. exists doc. rewrite Hi, Hi0, Hid.
        split; [reflexivity|]. split; [exact Hn|]. split; [exact Hurl|].
        split; [congruence | exact Hun].
      + destruct Hs as (Hr & Hi & Hn). split; [eauto|]. split; [congruence | exact Hn].
    - destruct Hs as (Hr & Hi & Hn). split; [eauto|]. split; [congruence | exact Hn]. }
  destruct (urlToFile !! filename) as [pageURL|]; cbn [from_option id].
  - unfold ret. cbv beta iota. apply (Hstep pageURL w); reflexivity.
  - unfold ret. cbv beta iota.
    apply (Hstep filename (slog Warn "no URL found for file" w).2); reflexivity.
Qed.

Hypothesis never_done : deadline env = None.

(** The files of a run, one after the other: the files that can be
    ingested are indexed, in order, each under the URL the manifest has for
    it; every other file gives one error. *)
Lemma ingestFiles_healthy prefix urlToFile files result w :
  let r := ingestFiles env e prefix urlToFile files result w in
  let ok := List.filter (ingestible prefix urlToFile (bucket w)) files in
  bucket r.2 = bucket w /\
  DocsIndexed r.1 = DocsIndexed result + length ok /\
  (exists errs, Errors r.1 = Errors result ++ errs /\
                length errs + length ok = length files) /\
  exists evs, trace r.2 = trace w ++ evs /\
    List.map URL (indexedDocs evs) = List.map (urlOf urlToFile) ok /\
    Forall (Plain env) (indexedDocs evs) /\
    index r.2 = upsert (index w) (indexedDocs evs).
Proof.
  cbv zeta. revert result w. induction files as [|filename rest IH]; intros result w.
  - cbn [ingestFiles List.filter List.map length]. unfold ret. cbn [fst snd].
    split; [reflexivity|]. split; [lia|]. split.
    { exists []. now rewrite app_nil_r. }
    exists []. rewrite app_nil_r. repeat split. constructor.
  - cbn [ingestFiles]. unfold bind, ctxErr. cbv beta iota.
    rewrite (ctxErrAt_never env _ never_done).
    pose proof (ingestFile_healthy prefix urlToFile filename result w) as Hf.
    cbv zeta in Hf.
    destruct (ingestFile env e prefix urlToFile filename result w) as [result' w1].
    cbn [fst snd] in Hf. destruct Hf as (Hb1 & evs1 & Ht1 & Hcase).
    destruct (IH result' w1)
      as (Hb2 & Hn2 & (errs & He2 & Hl2) & evs2 & Ht2 & Hu2 & Hp2 & Hi2).
    rewrite Hb1 in Hn2, Hl2, Hu2.
    split; [congruence|]. cbn [List.filter].
    destruct (ingestible prefix urlToFile (bucket w) filename).
    + destruct Hcase as (-> & doc0 & Hi1 & Hd1 & Hurl0 & Hplain0).
      cbn [addIndexed DocsIndexed Errors length List.map] in *.
      split; [lia|]. split; [exists errs; split; [exact He2 | lia]|].
      exists (evs1 ++ evs2). rewrite indexedDocs_app, Hd1. cbn [app List.map].
      split; [rewrite Ht2, Ht1; now rewrite List.app_assoc|].
      split; [now rewrite Hurl0, Hu2|]. split; [now constructor|].
      rewrite Hi2, Hi1. reflexivity.
    + destruct Hcase as ((err & ->) & Hi1 & Hd1).
      cbn [addError DocsIndexed Errors length] in *.
      split; [lia|]. split.
      { exists (err :: errs). rewrite He2, <- List.app_assoc. cbn [length].
        split; [reflexivity | lia]. }
      exists (evs1 ++ evs2). rewrite indexedDocs_app, Hd1. cbn [app].
      split; [rewrite Ht2, Ht1; now rewrite List.app_assoc|].
      split; [exact Hu2|]. split; [exact Hp2|]. rewrite Hi2, Hi1. reflexivity.
Qed.

Lemma CreateIndex_healthy w :
  let r := Elasticsearch.CreateIndex env w in
  r.1 = None /\ exists evs, trace r.2 = trace w ++ evs /\ indexedDocs evs = [].
Proof.
  unfold Elasticsearch.CreateIndex, bind, perform, getWorld, setIndex, ret.
  cbv beta iota zeta. cbn [fst snd faultOf now indexExists]. rewrite index_answers.
  cbv beta iota. cbn [indexExists].
  destruct (indexExists w); cbv beta iota zeta; cbn [fst snd now trace];
    rewrite ?index_answers; (split; [reflexivity|]); eexists;
    (split; [try rewrite <- List.app_assoc; reflexivity | reflexivity]).
Qed.

Lemma GetMetadata_stored prefix w :
  let r := Storage.GetMetadata env prefix w in
  match storedManifest prefix (bucket w) with
  | Some meta => r.1 = inl meta
  | None => exists err, r.1 = inr err
  end /\
  exists evs, trace r.2 = trace w ++ evs /\ indexedDocs evs = [].
Proof.
  unfold Storage.GetMetadata, storedManifest, manifestName, bind, perform, getWorld, ret.
  cbv beta iota zeta. cbn [fst snd bucket now faultOf]. rewrite storage_answers.
  cbv beta iota. cbn [fst bucket].
  destruct (bucket w !! _) as [[data|meta]|]; cbv beta iota; cbn [fst snd trace];
    [destruct (json_Unmarshal data); cbv beta iota; cbn [fst snd trace]| |];
    (split; [eauto|]); eexists; (split; [reflexivity | reflexivity]).
Qed.

Lemma ListMarkdownFiles_stored prefix w :
  let r := Storage.ListMarkdownFiles env prefix w in
  r.1 = inl (storedFiles prefix (bucket w)) /\
  exists evs, trace r.2 = trace w ++ evs /\ indexedDocs evs = [].
Proof.
  unfold Storage.ListMarkdownFiles, storedFiles, bind, perform, getWorld, ret.
  cbv beta iota zeta. cbn [fst snd bucket now faultOf]. rewrite storage_answers.
  split; [reflexivity|]. eexists. split; reflexivity.
Qed.

(** A whole ingestion: it fails only for want of a manifest; otherwise
    the files that can be ingested are indexed, in the order of the listing,
    and these writes are all that happens to the index. *)
Lemma Ingest_healthy prefix w :
  let r := Ingest env e prefix w in
  bucket r.2 = bucket w /\
  exists calls, trace r.2 = trace w ++ calls /\
  match storedManifest prefix (bucket w) with
  | None => (exists err, r.1 = inr err) /\ index r.2 = index w /\ indexedDocs calls = []
  | Some meta =>
      let urlToFile := buildURLToFile (Meta.Pages meta) in
      let files := storedFiles prefix (bucket w) in
      let ok := List.filter (ingestible prefix urlToFile (bucket w)) files in
      exists res, r.1 = inl res /\
        DocsIndexed res = length ok /\
        length (Errors res) + length ok = length files /\
        List.map URL (indexedDocs calls) = List.map (urlOf urlToFile) ok /\
        Forall (Plain env) (indexedDocs calls) /\
        index r.2 = upsert (index w) (indexedDocs calls)
  end.
Proof.
  cbv zeta. destruct (Ingest_spec env e prefix w) as [Hb _]. split; [exact Hb|]. clear Hb.
  unfold Ingest, bind, timeNow. cbv beta iota.
  set (w1 := (slog Info "starting ingestion" w).2).
  change (slog Info "starting ingestion" w) with (tt, w1). cbv beta iota.
  pose proof (CreateIndex_spec env w1) as (Hi1 & Hb1 & _). cbv zeta in Hi1, Hb1.
  change (bucket w1) with (bucket w) in Hb1. change (index w1) with (index w) in Hi1.
  pose proof (CreateIndex_healthy w1) as (Hc & evs1 & Ht1 & Hn1). cbv zeta in Hc, Ht1.
  change (trace w1) with (trace w) in Ht1.
  destruct (Elasticsearch.CreateIndex env w1) as [created w2]. cbn [fst snd] in *.
  subst created.
  pose proof (GetMetadata_ReadOnly env prefix w2) as (Hb2 & Hi2 & _ & _).
  pose proof (GetMetadata_stored prefix w2) as (Hm & evs2 & Ht2 & Hn2).
  cbv zeta in Hm, Ht2. rewrite Hb1 in Hm.
  destruct (storedManifest prefix (bucket w)) as [meta|].
  2:{ destruct Hm as [err Hm].
      destruct (Storage.GetMetadata env prefix w2) as [got w3]. cbn [fst snd] in *.
      subst got. unfold ret. cbn [fst snd]. exists (evs1 ++ evs2).
      split; [rewrite Ht2, Ht1; now rewrite List.app_assoc|].
      split; [eauto|]. split; [congruence|].
      rewrite indexedDocs_app, Hn1, Hn2. reflexivity. }
  destruct (Storage.GetMetadata env prefix w2) as [got w3]. cbn [fst snd] in *.
  subst got.
  pose proof (ListMarkdownFiles_ReadOnly env prefix w3) as (Hb3 & Hi3 & _ & _).
  pose proof (ListMarkdownFiles_stored prefix w3) as (Hl & evs3 & Ht3 & Hn3).
  cbv zeta in Hl, Ht3.
  destruct (Storage.ListMarkdownFiles env prefix w3) as [listed w4]. cbn [fst snd] in *.
  subst listed.
  assert (bucket w3 = bucket w) as Hbw3 by congruence. rewrite Hbw3.
  set (w5 := (slog Info "found files to ingest" w4).2).
  change (slog Info "found files to ingest" w4) with (tt, w5). cbv beta iota.
  pose proof (ingestFiles_healthy prefix (buildURLToFile (Meta.Pages meta))
                (storedFiles prefix (bucket w))
                {| Prefix := prefix; DocsIndexed := 0; Duration := 0; Errors := [] |} w5)
    as (_ & Hn & (errs & He & Hlen) & evs4 & Ht4 & Hu4 & Hp4 & Hi4).
  cbv zeta in Hn, He, Hlen, Ht4, Hu4, Hi4.
  change (bucket w5) with (bucket w4) in Hn, Hlen, Hu4.
  change (index w5) with (index w4) in Hi4. change (trace w5) with (trace w4) in Ht4.
  assert (bucket w4 = bucket w) as Hbw4 by congruence.
  assert (index w4 = index w) as Hiw4 by congruence.
  rewrite Hbw4 in Hn, Hlen, Hu4. rewrite Hiw4 in Hi4.
  destruct (ingestFiles env e prefix _ _ _ w5) as [result w6]. cbn [fst snd] in *.
  pose proof (Refresh_ReadOnly env w6) as (_ & Hi6 & _ & _).
  assert (exists ev, trace (Elasticsearch.Refresh env w6).2 = trace w6 ++ [ev] /\
                     indexedDocs [ev] = []) as (ev5 & Ht5 & Hn5).
  { unfold Elasticsearch.Refresh, bind, perform, ret. cbv beta iota zeta.
    cbn [fst snd trace]. eexists. split; reflexivity. }
  destruct (Elasticsearch.Refresh env w6) as [rerr w7]. cbn [fst snd] in *.
  unfold slog, ret. cbv beta iota.
  cbn [fst snd index trace DocsIndexed Errors].
  cbn [DocsIndexed Errors app] in Hn, He.
  exists (evs1 ++ evs2 ++ evs3 ++ evs4 ++ [ev5]).
  split.
  { rewrite Ht5, Ht4, Ht3, Ht2, Ht1, <- !List.app_assoc. reflexivity. }
  rewrite !indexedDocs_app, Hn1, Hn2, Hn3, Hn5, app_nil_r. cbn [app].
  eexists. split; [reflexivity|]. cbn [DocsIndexed Errors].
  rewrite Hi6, He. auto 10.
Qed.

End Healthy.

End Facts.
End IngestSteps.

(* ================================================================== *)
(** * The direct pipeline with an index that answers *)
(* ================================================================== *)

Module PipelineSteps.
Import Sys Effects Pipeline ModelFacts IndexFacts Journal EnrichSteps.
Local Open Scope world_scope.

Section Facts.
Context `{Libs} (env : Env) (p : Pipeline).

(** Whether a scraped page converts. *)
Definition convertible (scraped : Document) : bool :=
  match pageConversion scraped with
  | inl _ => true
  | inr _ => false
  end.

Hypothesis index_answers : forall t, indexFault env t = None.

(** One page: whether it converts decides the outcome. *)
Lemma runPage_step scraped result w :
  let r := runPage env p scraped result w in
  bucket r.2 = bucket w /\
  exists evs, trace r.2 = trace w ++ evs /\
  match pageConversion scraped with
  | inr err => r = (addError result err, w) /\ indexedDocs evs = []
  | inl (mdContent, _) =>
      r.1 = addIndexed result /\
      exists doc, index r.2 = <[ID doc := doc]> (index w) /\
                  indexedDocs evs = [doc] /\
                  URL doc = URL scraped /\ Content doc = mdContent /\
                  ContentType doc = ContentType scraped /\
                  Plain env doc /\
                  Degraded env (llmClient p) (embedClient p) w doc r.2
  end.
Proof.
  cbv zeta. rewrite runPage_withModels.
  destruct (pageConversion scraped) as [[mdContent title]|err].
  2:{ cbn [fst snd]. split; [reflexivity|]. exists [].
      rewrite app_nil_r. repeat split. }
  cbv zeta.
  match goal with
  | |- context [withModels env ?l ?m ?t ?c ?d w] =>
      pose proof (withModels_spec env l m t c d w eq_refl eq_refl eq_refl)
        as (Hs & Hro & Htr & _ & Ht & Hv & Hdeg);
      destruct (withModels env l m t c d w) as [doc w1]
  end.
  cbn [fst snd] in *.
  destruct Hs as (Hid & Hurl & _ & Hcontent & Htype & _).
  cbn [ID URL Content ContentType] in *.
  destruct Hro as (Hb1 & Hi1 & _ & _).
  destruct (Traces_none IsModelCall _ _ model_NotIndex Htr) as (evs1 & Ht1 & Hn1).
  pose proof (IndexDocument_spec env doc w1) as (Ht2 & _ & Hb2 & Hl2 & Hr).
  cbv zeta in Ht2, Hb2, Hl2, Hr. rewrite index_answers in Ht2, Hr.
  destruct (Elasticsearch.IndexDocument env doc w1) as [ierr w2].
  cbn [fst snd] in *. destruct Hr as (-> & Hi2 & _).
  split; [congruence|]. eexists. split.
  { rewrite Ht2, Ht1, <- List.app_assoc. reflexivity. }
  split; [reflexivity|]. exists doc.
  split; [rewrite Hi2, Hi1; reflexivity|].
  split; [rewrite indexedDocs_app, Hn1; reflexivity|].
  split; [exact Hurl|]. split; [exact Hcontent|]. split; [exact Htype|].
  split.
  { split; [congruence|]. exact (Degraded_Unenriched env _ _ _ _ _ Ht Hv Hdeg). }
  destruct Hdeg as [Hd1 Hd2]. split.
  - intros Hllm Hf. rewrite Hl2. auto.
  - intros Hemb Hf. rewrite Hl2. auto.
Qed.

(** The pages of a crawl, one after the other: the pages that convert are
    indexed, in order; every other page gives one error. *)
Lemma runPages_healthy scrapedDocs result w :
  let r := runPages env p scrapedDocs result w in
  let ok := List.filter convertible scrapedDocs in
  bucket r.2 = bucket w /\
  PagesScraped r.1 = PagesScraped result /\
  DocsIndexed r.1 = DocsIndexed result + length ok /\
  (exists errs, Errors r.1 = Errors result ++ errs /\
                length errs + length ok = length scrapedDocs) /\
  exists evs, trace r.2 = trace w ++ evs /\
    List.map URL (indexedDocs evs) = List.map URL ok /\
    Forall (Plain env) (indexedDocs evs) /\
    index r.2 = upsert (index w) (indexedDocs evs).
Proof.
  cbv zeta. revert result w.
  induction scrapedDocs as [|scraped rest IH]; intros result w.
  - cbn [runPages List.filter List.map length]. unfold ret. cbn [fst snd].
    split; [reflexivity|]. split; [reflexivity|]. split; [lia|]. split.
    { exists []. now rewrite app_nil_r. }
    exists []. rewrite app_nil_r. repeat split. constructor.
  - cbn [runPages]. unfold bind.
    pose proof (runPage_step scraped result w) as Hf. cbv zeta in Hf.
    destruct (runPage env p scraped result w) as [result' w1].
    cbn [fst snd] in Hf. destruct Hf as (Hb1 & evs1 & Ht1 & Hcase).
    destruct (IH result' w1)
      as (Hb2 & Hs2 & Hn2 & (errs & He2 & Hl2) & evs2 & Ht2 & Hu2 & Hp2 & Hi2).
    split; [congruence|]. cbn [List.filter].
    assert (convertible scraped
            = match pageConversion scraped with inl _ => true | inr _ => false end)
      as -> by reflexivity.
    destruct (pageConversion scraped) as [[mdContent title]|err].
    + destruct Hcase as (-> & doc0 & Hi1 & Hd1 & Hurl0 & _ & _ & Hplain0 & _).
      cbn [addIndexed PagesScraped DocsIndexed Errors length List.map] in *.
      split; [exact Hs2|]. split; [lia|].
      split; [exists errs; split; [exact He2 | lia]|].
      exists (evs1 ++ evs2). rewrite indexedDocs_app, Hd1. cbn [app List.map].
      split; [rewrite Ht2, Ht1; now rewrite List.app_assoc|].
      split; [now rewrite Hurl0, Hu2|]. split; [now constructor|].
      rewrite Hi2, Hi1. reflexivity.
    + destruct Hcase as (Hr & Hd1). injection Hr as -> ->.
      cbn [addError PagesScraped DocsIndexed Errors length] in *.
      split; [exact Hs2|]. split; [lia|]. split.
      { exists (err :: errs). rewrite He2, <- List.app_assoc. cbn [length].
        split; [reflexivity | lia]. }
      exists evs2. split; [exact Ht2|].
      split; [exact Hu2|]. split; [exact Hp2 | exact Hi2].
Qed.

End Facts.
End PipelineSteps.

(* ================================================================== *)
(** * What a run of [ScrapeToS3] leaves in the store *)
(* ================================================================== *)

Module StoreSteps.
Import Sys Effects Scraper ScraperFacts CrawlFacts StorageFacts Checkpoint IngestFacts.
Local Open Scope world_scope.

Section Facts.
Context `{Libs} (env : Env) (config : Config).

(** [ScrapeToS3] on a URL that parses: the crawl, then the store. *)
Lemma ScrapeToS3_run startURL host w :
  url_Parse startURL = inl host ->
  ScrapeToS3 env config startURL w
  = storeScraped env startURL (runPrefix startURL host (wallClock env (now w)))
      (Scrape env config startURL (slog Info "starting scrape to S3" w).2).1
      (Scrape env config startURL (slog Info "starting scrape to S3" w).2).2.
Proof.
  intros Hp. unfold ScrapeToS3. rewrite Hp. unfold bind, timeNow. cbv beta iota.
  set (w1 := (slog Info "starting scrape to S3" w).2).
  change (slog Info "starting scrape to S3" w) with (tt, w1). cbv beta iota.
  now destruct (Scrape env config startURL w1).
Qed.

(** Names that are in the store stay in the store. *)
Definition Keeping (w w' : World) : Prop :=
  forall name, is_Some (bucket w !! name) -> is_Some (bucket w' !! name).

Lemma writePage_bucket prefix doc acc w :
  let r := writePage env prefix doc acc w in
  Keeping w r.2 /\
  (storageFault env (now w) = None ->
   is_Some (bucket r.2 !! pageName prefix (fileOf (URL doc)))).
Proof.
  unfold writePage, bind. cbv zeta.
  destruct (optional_slog
              (negb (Markdown.Detect (URL doc) (ContentType doc) (Content doc)))
              Debug "storing HTML content" w)
    as (w0 & -> & _ & Hn0 & _ & _ & Hb0).
  pose proof (StorageFacts.PutMarkdown_spec env prefix
                (GenerateDocumentID (URL doc) +:+ ".md") (Content doc) w0)
    as (_ & _ & _ & _ & Hr). cbv zeta in Hr.
  destruct (Storage.PutMarkdown env prefix _ (Content doc) w0) as [e w1].
  cbn [fst snd] in Hr. rewrite Hn0, Hb0 in Hr. unfold Keeping, fileOf.
  destruct (storageFault env (now w)) as [err|]; destruct Hr as [-> Hb];
    unfold slog, ret; cbn [fst snd bucket]; rewrite Hb.
  - split; [auto | discriminate].
  - split.
    + intros name Hin. apply lookup_insert_is_Some'. now right.
    + intros _. rewrite lookup_insert_eq. eauto.
Qed.

Lemma writePages_bucket prefix docs acc w :
  let r := writePages env prefix docs acc w in
  Keeping w r.2 /\
  (forall u, u ∈ storedURLs env (now w) docs ->
     is_Some (bucket r.2 !! pageName prefix (fileOf u))).
Proof.
  revert acc w; induction docs as [|d rest IH]; intros acc w.
  - cbn. split; [intros name Hin; exact Hin|]. intros u Hu. inversion Hu.
  - cbn [writePages]. unfold bind.
    pose proof (writePage_bucket prefix d acc w) as (Hk1 & Hnew).
    pose proof (writePage_spec env prefix d acc w) as (_ & _ & Hn & _).
    destruct (writePage env prefix d acc w) as [urls w1].
    cbn [fst snd] in Hk1, Hnew, Hn.
    destruct (IH urls w1) as (Hk2 & Hin2). rewrite Hn in Hin2. split.
    + intros name Hin. apply Hk2, Hk1, Hin.
    + intros u. cbn [storedURLs].
      destruct (storageFault env (now w)); [apply Hin2|].
      intros Hu. apply elem_of_cons in Hu as [->|Hu]; [|now apply Hin2].
      apply Hk2, Hnew. reflexivity.
Qed.

(** A run that returns a result has left every page of its manifest in
    the store, under the file name made of the id of its URL. *)
Lemma storeScraped_pages startURL prefix docs err w res :
  (storeScraped env startURL prefix (docs, err) w).1 = inl res ->
  Prefix res = prefix /\
  bucket (storeScraped env startURL prefix (docs, err) w).2 !! manifestName prefix
  = Some (Manifest (manifestOf env startURL docs w)) /\
  PageCount res = length (Meta.Pages (manifestOf env startURL docs w)) /\
  forall u, u ∈ Meta.Pages (manifestOf env startURL docs w) ->
    is_Some (bucket (storeScraped env startURL prefix (docs, err) w).2
               !! pageName prefix (fileOf u)).
Proof.
  intros Hres.
  assert (docs <> [] \/ err = None) as Hcase.
  { destruct docs as [|d rest]; [|left; discriminate].
    destruct err as [e|]; [|now right]. discriminate Hres. }
  destruct (storeScraped_stores env startURL prefix docs err w Hcase) as (_ & _ & _ & Hr).
  destruct (storageFault env (now w + length docs)) eqn:Ef.
  { rewrite Hr in Hres. discriminate Hres. }
  destruct Hr as [Hr Hm]. rewrite Hr in Hres. injection Hres as <-.
  cbn [Prefix PageCount]. split; [reflexivity|]. split; [exact Hm|].
  split; [reflexivity|]. cbn [manifestOf Meta.Pages]. intros u Hu.
  assert (storeScraped env startURL prefix (docs, err) w
          = bind (writePages env prefix docs [])
              (fun pageURLs =>
                 bind (timeNow env)
                   (fun t =>
                      bind (Storage.PutMetadata env prefix
                              {| Meta.SourceURL := startURL;
                                 Meta.Timestamp :=
                                   time_Format "2006-01-02T15:04:05Z07:00" t;
                                 Meta.PageCount := length pageURLs;
                                 Meta.Pages := pageURLs |})
                        (fun e =>
                           match e with
                           | Some err =>
                               ret (inr ("failed to write metadata: " +:+ err))
                           | None =>
                               bind (slog Info "scrape to S3 complete")
                                 (fun _ =>
                                    ret (inl {| Prefix := prefix;
                                                PageCount := length pageURLs;
                                                SourceURL := startURL |}))
                           end))) w) as ->.
  { unfold storeScraped. destruct docs as [|d rest]; [|reflexivity].
    destruct err as [e|]; [|reflexivity]. destruct Hcase; congruence. }
  unfold bind, timeNow.
  destruct (writePages_bucket prefix docs [] w) as (_ & Hin).
  destruct (writePages_spec env prefix docs [] w) as (_ & _ & Hn & _).
  destruct (writePages env prefix docs [] w) as [urls w1].
  cbn [fst snd] in Hin, Hn. cbv beta iota.
  match goal with
  | |- context [Storage.PutMetadata env prefix ?m w1] =>
      pose proof (PutMetadata_spec env prefix m w1) as (_ & _ & _ & _ & K);
      destruct (Storage.PutMetadata env prefix m w1) as [e w2]
  end.
  cbv zeta in K. cbn [fst snd] in K. rewrite Hn, Ef in K. destruct K as [-> Kb].
  unfold slog, ret. cbn [fst snd bucket]. rewrite Kb.
  apply lookup_insert_is_Some'. right. apply Hin, Hu.
Qed.

End Facts.
End StoreSteps.

(* ================================================================== *)
(** * Object names and file names *)
(* ================================================================== *)

Module PathFacts.
Import Str GoStrings GoPath Sys Storage StorageFacts StoreFacts IngestFacts.

(** A plain file name: not empty, without a slash, and neither [.] nor
    [..]. *)
Definition plainName (f : string) : Prop :=
  f <> "" /\ all noSlash f = true /\ f <> "." /\ f <> "..".

Lemma splitByte_plain (cur f : string) :
  all noSlash f = true -> splitByte slash cur f = [rev cur +:+ f].
Proof.
  revert cur; induction f as [|c f IH]; intros cur Hf; cbn [splitByte].
  - now rewrite Str.app_nil_r.
  - cbn [all] in Hf. apply andb_true_iff in Hf as [Hc Hf].
    unfold noSlash in Hc. apply negb_true_iff in Hc. rewrite Hc.
    rewrite (IH _ Hf), rev_cons, Str.app_assoc. reflexivity.
Qed.

Lemma splitByte_snoc (cur s f : string) :
  all noSlash f = true ->
  splitByte slash cur (s +:+ String slash f) = splitByte slash cur s ++ [f].
Proof.
  intros Hf. revert cur; induction s as [|c s IH]; intros cur.
  - cbn. rewrite (splitByte_plain "" f Hf). reflexivity.
  - cbn [String.append splitByte]. destruct (Ascii.eqb c slash).
    + now rewrite IH.
    + apply IH.
Qed.

Lemma cleanElems_app (rooted : bool) (es es' stack : list string) :
  cleanElems rooted stack (es ++ es')
  = cleanElems rooted (cleanElems rooted stack es) es'.
Proof.
  revert stack; induction es as [|e es IH]; intros stack; [reflexivity|].
  cbn [app cleanElems].
  destruct (String.eqb e "" || String.eqb e "."); [apply IH|].
  destruct (String.eqb e ".."); [|apply IH].
  destruct stack as [|top below]; [apply IH|].
  destruct (String.eqb top ".."); apply IH.
Qed.

Lemma cleanElems_plain (rooted : bool) (stack : list string) (f : string) :
  plainName f -> cleanElems rooted stack [f] = f :: stack.
Proof.
  intros (H0 & _ & H1 & H2). cbn [cleanElems].
  apply String.eqb_neq in H0, H1, H2. now rewrite H0, H1, H2.
Qed.

Lemma concat_snoc (l : list string) (a f : string) :
  String.concat "/" (l ++ [a; f]) = String.concat "/" (l ++ [a]) +:+ "/" +:+ f.
Proof.
  induction l as [|x l IH]; [reflexivity|].
  cbn [app]. destruct l as [|y l].
  - cbn. now rewrite !Str.app_assoc.
  - change (String.concat "/" (x :: (y :: l) ++ [a; f]))
      with (x +:+ "/" +:+ String.concat "/" ((y :: l) ++ [a; f])).
    change (String.concat "/" (x :: (y :: l) ++ [a]))
      with (x +:+ "/" +:+ String.concat "/" ((y :: l) ++ [a])).
    rewrite IH, !Str.app_assoc. reflexivity.
Qed.

Lemma concat_snoc_nonempty (l : list string) (a : string) :
  a <> "" -> String.concat "/" (l ++ [a]) <> "".
Proof.
  intros Ha. induction l as [|x l IH]; [exact Ha|].
  cbn [app]. destruct l as [|y l].
  - cbn. intros E. apply Str.app_eq_nil in E as [_ E]. discriminate E.
  - change (String.concat "/" (x :: (y :: l) ++ [a]))
      with (x +:+ "/" +:+ String.concat "/" ((y :: l) ++ [a])).
    intros E. apply Str.app_eq_nil in E as [_ E]. discriminate E.
Qed.

Lemma HasPrefix_head (c : ascii) (s t : string) :
  HasPrefix (String c s +:+ t) "/" = HasPrefix (String c s) "/".
Proof. reflexivity. Qed.

(** A plain name appended to a path whose last element stays: cleaning
    keeps the name. *)
Lemma Clean_child (B a f : string) (stk : list string) :
  B <> "" -> a <> "" ->
  cleanElems (HasPrefix B "/") [] (Split B slash) = a :: stk ->
  plainName f ->
  Clean (B +:+ "/" +:+ f) = Clean B +:+ "/" +:+ f /\
  cleanElems (HasPrefix (B +:+ "/" +:+ f) "/") [] (Split (B +:+ "/" +:+ f) slash)
  = f :: a :: stk.
Proof.
  intros HB Ha Hstk Hf. destruct B as [|c B]; [now contradiction HB|].
  assert (cleanElems (HasPrefix (String c B +:+ "/" +:+ f) "/") []
            (Split (String c B +:+ "/" +:+ f) slash) = f :: a :: stk) as Hnew.
  { rewrite HasPrefix_head. unfold Split.
    change ("/" +:+ f) with (String slash f).
    rewrite (splitByte_snoc "" (String c B) f (proj1 (proj2 Hf))).
    unfold Split in Hstk. rewrite cleanElems_app, Hstk.
    now apply cleanElems_plain. }
  split; [|exact Hnew]. unfold Clean. rewrite Hnew, Hstk.
  change (String.eqb (String c B +:+ "/" +:+ f) "") with false.
  change (String.eqb (String c B) "") with false. cbv iota zeta.
  rewrite HasPrefix_head. cbn [List.rev]. rewrite <- List.app_assoc. cbn [app].
  rewrite concat_snoc.
  pose proof (concat_snoc_nonempty (List.rev stk) a Ha) as Hne.
  set (root := if HasPrefix (String c B) "/" then "/" else "") in *.
  set (body := String.concat "/" (List.rev stk ++ [a])) in *.
  assert (String.eqb (root +:+ body) "" = false) as ->.
  { apply String.eqb_neq. intros E. apply Str.app_eq_nil in E as [_ E]. auto. }
  assert (String.eqb (root +:+ body +:+ "/" +:+ f) "" = false) as ->.
  { apply String.eqb_neq. intros E. apply Str.app_eq_nil in E as [_ E].
    apply Str.app_eq_nil in E as [E _]. auto. }
  now rewrite !Str.app_assoc.
Qed.

(** The object name of a page: the directory of the pages, a slash and the
    file name. *)
Lemma pageName_child (prefix f : string) :
  plainName f -> pageName prefix f = Join [prefix; "pages"] +:+ "/" +:+ f.
Proof.
  intros Hf. unfold pageName, Join.
  assert (forallb (fun e => String.eqb e "") [prefix; "pages"; f] = false) as ->.
  { cbn. now rewrite andb_false_r. }
  assert (forallb (fun e => String.eqb e "") [prefix; "pages"] = false) as ->.
  { cbn. now rewrite andb_false_r. }
  destruct prefix as [|c prefix].
  - change (joinBuf "" [""; "pages"; f]) with ("pages" +:+ "/" +:+ f).
    change (joinBuf "" [""; "pages"]) with "pages".
    apply (Clean_child "pages" "pages" f []); [discriminate | discriminate | | exact Hf].
    reflexivity.
  - assert (joinBuf "" [String c prefix; "pages"; f]
            = (String c prefix +:+ "/" +:+ "pages") +:+ "/" +:+ f) as ->.
    { cbn [joinBuf len String.length Nat.ltb Nat.leb orb String.append].
      cbn. now rewrite !Str.app_assoc. }
    assert (joinBuf "" [String c prefix; "pages"] = String c prefix +:+ "/" +:+ "pages")
      as ->.
    { cbn [joinBuf len String.length Nat.ltb Nat.leb orb String.append].
      cbn. now rewrite !Str.app_assoc. }
    destruct (cleanElems (HasPrefix (String c prefix) "/") []
                (Split (String c prefix) slash)) as [|top below] eqn:Estk.
    + eapply (Clean_child _ "pages" f []); [discriminate | discriminate | | exact Hf].
      rewrite HasPrefix_head. unfold Split in *.
      change ("/" +:+ "pages") with (String slash "pages").
      rewrite (splitByte_snoc "" (String c prefix) "pages" eq_refl).
      rewrite cleanElems_app, Estk. reflexivity.
    + eapply (Clean_child _ "pages" f (top :: below));
        [discriminate | discriminate | | exact Hf].
      rewrite HasPrefix_head. unfold Split in *.
      change ("/" +:+ "pages") with (String slash "pages").
      rewrite (splitByte_snoc "" (String c prefix) "pages" eq_refl).
      rewrite cleanElems_app, Estk. reflexivity.
Qed.

Lemma upToSlash_app (s t : string) :
  all noSlash s = true -> upToSlash (s +:+ String slash t) = s.
Proof.
  induction s as [|c s IH]; cbn [String.append upToSlash all].
  - intros _. now rewrite Ascii.eqb_refl.
  - intros Hs. apply andb_true_iff in Hs as [Hc Hs].
    unfold noSlash in Hc. apply negb_true_iff in Hc. rewrite Hc. now rewrite IH.
Qed.

Lemma dropSlashes_plain (s : string) :
  s <> "" -> all noSlash s = true -> forall t, dropSlashes (s +:+ t) = s +:+ t.
Proof.
  destruct s as [|c s]; [intros H; now contradiction H|]. intros _ Hs t.
  cbn [all] in Hs. apply andb_true_iff in Hs as [Hc _].
  unfold noSlash in Hc. apply negb_true_iff in Hc.
  cbn [String.append dropSlashes]. now rewrite Hc.
Qed.

(** The last element of a path that ends in a slash and a plain name is
    the name. *)
Lemma Base_child (dir f : string) :
  f <> "" -> all noSlash f = true -> Base (dir +:+ "/" +:+ f) = f.
Proof.
  intros Hne Hf. unfold Base.
  assert (String.eqb (dir +:+ "/" +:+ f) "" = false) as ->.
  { apply String.eqb_neq. intros E. apply Str.app_eq_nil in E as [_ E]. discriminate E. }
  rewrite rev_app, rev_app. change (rev "/") with "/".
  assert (rev f <> "") as Hrne.
  { intros E. apply Hne. rewrite <- (rev_rev f), E. reflexivity. }
  assert (all noSlash (rev f) = true) as Hrf by now rewrite all_rev.
  rewrite Str.app_assoc. rewrite (dropSlashes_plain (rev f) Hrne Hrf).
  assert (String.eqb (rev f +:+ "/" +:+ rev dir) "" = false) as ->.
  { apply String.eqb_neq. intros E. apply Str.app_eq_nil in E as [E _]. auto. }
  change ("/" +:+ rev dir) with (String slash (rev dir)).
  rewrite (upToSlash_app _ _ Hrf). apply rev_rev.
Qed.

(** The names the store lists are the names it holds. *)
Lemma objectNames_elem (b : gmap string Object) (name : string) :
  is_Some (b !! name) -> In name (objectNames b).
Proof.
  intros [o Ho]. unfold objectNames.
  apply list_elem_of_In. rewrite merge_sort_Permutation. apply list_elem_of_In.
  apply (in_map fst _ (name, o)). apply list_elem_of_In.
  now apply elem_of_map_to_list.
Qed.

Lemma hex_noSlash (s : string) : all Hex.isHexDigit s = true -> all noSlash s = true.
Proof.
  induction s as [|c s IH]; [reflexivity|]. cbn [all]. intros Hs.
  apply andb_true_iff in Hs as [Hc Hs]. rewrite (IH Hs), andb_true_r.
  unfold noSlash. apply negb_true_iff. apply Ascii.eqb_neq. intros ->.
  discriminate Hc.
Qed.

Lemma fileOf_plain (pageURL : string) :
  plainName (fileOf pageURL) /\ HasSuffix (fileOf pageURL) ".md" = true.
Proof.
  assert (String.length (fileOf pageURL) = 19) as Hlen.
  { unfold fileOf. change String.length with len.
    rewrite len_app. change len with String.length.
    now rewrite GenerateDocumentID_length. }
  split; [split; [|split; [|split]]|].
  - intros E. rewrite E in Hlen. discriminate Hlen.
  - unfold fileOf. rewrite all_app, (hex_noSlash _ (GenerateDocumentID_hex pageURL)).
    reflexivity.
  - intros E. rewrite E in Hlen. discriminate Hlen.
  - intros E. rewrite E in Hlen. discriminate Hlen.
  - apply HasSuffix_spec. now exists (GenerateDocumentID pageURL).
Qed.

(** A page file that is in the store is among the files of the run. *)
Lemma fileOf_listed (prefix pageURL : string) (b : gmap string Object) :
  is_Some (b !! pageName prefix (fileOf pageURL)) ->
  fileOf pageURL ∈ storedFiles prefix b.
Proof.
  intros Hin. destruct (fileOf_plain pageURL) as [Hplain Hmd].
  pose proof (pageName_child prefix _ Hplain) as Hname.
  apply list_elem_of_In. unfold storedFiles.
  apply in_map_iff. exists (pageName prefix (fileOf pageURL)). split.
  - rewrite Hname. apply Base_child; [apply Hplain | apply Hplain].
  - apply filter_In. split; [apply filter_In; split|].
    + now apply objectNames_elem.
    + apply HasPrefix_spec. exists (fileOf pageURL). rewrite Hname.
      now rewrite !Str.app_assoc.
    + apply HasSuffix_spec. apply HasSuffix_spec in Hmd as [t Ht].
      exists (Join [prefix; "pages"] +:+ "/" +:+ t). rewrite Hname, Ht.
      now rewrite !Str.app_assoc.
Qed.

End PathFacts.

(* ================================================================== *)
(** * Ids are fixed by the URL *)
(* ================================================================== *)

Module IdSpec.
Import Sys Models Ingestion IngestFacts.

(** C2: the id of a URL is the first 16 of the 64 hexadecimal digits of the
    SHA-256 hash of the URL, so it is 16 digits long and fixed by the URL
    alone: whatever the services answer, whatever the content and whenever
    it is processed, the documents built for one URL carry one id. *)
Theorem GenerateDocumentID_of_url `{Libs} (url : string) :
  (exists rest,
     Hex.EncodeToString (SHA256.Sum256 url) = GenerateDocumentID url +:+ rest /\
     String.length rest = 48) /\
  String.length (GenerateDocumentID url) = 16 /\
  Str.all Hex.isHexDigit (GenerateDocumentID url) = true /\
  forall (env env' : Env) (e e' : Engine) (content content' : string)
         (w w' : World) (doc doc' : Document),
    (processDocument env e url content w).1 = inl doc ->
    (processDocument env' e' url content' w').1 = inl doc' ->
    ID doc = GenerateDocumentID url /\ ID doc' = ID doc.
Proof.
  split; [|split; [apply GenerateDocumentID_length|split; [apply GenerateDocumentID_hex|]]].
  - exists (Str.drop 16 (Hex.EncodeToString (SHA256.Sum256 url))). split.
    + unfold GenerateDocumentID. now rewrite Str.take_drop.
    + rewrite Str.len_drop, Hex.EncodeToString_length, SHA256.Sum256_length. reflexivity.
  - intros env env' e e' content content' w w' doc doc' Hd Hd'.
    assert (forall env0 e0 c0 w0 d0,
               (processDocument env0 e0 url c0 w0).1 = inl d0 ->
               ID d0 = GenerateDocumentID url) as Hid.
    { intros env0 e0 c0 w0 d0 E.
      pose proof (processDocument_result env0 e0 url c0 w0) as Hr.
      destruct (conversion url c0) as [[md title]|err].
      - destruct Hr as (d & Hd0 & Hid0 & _). rewrite E in Hd0. now injection Hd0 as ->.
      - rewrite Hr in E. discriminate E. }
    rewrite (Hid _ _ _ _ _ Hd), (Hid _ _ _ _ _ Hd'). auto.
Qed.

End IdSpec.

(* ================================================================== *)
(** * Search without an embedding *)
(* ================================================================== *)

Module SearchSpec.
Import Sys Elasticsearch.
Local Open Scope world_scope.

(** C4: a hybrid search that is given no embedding is the lexical search
    for the same query and limit: it is the same computation, so the same
    request is sent, and the documents or the error returned are the same.
    This holds of a nil embedding only: with an embedding, be it empty, the
    request sent is another one. *)
Theorem HybridSearch_without_embedding (env : Env) (query : string) (limit : Z)
    (w : World) :
  HybridSearch env query None limit w = Elasticsearch.Search env query limit w /\
  trace (HybridSearch env query None limit w).2
  = trace w ++ [{| at_tick := now w;
                   call := Sys.Search
                             (MultiMatch query ["content"; "title"; "tags^2"; "summary"]
                                limit);
                   failure := indexFault env (now w) |}] /\
  match (HybridSearch env query None limit w).1 with
  | inl docs =>
      indexFault env (now w) = None /\
      docs = hits env (now w)
               (MultiMatch query ["content"; "title"; "tags^2"; "summary"] limit)
               (index w)
  | inr err => exists cause, indexFault env (now w) = Some cause /\
                             err = "search failed: " +:+ cause
  end /\
  forall vector,
    trace (HybridSearch env query (Some vector) limit w).2
    <> trace (Elasticsearch.Search env query limit w).2.
Proof.
  split; [reflexivity|].
  unfold HybridSearch, Elasticsearch.Search, bind, perform, getWorld, ret.
  cbv beta iota zeta. cbn [fst snd now trace faultOf index].
  destruct (indexFault env (now w)) as [cause|]; cbn [fst snd trace index];
    (split; [reflexivity|]); (split; [eauto|]);
    intros vector E; apply app_inv_head in E; discriminate E.
Qed.

End SearchSpec.

(* ================================================================== *)
(** * Errors of a crawl and partial results *)
(* ================================================================== *)

Module CrawlSpec.
Import Sys Effects Scraper ScraperFacts CrawlFacts StorageFacts Checkpoint StoreSteps.
Local Open Scope world_scope.

(** The stated rule for [Scrape]: with at least one document collected,
    the crawl returns no error. *)
Definition StatedPartialSuccess (scraped : list Document * option error) : Prop :=
  scraped.1 <> [] -> scraped.2 = None.

(** The stated rule for [ScrapeToS3]: with at least one document collected,
    it returns a result. *)
Definition StatedStored (scraped : list Document * option error)
    (outcome : ScrapeResult + error) : Prop :=
  scraped.1 <> [] -> exists res, outcome = inl res.

(** A crawl whose context is cancelled after the first page: the start page
    is requested and answered, and the handler of the next request sees the
    context done and aborts the request. *)
Definition cancelledAfterFirstPage : Env := {|
  deadline := Some 3; wallClock := wallClock Demo.env;
  storageFault := storageFault Demo.env; indexFault := indexFault Demo.env;
  chatFault := chatFault Demo.env; embedFault := embedFault Demo.env;
  httpFault := httpFault Demo.env;
  colly := fun u _ =>
    ([OnRequest u; OnResponse u (Demo.page "# A"); OnRequest (u +:+ "/b")], None);
  httpResponse := httpResponse Demo.env; completion := completion Demo.env;
  embedding := embedding Demo.env; hits := hits Demo.env
|}.

(** A crawl of two pages with a store that is down. *)
Definition storeDown : Env := {|
  deadline := deadline Demo.env; wallClock := wallClock Demo.env;
  storageFault := fun _ => Some "connection refused";
  indexFault := indexFault Demo.env;
  chatFault := chatFault Demo.env; embedFault := embedFault Demo.env;
  httpFault := httpFault Demo.env; colly := colly Demo.env;
  httpResponse := httpResponse Demo.env; completion := completion Demo.env;
  embedding := embedding Demo.env; hits := hits Demo.env
|}.

Definition plainConfig : Config :=
  {| Delay := 0; MaxDepth := 2; FollowLinks := true; UserAgent := "BAM-RAG/1.0";
     Timeout := defaultTimeout; TryMarkdownFirst := false |}.

(** C5, as stated, fails. A crawl that is cancelled after its first page
    returns the document of that page together with the error of the
    context: [Scrape] returns an error with a document collected. And a
    crawl that collected two documents is a failure of [ScrapeToS3] when the
    manifest cannot be written. *)
Lemma Scrape_cancelled_with_documents :
  let scraped := (Scrape (H:=plainLibs) cancelledAfterFirstPage plainConfig
                    "https://example.com" Demo.empty).1 in
  let collected := (Scrape (H:=plainLibs) storeDown plainConfig "https://example.com"
                      (slog Info "starting scrape to S3" Demo.empty).2).1 in
  let outcome := (ScrapeToS3 (H:=plainLibs) storeDown plainConfig
                    "https://example.com" Demo.empty).1 in
  (List.map URL scraped.1 = ["https://example.com"] /\
   scraped.2 = Some "context canceled" /\
   ~ StatedPartialSuccess scraped) /\
  (List.map URL collected.1 = ["https://example.com"; "https://example.com/b"] /\
   collected.2 = None /\
   outcome = inr "failed to write metadata: failed to put metadata: connection refused" /\
   ~ StatedStored collected outcome).
Proof.
  cbv zeta. split.
  - split; [reflexivity|]. split; [reflexivity|].
    intros Hstated. discriminate Hstated. discriminate.
  - split; [vm_compute; reflexivity|]. split; [vm_compute; reflexivity|].
    assert ((ScrapeToS3 (H:=plainLibs) storeDown plainConfig
               "https://example.com" Demo.empty).1
            = inr "failed to write metadata: failed to put metadata: connection refused")
      as Hout by (vm_compute; reflexivity).
    split; [exact Hout|]. intros Hstated. rewrite Hout in Hstated.
    destruct Hstated as [res Hres]; [|discriminate Hres].
    intros E. apply (f_equal (@length _)) in E. vm_compute in E. discriminate E.
Qed.

(** C5: [Scrape] returns an error in two cases only. For a start URL that
    does not parse it returns the error of the parser and no document. When
    a handler saw the context done it returns the error of the context
    together with the documents collected, of which there may be some. An
    error of the visit itself, as for a start page that cannot be reached,
    is no error of [Scrape]. [ScrapeToS3] fails with [scrape failed] exactly
    when the crawl returned an error and no document; with a document, or
    without an error, it stores what was collected and fails only when the
    manifest cannot be written. *)
Theorem Crawl_errors_and_partial_results `{Libs} (env : Env) (config : Config)
    (startURL : string) (w : World) :
  let s := Scrape env config startURL w in
  let r := ScrapeToS3 env config startURL w in
  let scraped := Scrape env config startURL (slog Info "starting scrape to S3" w).2 in
  match url_Parse startURL with
  | inr e =>
      s.1 = ([], Some e) /\ r.1 = inr ("failed to parse URL: " +:+ e)
  | inl _ =>
      match (colly env startURL (now w)).2 with
      | Some _ => s.1.2 = None
      | None =>
          s.1.2 = None \/
          (s.1.2 = Some "context canceled" /\
           ctxErrAt env (now s.2) = Some "context canceled")
      end /\
      match scraped.1 with
      | ([], Some e) => r = (inr ("scrape failed: " +:+ e), scraped.2)
      | (docs, _) =>
          match storageFault env (now scraped.2 + length docs) with
          | Some e =>
              r.1 = inr ("failed to write metadata: " +:+ "failed to put metadata: "
                           +:+ e)
          | None =>
              exists res, r.1 = inl res /\ PageCount res <= length docs /\
                          SourceURL res = startURL
          end
      end
  end.
Proof.
  cbv zeta. pose proof (Scrape_result env config startURL w) as Hres.
  pose proof (Scrape_cancelled env config startURL w) as Hcan. cbv zeta in Hres.
  destruct (url_Parse startURL) as [host|e] eqn:Hp.
  2:{ split; [exact Hres|]. unfold ScrapeToS3. now rewrite Hp. }
  split.
  { destruct ((colly env startURL (now w)).2); [exact Hres|].
    destruct Hres as [Hn|Hs]; [now left|]. right. split; [exact Hs|].
    now destruct (Hcan host _ eq_refl Hs) as (_ & Hc & _). }
  rewrite (ScrapeToS3_run env config startURL host w Hp).
  generalize (runPrefix startURL host (wallClock env (now w))). intros prefix.
  destruct (Scrape env config startURL (slog Info "starting scrape to S3" w).2)
    as [[docs err] w2].
  cbn [fst snd].
  assert ((docs = [] /\ exists e, err = Some e) \/ (docs <> [] \/ err = None))
    as [[-> [e ->]]|Hcase].
  { destruct docs; [destruct err; eauto|]; right; left; discriminate. }
  - apply storeScraped_failed.
  - destruct (storeScraped_stores env startURL prefix docs err w2 Hcase)
      as (_ & _ & _ & Hr).
    assert (match storageFault env (now w2 + length docs) with
            | Some e =>
                (storeScraped env startURL prefix (docs, err) w2).1
                = inr ("failed to write metadata: " +:+ "failed to put metadata: " +:+ e)
            | None =>
                exists res, (storeScraped env startURL prefix (docs, err) w2).1 = inl res /\
                            PageCount res <= length docs /\ SourceURL res = startURL
            end) as Hgoal.
    { destruct (storageFault env (now w2 + length docs)); [exact Hr|].
      destruct Hr as [Hr _]. eexists. split; [exact Hr|]. cbn [PageCount SourceURL].
      split; [apply storedURLs_length | reflexivity]. }
    destruct docs as [|d rest]; [|exact Hgoal].
    destruct err as [e|]; [|exact Hgoal].
    destruct Hcase as [Hne|Hne]; [now contradiction Hne | discriminate Hne].
Qed.

End CrawlSpec.

(* ================================================================== *)
(** * Enrichment that fails *)
(* ================================================================== *)

Module EnrichmentSpec.
Import Sys Effects ModelFacts StorageFacts IndexFacts IngestFacts.
Import Journal EnrichSteps IngestSteps PipelineSteps.
Local Open Scope world_scope.

(** Two pages of a run in the store, and two pages of a crawl. *)
Definition demoFiles : World :=
  {| now := 0;
     bucket := {[ "scrapes/example.com/t-1/pages/a.md" := Bytes "# A";
                  "scrapes/example.com/t-1/pages/b.md" := Bytes "# B" ]};
     indexExists := true; index := ∅; trace := []; logs := [] |}.

Definition demoPages : list Document :=
  [Demo.doc "https://example.com/a" "# A"; Demo.doc "https://example.com/b" "# B"].

(** C6: in the engine and in the pipeline a failure of an enrichment call
    is no failure of the document. A content that converts always gives a
    document; when a request to the chat model fails the document has no
    tags and no summary, when the request to the embedding model fails it
    has no embedding, and the failure is a warning in the log: the page of
    the pipeline is indexed all the same and the error list stays as it is.
    For a whole batch, with a store and an index that answer, whether a
    document is indexed or an error is recorded is decided by the read and
    the conversion alone, whatever the model runner answers: every file that
    can be read and converts and every page that converts is indexed, in
    order, and the errors recorded are as many as the other files and
    pages. *)
Theorem enrichment_failure_not_fatal `{Libs} (env : Env)
    (e : Ingestion.Engine) (p : Pipeline.Pipeline)
    (prefix : string) (urlToFile : gmap string string) (files : list string)
    (result : Ingestion.Result) (scrapedDocs : list Document)
    (presult : Pipeline.Result) (w : World) :
  (forall t, storageFault env t = None) ->
  (forall t, indexFault env t = None) ->
  deadline env = None ->
  let r := Ingestion.ingestFiles env e prefix urlToFile files result w in
  let ok := List.filter (ingestible prefix urlToFile (bucket w)) files in
  let r' := Pipeline.runPages env p scrapedDocs presult w in
  let ok' := List.filter convertible scrapedDocs in
  (forall pageURL content mdContent title w0,
     conversion pageURL content = inl (mdContent, title) ->
     let d := Ingestion.processDocument env e pageURL content w0 in
     exists doc, d.1 = inl doc /\ URL doc = pageURL /\ Content doc = mdContent /\
       Degraded env (Ingestion.llmClient e) (Ingestion.embedClient e) w0 doc d.2) /\
  (forall scraped mdContent title presult0 w0,
     pageConversion scraped = inl (mdContent, title) ->
     let d := Pipeline.runPage env p scraped presult0 w0 in
     Pipeline.DocsIndexed d.1 = S (Pipeline.DocsIndexed presult0) /\
     Pipeline.Errors d.1 = Pipeline.Errors presult0 /\
     exists doc, index d.2 !! GenerateDocumentID (URL scraped) = Some doc /\
       URL doc = URL scraped /\ Content doc = mdContent /\
       Degraded env (Pipeline.llmClient p) (Pipeline.embedClient p) w0 doc d.2) /\
  (Ingestion.DocsIndexed r.1 = Ingestion.DocsIndexed result + length ok /\
   (exists errs, Ingestion.Errors r.1 = Ingestion.Errors result ++ errs /\
                 length errs + length ok = length files) /\
   exists evs, trace r.2 = trace w ++ evs /\
     List.map URL (indexedDocs evs) = List.map (urlOf urlToFile) ok /\
     Forall (Plain env) (indexedDocs evs) /\
     index r.2 = upsert (index w) (indexedDocs evs)) /\
  (Pipeline.DocsIndexed r'.1 = Pipeline.DocsIndexed presult + length ok' /\
   (exists errs, Pipeline.Errors r'.1 = Pipeline.Errors presult ++ errs /\
                 length errs + length ok' = length scrapedDocs) /\
   exists evs, trace r'.2 = trace w ++ evs /\
     List.map URL (indexedDocs evs) = List.map URL ok' /\
     Forall (Plain env) (indexedDocs evs) /\
     index r'.2 = upsert (index w) (indexedDocs evs)).
Proof.
  intros Hstore Hindex Hnever. cbv zeta. split; [|split; [|split]].
  - intros pageURL content mdContent title w0 Hc.
    destruct (processDocument_converted env e pageURL content mdContent title w0 Hc)
      as (doc & Hdoc & _ & Hurl & Hcontent & _ & _ & _ & _ & Hdeg).
    exists doc. auto.
  - intros scraped mdContent title presult0 w0 Hc.
    pose proof (runPage_step env p Hindex scraped presult0 w0) as (_ & evs & _ & Hs).
    cbv zeta in Hs. rewrite Hc in Hs.
    destruct Hs as (-> & doc & Hi & _ & Hurl & Hcontent & _ & [Hid _] & Hdeg).
    cbn [Pipeline.addIndexed Pipeline.DocsIndexed Pipeline.Errors].
    split; [reflexivity|]. split; [reflexivity|]. exists doc.
    split; [|auto]. rewrite Hi, <- Hurl, <- Hid. apply lookup_insert_eq.
  - destruct (ingestFiles_healthy env e Hstore Hindex Hnever prefix urlToFile files
                result w) as (_ & Hn & He & Ht).
    auto.
  - destruct (runPages_healthy env p Hindex scrapedDocs presult w)
      as (_ & _ & Hn & He & Ht).
    auto.
Qed.

Lemma enrichment_failure_not_fatal_witness :
  let env := Demo.envModelsDown in
  let e := {| Ingestion.embedClient := true; Ingestion.llmClient := true |} in
  let p := {| Pipeline.scraperConfig := Demo.config;
              Pipeline.embedClient := true; Pipeline.llmClient := true |} in
  let prefix := "scrapes/example.com/t-1" in
  let urlToFile : gmap string string := ∅ in
  let files := ["a.md"; "b.md"] in
  let result := {| Ingestion.Prefix := prefix; Ingestion.DocsIndexed := 0;
                   Ingestion.Duration := 0; Ingestion.Errors := [] |} in
  let presult := {| Pipeline.PagesScraped := 2; Pipeline.DocsIndexed := 0;
                    Pipeline.Duration := 0; Pipeline.Errors := [] |} in
  let w := demoFiles in
  let r := Ingestion.ingestFiles (H:=plainLibs) env e prefix urlToFile files result w in
  let ok := List.filter (ingestible (H:=plainLibs) prefix urlToFile (bucket w)) files in
  let r' := Pipeline.runPages (H:=plainLibs) env p demoPages presult w in
  let ok' := List.filter (convertible (H:=plainLibs)) demoPages in
  (forall pageURL content mdContent title w0,
     conversion (H:=plainLibs) pageURL content = inl (mdContent, title) ->
     let d := Ingestion.processDocument (H:=plainLibs) env e pageURL content w0 in
     exists doc, d.1 = inl doc /\ URL doc = pageURL /\ Content doc = mdContent /\
       Degraded env (Ingestion.llmClient e) (Ingestion.embedClient e) w0 doc d.2) /\
  (forall scraped mdContent title presult0 w0,
     pageConversion (H:=plainLibs) scraped = inl (mdContent, title) ->
     let d := Pipeline.runPage (H:=plainLibs) env p scraped presult0 w0 in
     Pipeline.DocsIndexed d.1 = S (Pipeline.DocsIndexed presult0) /\
     Pipeline.Errors d.1 = Pipeline.Errors presult0 /\
     exists doc, index d.2 !! GenerateDocumentID (URL scraped) = Some doc /\
       URL doc = URL scraped /\ Content doc = mdContent /\
       Degraded env (Pipeline.llmClient p) (Pipeline.embedClient p) w0 doc d.2) /\
  (Ingestion.DocsIndexed r.1 = Ingestion.DocsIndexed result + length ok /\
   (exists errs, Ingestion.Errors r.1 = Ingestion.Errors result ++ errs /\
                 length errs + length ok = length files) /\
   exists evs, trace r.2 = trace w ++ evs /\
     List.map URL (indexedDocs evs) = List.map (urlOf urlToFile) ok /\
     Forall (Plain env) (indexedDocs evs) /\
     index r.2 = upsert (index w) (indexedDocs evs)) /\
  (Pipeline.DocsIndexed r'.1 = Pipeline.DocsIndexed presult + length ok' /\
   (exists errs, Pipeline.Errors r'.1 = Pipeline.Errors presult ++ errs /\
                 length errs + length ok' = length demoPages) /\
   exists evs, trace r'.2 = trace w ++ evs /\
     List.map URL (indexedDocs evs) = List.map URL ok' /\
     Forall (Plain env) (indexedDocs evs) /\
     index r'.2 = upsert (index w) (indexedDocs evs)).
Proof.
  apply (@enrichment_failure_not_fatal plainLibs Demo.envModelsDown);
    intros; reflexivity.
Defined.

End EnrichmentSpec.

(* ================================================================== *)
(** * The manifest is written last *)
(* ================================================================== *)

Module ManifestSpec.
Import Sys Effects Scraper ScraperFacts CrawlFacts StorageFacts Checkpoint StoreSteps.
Local Open Scope world_scope.

(** A write of a manifest. *)
Definition IsManifestWrite (ev : Event) : Prop :=
  exists name meta, call ev = PutObject name (Manifest meta).

Lemma fetch_not_manifest ev : IsFetch ev -> ~ IsManifestWrite ev.
Proof. intros [url E] (name & meta & E'). rewrite E in E'. discriminate E'. Qed.

Lemma page_not_manifest ev : IsPageWrite ev -> ~ IsManifestWrite ev.
Proof.
  intros (n & c & E) (name & meta & E'). rewrite E in E'. discriminate E'.
Qed.

(** An element that differs in kind from all that come before the last
    element is the last element. *)
Lemma only_last {A : Type} (P : A -> Prop) (l : list A) (m : A)
    (before : list A) (ev : A) (after : list A) :
  l ++ [m] = before ++ ev :: after ->
  Forall (fun x => ~ P x) l -> P ev ->
  after = [] /\ before = l /\ ev = m.
Proof.
  revert before; induction l as [|a l IH]; intros before E Hall Hev.
  - destruct before as [|b before]; simpl in E.
    + injection E as -> <-. auto.
    + injection E as _ E. now destruct before.
  - destruct before as [|b before]; simpl in E.
    + injection E as -> _. inversion Hall as [|? ? Ha _]. now contradiction Ha.
    + injection E as -> E. inversion Hall as [|? ? _ Hl]; subst.
      destruct (IH before E Hl Hev) as (-> & -> & ->). auto.
Qed.

(** C7: in a run of [ScrapeToS3] a write of the manifest is the last call
    of the run, and when it is made every page write of the run has been
    made: what comes before it are the fetches of the crawl and then one
    write per document the crawl returned. A run that returns a result
    has made that write, without failure, under the prefix it returns,
    and the manifest is in the store. *)
Theorem ScrapeToS3_manifest_written_last `{Libs} (env : Env) (config : Config)
    (startURL : string) (w : World) :
  let r := ScrapeToS3 env config startURL w in
  let scraped := (Scrape env config startURL (slog Info "starting scrape to S3" w).2).1 in
  exists calls,
    trace r.2 = trace w ++ calls /\
    (forall before ev after,
       calls = before ++ ev :: after -> IsManifestWrite ev ->
       after = [] /\
       exists host crawl pages,
         url_Parse startURL = inl host /\
         before = crawl ++ pages /\ Forall IsFetch crawl /\
         List.map call pages
         = List.map (pageWrite (runPrefix startURL host (wallClock env (now w))))
                    scraped.1) /\
    (forall res, r.1 = inl res ->
       exists before ev meta,
         calls = before ++ [ev] /\
         call ev = PutObject (manifestName (Prefix res)) (Manifest meta) /\
         failure ev = None /\
         bucket r.2 !! manifestName (Prefix res) = Some (Manifest meta)).
Proof.
  cbv zeta. destruct (url_Parse startURL) as [host|perr] eqn:Hp.
  2:{ unfold ScrapeToS3. rewrite Hp. unfold ret. cbn [fst snd]. exists [].
      split; [now rewrite app_nil_r|]. split; [|discriminate].
      intros before ev after E. now destruct before. }
  rewrite (ScrapeToS3_run env config startURL host w Hp).
  set (prefix := runPrefix startURL host (wallClock env (now w))).
  set (w1 := (slog Info "starting scrape to S3" w).2).
  destruct (Scrape_Traces env config startURL w1) as (crawl & Hc & Hf).
  change (trace w1) with (trace w) in Hc.
  destruct (Scrape env config startURL w1) as [[docs err] w2]. cbn [fst snd] in Hc |- *.
  assert ((docs = [] /\ exists e, err = Some e) \/ (docs <> [] \/ err = None))
    as [[-> [e ->]]|Hcase].
  { destruct docs; [destruct err; eauto|]; right; left; discriminate. }
  - rewrite storeScraped_failed. cbn [fst snd]. exists crawl.
    split; [exact Hc|]. split; [|discriminate].
    intros before ev after E Hev. exfalso. apply (fetch_not_manifest ev); [|exact Hev].
    rewrite Forall_forall in Hf. apply Hf. rewrite E.
    apply elem_of_app. right. constructor.
  - destruct (storeScraped_stores env startURL prefix docs err w2 Hcase)
      as (Ht & _ & _ & Hr).
    exists (crawl ++ pageEvents env prefix (now w2) docs
              ++ [manifestEvent env startURL prefix docs w2]).
    split; [rewrite Ht, Hc; now rewrite <- !app_assoc|]. split.
    + intros before ev after E Hev. rewrite app_assoc in E.
      destruct (only_last IsManifestWrite _ _ _ _ _ E) as (-> & -> & _); [|exact Hev|].
      * apply Forall_app. split.
        -- eapply Forall_impl; [exact Hf|]. apply fetch_not_manifest.
        -- eapply Forall_impl; [apply pageEvents_IsPageWrite|]. apply page_not_manifest.
      * split; [reflexivity|].
        exists host, crawl, (pageEvents env prefix (now w2) docs).
        split; [reflexivity|]. split; [reflexivity|]. split; [exact Hf|].
        apply pageEvents_calls.
    + intros res Hres.
      destruct (storageFault env (now w2 + length docs)) eqn:Ef.
      { rewrite Hr in Hres. discriminate. }
      destruct Hr as [Hr Hb]. rewrite Hr in Hres. injection Hres as <-.
      exists (crawl ++ pageEvents env prefix (now w2) docs),
             (manifestEvent env startURL prefix docs w2),
             (manifestOf env startURL docs w2).
      cbn [Prefix]. unfold manifestEvent. cbn [call failure].
      split; [now rewrite <- app_assoc|]. split; [reflexivity|].
      split; [exact Ef | exact Hb].
Qed.

End ManifestSpec.

(* ================================================================== *)
(** * From the crawl to the index, by way of the store *)
(* ================================================================== *)

Module RoundTripSpec.
Import Sys Effects Scraper ScraperFacts StorageFacts Checkpoint.
Import Ingestion ModelFacts IndexFacts IngestFacts.
Import Journal EnrichSteps IngestSteps StoreSteps PathFacts.
Local Open Scope world_scope.

(** C8: a run of [ScrapeToS3] that returns a result has written a manifest,
    and every page [u] of the manifest is in the store under the file name
    made of its id and is among the files that an ingestion of the prefix
    lists. When no other page of the manifest has the id of [u], the map
    that [Ingest] builds from the manifest gives [u] for that file name, and
    an ingestion of the prefix with a store and an index that answer writes
    to the index, for a content that converts, a document with URL [u] under
    the id of [u]. *)
Theorem ScrapeToS3_then_Ingest `{Libs} (env : Env) (config : Config)
    (startURL : string) (w : World) (res : ScrapeResult)
    (env' : Env) (e : Engine) :
  (ScrapeToS3 env config startURL w).1 = inl res ->
  Answers env' ->
  let s := (ScrapeToS3 env config startURL w).2 in
  let r := Ingest env' e (Scraper.Prefix res) s in
  exists meta calls,
    bucket s !! manifestName (Scraper.Prefix res) = Some (Manifest meta) /\
    PageCount res = length (Meta.Pages meta) /\
    trace r.2 = trace s ++ calls /\
    (exists ingested, r.1 = inl ingested) /\
    forall u, u ∈ Meta.Pages meta ->
      is_Some (bucket s !! pageName (Scraper.Prefix res) (GenerateDocumentID u +:+ ".md")) /\
      GenerateDocumentID u +:+ ".md" ∈ storedFiles (Scraper.Prefix res) (bucket s) /\
      ((forall other, other ∈ Meta.Pages meta ->
          GenerateDocumentID other = GenerateDocumentID u -> other = u) ->
       buildURLToFile (Meta.Pages meta) !! (GenerateDocumentID u +:+ ".md") = Some u /\
       forall content,
         stored (Scraper.Prefix res) (GenerateDocumentID u +:+ ".md") (bucket s) = inl content ->
         (exists converted, conversion u content = inl converted) ->
         exists doc, doc ∈ indexedDocs calls /\ URL doc = u /\
                     ID doc = GenerateDocumentID u /\
                     is_Some (index r.2 !! GenerateDocumentID u)).
Proof.
  intros Hres (Hs & Hi & Hd). cbv zeta.
  assert (exists prefix docs err w2,
             ScrapeToS3 env config startURL w
             = storeScraped env startURL prefix (docs, err) w2) as (prefix & docs & err & w2 & Hrun).
  { destruct (url_Parse startURL) as [host|perr] eqn:Hp.
    - rewrite (ScrapeToS3_run env config startURL host w Hp).
      destruct (Scrape env config startURL _) as [[docs err] w2]. cbn [fst snd]. eauto.
    - unfold ScrapeToS3 in Hres. rewrite Hp in Hres. discriminate Hres. }
  rewrite Hrun in Hres |- *.
  destruct (storeScraped_pages env startURL prefix docs err w2 res Hres)
    as (Hprefix & Hm & Hcount & Hpages).
  set (s := (storeScraped env startURL prefix (docs, err) w2).2) in *.
  set (meta := manifestOf env startURL docs w2) in *.
  rewrite Hprefix.
  pose proof (Ingest_healthy env' e Hs Hi Hd prefix s) as (_ & calls & Ht & Hing).
  cbv zeta in Ht, Hing.
  assert (storedManifest prefix (bucket s) = Some meta) as Hsm.
  { unfold storedManifest. now rewrite Hm. }
  rewrite Hsm in Hing.
  destruct Hing as (ingested & Hr & _ & _ & Hurls & Hplain & Hindex).
  exists meta, calls. split; [exact Hm|]. split; [exact Hcount|].
  split; [exact Ht|]. split; [eauto|].
  intros u Hu. specialize (Hpages u Hu). fold (fileOf u) in *.
  split; [exact Hpages|].
  pose proof (fileOf_listed prefix u (bucket s) Hpages) as Hlisted.
  split; [exact Hlisted|].
  intros Hown. pose proof (buildURLToFile_own _ u Hu Hown) as Hmap.
  split; [exact Hmap|].
  intros content Hcontent [converted Hconv].
  assert (urlOf (buildURLToFile (Meta.Pages meta)) (fileOf u) = u) as Hurl.
  { unfold urlOf. now rewrite Hmap. }
  assert (fileOf u ∈ List.filter
                       (ingestible prefix (buildURLToFile (Meta.Pages meta)) (bucket s))
                       (storedFiles prefix (bucket s))) as Hok.
  { apply list_elem_of_In, filter_In. split; [now apply list_elem_of_In|].
    unfold ingestible. now rewrite Hcontent, Hurl, Hconv. }
  assert (u ∈ List.map URL (indexedDocs calls)) as Hin.
  { rewrite Hurls, <- Hurl. apply list_elem_of_In, in_map, list_elem_of_In, Hok. }
  apply list_elem_of_In, in_map_iff in Hin as (doc & Hdoc & Hin).
  apply list_elem_of_In in Hin.
  assert (ID doc = GenerateDocumentID u) as Hid.
  { rewrite Forall_forall in Hplain. destruct (Hplain doc Hin) as [Hid _]. congruence. }
  exists doc. split; [exact Hin|]. split; [exact Hdoc|]. split; [exact Hid|].
  apply elem_of_dom. rewrite Hindex, dom_upsert. apply elem_of_union_r.
  apply elem_of_list_to_set. rewrite <- Hid.
  apply list_elem_of_In, in_map, list_elem_of_In, Hin.
Qed.

Definition demoStored : ScrapeResult :=
  {| Scraper.Prefix := "scrapes/example.com/1700000000000000000-a4e7dcc4";
     PageCount := 2; SourceURL := "https://example.com" |}.

Lemma ScrapeToS3_then_Ingest_witness :
  let res := demoStored in
  let s := (ScrapeToS3 (H:=plainLibs) Demo.env Demo.config "https://example.com"
              Demo.empty).2 in
  let r := Ingest (H:=plainLibs) Demo.env IngestProps.demoEngine (Scraper.Prefix res) s in
  exists meta calls,
    bucket s !! manifestName (Scraper.Prefix res) = Some (Manifest meta) /\
    PageCount res = length (Meta.Pages meta) /\
    trace r.2 = trace s ++ calls /\
    (exists ingested, r.1 = inl ingested) /\
    forall u, u ∈ Meta.Pages meta ->
      is_Some (bucket s !! pageName (Scraper.Prefix res) (GenerateDocumentID u +:+ ".md")) /\
      GenerateDocumentID u +:+ ".md" ∈ storedFiles (Scraper.Prefix res) (bucket s) /\
      ((forall other, other ∈ Meta.Pages meta ->
          GenerateDocumentID other = GenerateDocumentID u -> other = u) ->
       buildURLToFile (Meta.Pages meta) !! (GenerateDocumentID u +:+ ".md") = Some u /\
       forall content,
         stored (H:=plainLibs) (Scraper.Prefix res) (GenerateDocumentID u +:+ ".md")
           (bucket s) = inl content ->
         (exists converted, conversion (H:=plainLibs) u content = inl converted) ->
         exists doc, doc ∈ indexedDocs calls /\ URL doc = u /\
                     ID doc = GenerateDocumentID u /\
                     is_Some (index r.2 !! GenerateDocumentID u)).
Proof.
  apply (@ScrapeToS3_then_Ingest plainLibs Demo.env Demo.config "https://example.com"
           Demo.empty demoStored Demo.env IngestProps.demoEngine).
  - vm_compute. reflexivity.
  - repeat split.
Defined.

(** The two pages of the demonstration crawl, stored and ingested: the
    documents indexed carry the URLs of the pages. *)
Example stored_pages_ingested :
  let s := (ScrapeToS3 (H:=plainLibs) Demo.env Demo.config "https://example.com"
              Demo.empty).2 in
  let r := Ingest (H:=plainLibs) Demo.env IngestProps.demoEngine
             (Scraper.Prefix demoStored) s in
  List.map (fun doc => (ID doc, URL doc)) (indexedDocs (trace r.2))
  = [("100680ad546ce6a5", "https://example.com");
     ("d7fe568b31ae0fb9", "https://example.com/b")].
Proof. vm_compute. reflexivity. Qed.

End RoundTripSpec.

(* ================================================================== *)
(** * Ingesting a run again *)
(* ================================================================== *)

Module ReingestSpec.
Import Sys Effects Ingestion ModelFacts StorageFacts IndexFacts IngestFacts.
Import Journal EnrichSteps IngestSteps.
Local Open Scope world_scope.

Lemma Plain_ids (env env' : Env) (docs docs' : list Document) :
  Forall (Plain env) docs -> Forall (Plain env') docs' ->
  List.map URL docs' = List.map URL docs ->
  List.map ID docs' = List.map ID docs.
Proof.
  intros Hp. revert docs'. induction Hp as [|d docs [Hd _] _ IH]; intros docs' Hp' Hu.
  - destruct docs'; [reflexivity | discriminate Hu].
  - destruct Hp' as [|d' docs' [Hd' _] Hp']; [discriminate Hu|].
    cbn [List.map] in *. injection Hu as Hu1 Hu. rewrite (IH _ Hp' Hu).
    f_equal. congruence.
Qed.

(** C9: with a store and an index that answer, a second ingestion of a
    prefix does what the first did. It returns a result exactly when the
    first did, with the same count of indexed documents and as many errors;
    it writes documents with the same URLs under the same ids, in the same
    order; and each of its writes replaces the entry that the first run
    left under that id, so that the index has the entries it had, none
    more. The engines and what the models answer may differ between the
    runs. *)
Theorem Ingest_twice `{Libs} (env env' : Env) (e e' : Engine) (prefix : string)
    (w : World) :
  Answers env -> Answers env' ->
  let r1 := Ingest env e prefix w in
  let r2 := Ingest env' e' prefix r1.2 in
  bucket r2.2 = bucket w /\
  exists calls1 calls2,
    trace r1.2 = trace w ++ calls1 /\ trace r2.2 = trace r1.2 ++ calls2 /\
    match r1.1 with
    | inr _ => (exists err, r2.1 = inr err) /\ index r2.2 = index w
    | inl res1 =>
        exists res2, r2.1 = inl res2 /\
          DocsIndexed res2 = DocsIndexed res1 /\
          length (Errors res2) = length (Errors res1) /\
          List.map URL (indexedDocs calls2) = List.map URL (indexedDocs calls1) /\
          List.map ID (indexedDocs calls2) = List.map ID (indexedDocs calls1) /\
          length (indexedDocs calls1) = DocsIndexed res1 /\
          index r1.2 = upsert (index w) (indexedDocs calls1) /\
          index r2.2 = upsert (index r1.2) (indexedDocs calls2) /\
          dom (index r2.2) = dom (index r1.2)
    end.
Proof.
  intros (Hs & Hi & Hd) (Hs' & Hi' & Hd'). cbv zeta.
  pose proof (Ingest_healthy env e Hs Hi Hd prefix w) as (Hb1 & calls1 & Ht1 & H1).
  cbv zeta in Hb1, Ht1, H1.
  pose proof (Ingest_healthy env' e' Hs' Hi' Hd' prefix (Ingest env e prefix w).2)
    as (Hb2 & calls2 & Ht2 & H2).
  cbv zeta in Hb2, Ht2, H2. rewrite Hb1 in H2.
  split; [congruence|]. exists calls1, calls2.
  split; [exact Ht1|]. split; [exact Ht2|].
  destruct (storedManifest prefix (bucket w)) as [meta|].
  - destruct H1 as (res1 & -> & Hn1 & Hl1 & Hu1 & Hp1 & Hx1).
    destruct H2 as (res2 & -> & Hn2 & Hl2 & Hu2 & Hp2 & Hx2).
    exists res2. split; [reflexivity|]. split; [congruence|]. split; [lia|].
    assert (List.map URL (indexedDocs calls2) = List.map URL (indexedDocs calls1))
      as Hu by congruence.
    pose proof (Plain_ids _ _ _ _ Hp1 Hp2 Hu) as Hids.
    split; [exact Hu|]. split; [exact Hids|].
    split.
    { rewrite Hn1, <- (length_map URL (indexedDocs calls1)), Hu1, length_map.
      reflexivity. }
    split; [exact Hx1|]. split; [exact Hx2|].
    rewrite Hx2, dom_upsert, Hids, Hx1, dom_upsert. set_solver.
  - destruct H1 as ((err1 & ->) & Hx1 & _). destruct H2 as (Herr2 & Hx2 & _).
    split; [exact Herr2 | congruence].
Qed.

Lemma Ingest_twice_witness :
  let env := Demo.env in
  let e := IngestProps.demoEngine in
  let e' := {| embedClient := true; llmClient := true |} in
  let prefix := "scrapes/example.com/t-1" in
  let w := IngestProps.demoRun in
  let r1 := Ingest (H:=plainLibs) env e prefix w in
  let r2 := Ingest (H:=plainLibs) env e' prefix r1.2 in
  bucket r2.2 = bucket w /\
  exists calls1 calls2,
    trace r1.2 = trace w ++ calls1 /\ trace r2.2 = trace r1.2 ++ calls2 /\
    match r1.1 with
    | inr _ => (exists err, r2.1 = inr err) /\ index r2.2 = index w
    | inl res1 =>
        exists res2, r2.1 = inl res2 /\
          DocsIndexed res2 = DocsIndexed res1 /\
          length (Errors res2) = length (Errors res1) /\
          List.map URL (indexedDocs calls2) = List.map URL (indexedDocs calls1) /\
          List.map ID (indexedDocs calls2) = List.map ID (indexedDocs calls1) /\
          length (indexedDocs calls1) = DocsIndexed res1 /\
          index r1.2 = upsert (index w) (indexedDocs calls1) /\
          index r2.2 = upsert (index r1.2) (indexedDocs calls2) /\
          dom (index r2.2) = dom (index r1.2)
    end.
Proof.
  apply (@Ingest_twice plainLibs Demo.env Demo.env IngestProps.demoEngine
           {| embedClient := true; llmClient := true |}
           "scrapes/example.com/t-1" IngestProps.demoRun);
    repeat split.
Defined.

End ReingestSpec.

(* ================================================================== *)
(** * A file the manifest does not list *)
(* ================================================================== *)

Module OrphanSpec.
Import Sys Effects Ingestion ModelFacts StorageFacts IndexFacts IngestFacts.
Import Journal EnrichSteps IngestSteps.
Local Open Scope world_scope.

(** C10: a file whose name is the file name of no page of the manifest is
    not skipped: after a warning in the log it is processed as any file is,
    with the file name for its URL. When the store and the index answer and
    the content converts, one document is indexed and no error is recorded:
    its URL is the file name and its id is the id of the file name. The only
    errors recorded for such a file are the error of the read and the error
    of the conversion. *)
Theorem Ingest_file_without_url `{Libs} (env : Env) (e : Engine) (prefix : string)
    (pages : list string) (filename : string) (result : Result) (w : World) :
  (forall pageURL, pageURL ∈ pages ->
     GenerateDocumentID pageURL +:+ ".md" <> filename) ->
  let urlToFile := buildURLToFile pages in
  let r := ingestFile env e prefix urlToFile filename result w in
  urlToFile !! filename = None /\
  r = ingestFileAs env e prefix filename filename result
        (slog Warn "no URL found for file" w).2 /\
  (Warn, "no URL found for file") ∈ logs r.2 /\
  (storageFault env (now w) = None -> (forall t, indexFault env t = None) ->
   match stored prefix filename (bucket w) with
   | inr err => r.1 = addError result err /\ index r.2 = index w
   | inl content =>
       match conversion filename content with
       | inr err => r.1 = addError result err /\ index r.2 = index w
       | inl (mdContent, _) =>
           DocsIndexed r.1 = S (DocsIndexed result) /\ Errors r.1 = Errors result /\
           exists doc,
             index r.2 = <[GenerateDocumentID filename := doc]> (index w) /\
             URL doc = filename /\ ID doc = GenerateDocumentID filename /\
             Content doc = mdContent
       end
   end).
Proof.
  intros Horphan. cbv zeta.
  assert (buildURLToFile pages !! filename = None) as Hnone
    by (apply buildURLToFile_None; exact Horphan).
  split; [exact Hnone|].
  unfold ingestFile, pageURLOf, bind. rewrite Hnone. unfold ret. cbv beta iota.
  set (w1 := (slog Warn "no URL found for file" w).2).
  change (slog Warn "no URL found for file" w) with (tt, w1). cbv beta iota.
  split; [reflexivity|]. split.
  { assert (Keeps Logged (ingestFileAs env e prefix filename filename result)) as Hk.
    { unfold ingestFileAs, processDocument, Elasticsearch.IndexDocument.
      keeps; auto using GetMarkdown_Logged, EnrichDocument_Logged, Embed_Logged. }
    eapply Logged_elem; [apply Hk|]. apply slog_logs. }
  intros Hstore Hindex.
  pose proof (ingestFileAs_step env e prefix filename filename result w1 Hindex)
    as (_ & evs & _ & Hs).
  cbv zeta in Hs.
  rewrite (GetMarkdown_stored env prefix filename w1 Hstore) in Hs.
  change (bucket w1) with (bucket w) in Hs. change (index w1) with (index w) in Hs.
  destruct (stored prefix filename (bucket w)) as [content|err]; [|tauto].
  destruct (conversion filename content) as [[mdContent title]|cerr]; [|tauto].
  destruct Hs as (-> & doc & Hi & _ & Hid & Hurl & Hcontent & _).
  cbn [addIndexed DocsIndexed Errors]. split; [reflexivity|]. split; [reflexivity|].
  exists doc. auto.
Qed.

Lemma Ingest_file_without_url_witness :
  let env := Demo.env in
  let e := IngestProps.demoEngine in
  let prefix := "scrapes/example.com/t-1" in
  let w := IngestProps.demoRun in
  let result := {| Prefix := prefix; DocsIndexed := 0; Duration := 0; Errors := [] |} in
  let urlToFile := buildURLToFile ["https://example.com/"] in
  let r := ingestFile (H:=plainLibs) env e prefix urlToFile "a.md" result w in
  urlToFile !! "a.md" = None /\
  r = ingestFileAs (H:=plainLibs) env e prefix "a.md" "a.md" result
        (slog Warn "no URL found for file" w).2 /\
  (Warn, "no URL found for file") ∈ logs r.2 /\
  (storageFault env (now w) = None -> (forall t, indexFault env t = None) ->
   match stored (H:=plainLibs) prefix "a.md" (bucket w) with
   | inr err => r.1 = addError result err /\ index r.2 = index w
   | inl content =>
       match conversion (H:=plainLibs) "a.md" content with
       | inr err => r.1 = addError result err /\ index r.2 = index w
       | inl (mdContent, _) =>
           DocsIndexed r.1 = S (DocsIndexed result) /\ Errors r.1 = Errors result /\
           exists doc,
             index r.2 = <[GenerateDocumentID "a.md" := doc]> (index w) /\
             URL doc = "a.md" /\ ID doc = GenerateDocumentID "a.md" /\
             Content doc = mdContent
       end
   end).
Proof.
  apply (@Ingest_file_without_url plainLibs Demo.env IngestProps.demoEngine
           "scrapes/example.com/t-1" ["https://example.com/"] "a.md").
  intros pageURL Hin. apply list_elem_of_singleton in Hin as ->.
  vm_compute. discriminate.
Defined.

End OrphanSpec.
